(** * Erigon (Optimism fork): state transition, transaction decoding, base fee
      and versioned domain storage

    A shallow embedding of the Go code under [src/] that the specification's
    claims are about:

    - [L1Cost] (core/types/rollup_l1_cost.go),
    - [CalcBaseFee] and the Holocene parameter codecs (consensus/misc),
    - [parseSignature] and the deposit branch of [parseTransactionBody]
      (erigon-lib/types),
    - [buyGas], [preCheck], [innerTransitionDb], [TransitionDb] (core),
    - [Domain.Put], [DomainRoTx.get], [GetBeforeTxNum], [BeginFilesRo],
      [DomainRoTx.Close] (erigon-lib/state).

    Conventions.  A Go [uint64] or [uint256.Int] is a [Z] with the wrap-around
    written out ([wrap64], [wrap256]).  A Go [error] is a value of an inductive
    type, [nil] being the absence of one.  A Go panic is an outcome of its own.
    Code of packages that are not part of the embedded files (the EVM, the
    key-value transaction, the RLP reader, the history layer, the chain
    configuration) is taken as a parameter: a field of a record of oracles. *)

From Stdlib Require Import ZArith Lia List Bool.
From stdpp Require Import base option list gmap.
Import ListNotations.

Local Open Scope Z_scope.

(** ** Fixed-width unsigned integers *)

Module U.

Definition two64 : Z := 2 ^ 64.
Definition two256 : Z := 2 ^ 256.

Definition wrap64 (x : Z) : Z := x mod two64.
Definition wrap256 (x : Z) : Z := x mod two256.

(** holiman/uint256: [Add], [Sub], [Mul] wrap; [Div] by zero is zero. *)
Definition add (x y : Z) : Z := wrap256 (x + y).
Definition sub (x y : Z) : Z := wrap256 (x - y).
Definition mul (x y : Z) : Z := wrap256 (x * y).
Definition div (x y : Z) : Z := if y =? 0 then 0 else x / y.

(** [z.MulOverflow(x, y)] and [z.AddOverflow(x, y)]: the wrapped result and
    whether the exact one does not fit. *)
Definition MulOverflow (x y : Z) : Z * bool := (wrap256 (x * y), two256 <=? x * y).
Definition AddOverflow (x y : Z) : Z * bool := (wrap256 (x + y), two256 <=? x + y).

Definition is_u64 (x : Z) : Prop := 0 <= x < two64.
Definition is_u256 (x : Z) : Prop := 0 <= x < two256.

Lemma wrap256_small x : 0 <= x < two256 -> wrap256 x = x.
Proof. intros H. unfold wrap256. apply Z.mod_small. exact H. Qed.

Lemma wrap64_small x : 0 <= x < two64 -> wrap64 x = x.
Proof. intros H. unfold wrap64. apply Z.mod_small. exact H. Qed.

Lemma wrap256_range x : 0 <= wrap256 x < two256.
Proof. unfold wrap256. apply Z.mod_pos_bound. reflexivity. Qed.

Lemma wrap64_range x : 0 <= wrap64 x < two64.
Proof. unfold wrap64. apply Z.mod_pos_bound. reflexivity. Qed.

Lemma two64_lt_two256 : two64 < two256.
Proof. reflexivity. Qed.

End U.

(** ** L1 data-availability cost (core/types/rollup_l1_cost.go) *)

Module L1.

(** [func L1Cost(rollupDataGas uint64, l1BaseFee, overhead, scalar *uint256.Int)]:
    [(rollupDataGas + overhead) * l1BaseFee * scalar / 1_000_000], every step
    in 256-bit arithmetic. *)
Definition L1Cost (rollupDataGas l1BaseFee overhead scalar : Z) : Z :=
  let l1GasUsed := U.wrap256 rollupDataGas in
  let l1GasUsed := U.add l1GasUsed overhead in
  let l1Cost := U.mul l1GasUsed l1BaseFee in
  let l1Cost := U.mul l1Cost scalar in
  U.div l1Cost 1000000.

(** The fixtures of core/types/receipt_test.go. *)
Definition basefee : Z := 1000 * 10 ^ 6.
Definition scalar : Z := 7 * 10 ^ 6.
Definition bedrockFee : Z := 11326000000000.
Definition ecotoneFee : Z := 960900.
Definition bedrockGas : Z := 1618.
Definition ecotoneGas : Z := 480.

(** What the spec calls the Ecotone formula, read as a number. *)
Definition spec_ecotone_formula : Z := (480 / 16) * (2 * 16 * basefee + 3 * 10).

(** The same formula as the fixture's comment writes it. *)
Definition fixture_ecotone_formula : Z := (480 / 16) * (2 * 16 * 1000 + 3 * 10).

Lemma L1Cost_exact g b o s :
  0 <= g -> 0 <= b -> 0 <= o -> 0 <= s -> (g + o) * b * s < U.two256 ->
  L1Cost g b o s = (g + o) * b * s / 1000000.
Proof.
  intros Hg Hb Ho Hs Hlt. unfold L1Cost, U.add, U.mul, U.div. cbn [Z.eqb].
  assert (H1 : 0 <= g + o) by lia.
  assert (H2 : 0 <= (g + o) * b) by (apply Z.mul_nonneg_nonneg; lia).
  assert (H3 : 0 <= (g + o) * b * s) by (apply Z.mul_nonneg_nonneg; lia).
  destruct (Z.eq_dec s 0) as [->|Hs0].
  - rewrite !Z.mul_0_r. unfold U.wrap256. rewrite Z.mod_0_l by (unfold U.two256; lia).
    reflexivity.
  - destruct (Z.eq_dec b 0) as [->|Hb0].
    + rewrite !Z.mul_0_r, !Z.mul_0_l. unfold U.wrap256.
      rewrite !Z.mod_0_l by (unfold U.two256; lia). reflexivity.
    + assert (Hb1 : (g + o) * b <= (g + o) * b * s) by nia.
      assert (Hg1 : g + o <= (g + o) * b) by nia.
      rewrite (U.wrap256_small g) by lia.
      rewrite (U.wrap256_small (g + o)) by lia.
      rewrite (U.wrap256_small ((g + o) * b)) by lia.
      rewrite (U.wrap256_small ((g + o) * b * s)) by lia.
      reflexivity.
Qed.

(** The Bedrock fixture is what [L1Cost] computes: 1568 bytes-gas plus the
    overhead of 50 make [bedrockGas]. *)
Example L1Cost_bedrock_fixture :
  L1Cost (bedrockGas - 50) basefee 50 scalar = bedrockFee.
Proof. vm_compute. reflexivity. Qed.

(** C3 (as stated, refuted): with rollupDataGas = 480, overhead = 0 and
    l1BaseFee = 1000e6, [L1Cost] does not return 960900: not for the fixture's
    scalar 7e6, not for the scalar 2 of the Ecotone payload, and not for the
    value of the formula the claim quotes, which is itself 960000000900 and
    not 960900. *)
Lemma C3_L1Cost_is_not_ecotoneFee :
  L1Cost ecotoneGas basefee 0 scalar = 3360000000000 /\
  L1Cost ecotoneGas basefee 0 scalar <> ecotoneFee /\
  L1Cost ecotoneGas basefee 0 2 <> ecotoneFee /\
  L1Cost ecotoneGas basefee 0 spec_ecotone_formula <> ecotoneFee /\
  spec_ecotone_formula = 960000000900.
Proof. repeat split; try (vm_compute; reflexivity); vm_compute; discriminate. Qed.

(** C3 (amended): with rollupDataGas = 480, overhead = 0 and l1BaseFee =
    1000e6, [L1Cost] returns 480000 * scalar for every scalar that keeps the
    product within 256 bits, which is never 960900; 960900 is the value of
    (480/16)*(2*16*1000 + 3*10), the Ecotone formula of the fixture's comment,
    which [L1Cost] (the Bedrock formula) does not compute. *)
Theorem C3_L1Cost_480 (s : Z) :
  0 <= s -> ecotoneGas * basefee * s < U.two256 ->
  L1Cost ecotoneGas basefee 0 s = 480000 * s /\
  L1Cost ecotoneGas basefee 0 s <> ecotoneFee /\
  ecotoneFee = fixture_ecotone_formula.
Proof.
  intros Hs Hlt.
  assert (E : L1Cost ecotoneGas basefee 0 s = 480000 * s).
  { rewrite L1Cost_exact.
    - unfold ecotoneGas, basefee. rewrite Z.add_0_r.
      replace (480 * (1000 * 10 ^ 6) * s) with (480000 * s * 1000000) by (cbn; lia).
      apply Z.div_mul. lia.
    - unfold ecotoneGas. lia.
    - unfold basefee. cbn. lia.
    - lia.
    - exact Hs.
    - rewrite Z.add_0_r. exact Hlt. }
  rewrite E. split; [reflexivity|]. split; [|reflexivity].
  unfold ecotoneFee. lia.
Qed.

Lemma C3_L1Cost_480_witness :
  L1Cost ecotoneGas basefee 0 scalar = 480000 * scalar /\
  L1Cost ecotoneGas basefee 0 scalar <> ecotoneFee /\
  ecotoneFee = fixture_ecotone_formula.
Proof.
  apply (C3_L1Cost_480 scalar); vm_compute; [discriminate | reflexivity].
Defined.

End L1.

(** ** Outcomes of Go code *)

(** A Go function either returns or panics. *)
Inductive panic : Set :=
  | PanicInvalid1559Params   (* "invalid eip-1559 params in extradata" *)
  | Panic1559OutOfRange      (* "eip-1559 parameters out of uint32 range" *)
  | PanicDivideByZero        (* integer division by zero *)
  | PanicNilDereference      (* method call on a nil pointer *)
  | PanicIndexOutOfRange     (* slice bounds out of range *)
  | PanicMissingL1CostFunc.  (* "missing L1 cost func in block context, ..." *)

Inductive go (A : Type) : Type :=
  | Ret (a : A)
  | Panic (p : panic).
Arguments Ret {A} a.
Arguments Panic {A} p.

#[global] Instance go_ret : MRet go := fun A a => Ret a.
#[global] Instance go_bind : MBind go := fun A B k m =>
  match m with
  | Ret a => k a
  | Panic p => Panic p
  end.

(** ** Bytes *)

Module Bytes.

Definition byte := Byte.byte.

Definition to_Z (b : byte) : Z := Z.of_N (Byte.to_N b).

Definition of_Z (z : Z) : byte :=
  match Byte.of_N (Z.to_N (z mod 256)) with
  | Some b => b
  | None => Byte.x00
  end.

(** [binary.BigEndian.Uint32] and its relatives on a slice of the right length:
    the big-endian value of the bytes. *)
Definition be_value (bs : list byte) : Z :=
  fold_left (fun acc b => acc * 256 + to_Z b) bs 0.

(** [binary.BigEndian.PutUint32(r, v)]: the four bytes of [v], high first. *)
Definition be_uint32 (v : Z) : list byte :=
  [of_Z (v / 2 ^ 24); of_Z (v / 2 ^ 16); of_Z (v / 2 ^ 8); of_Z v].

#[global] Instance byte_eq_dec : EqDecision Byte.byte := Byte.byte_eq_dec.
#[global] Instance byte_countable : Countable Byte.byte :=
  inj_countable Byte.to_N Byte.of_N Byte.of_to_N.

(** [bytes.Equal]: a nil slice and an empty one are equal. *)
Definition eqb (a b : list byte) : bool := bool_decide (a = b).

Lemma eqb_eq a b : eqb a b = true <-> a = b.
Proof. unfold eqb. rewrite bool_decide_eq_true. reflexivity. Qed.

Lemma eqb_refl a : eqb a a = true.
Proof. apply eqb_eq. reflexivity. Qed.

End Bytes.

(** ** EIP-1559 base fee (consensus/misc/eip1559.go) *)

Module BaseFee.

Import Bytes.

(** [types.Header], the fields [CalcBaseFee] reads.  [BaseFee] is a
    pointer to a [big.Int] and may be nil. *)
Record Header := mkHeader {
  Number : Z;
  GasLimit : Z;
  GasUsed : Z;
  BaseFee : option Z;
  Time : Z;
  Extra : list byte
}.

(** [borcfg.BorConfig], as far as [getBaseFeeChangeDenominator] asks it. *)
Record BorConfig := mkBorConfig { IsDelhi : Z -> bool }.

(** [chain.Config] is declared in erigon-lib/chain, outside the embedded
    files: a configuration is the answers its methods give. *)
Record Config := mkConfig {
  IsOptimismPreBedrock : Z -> bool;
  IsLondon : Z -> bool;
  ElasticityMultiplier : Z -> Z;
  BaseFeeChangeDenominator : Z -> Z -> Z;
  IsOptimism : bool;
  IsHolocene : Z -> bool;
  Bor : option BorConfig
}.

(** Constants of the params package. *)
Module params.
Definition InitialBaseFee : Z := 1000000000.
Definition ElasticityMultiplier : Z := 2.
Definition BaseFeeChangeDenominator : Z := 8.
Definition BaseFeeChangeDenominatorPostDelhi : Z := 16.
End params.

(** [big.Int]'s [Uint64]: the low 64 bits of the absolute value. *)
Definition bigUint64 (x : Z) : Z := U.wrap64 (Z.abs x).

(** [math.BigMax]. *)
Definition BigMax (x y : Z) : Z := if x <? y then y else x.

(** [big.Int]'s [Div] panics on a zero divisor; the divisors below are never
    negative, where Euclidean and floor division agree. *)
Definition bigDiv (x y : Z) : go Z :=
  if y =? 0 then Panic PanicDivideByZero else Ret (x / y).

(** Go's [/] on [uint64]. *)
Definition udiv64 (x y : Z) : go Z :=
  if y =? 0 then Panic PanicDivideByZero else Ret (x / y).

Definition DecodeHolocene1559Params (params : list byte) : Z * Z :=
  if negb (Z.of_nat (length params) =? 8) then (0, 0)
  else
    let denominator := be_value (firstn 4 params) in
    let elasticity := be_value (skipn 4 params) in
    (denominator, elasticity).

Definition DecodeHoloceneExtraData (extra : list byte) : Z * Z :=
  if negb (Z.of_nat (length extra) =? 9) then (0, 0)
  else DecodeHolocene1559Params (skipn 1 extra).

Definition MaxUint32 : Z := 2 ^ 32 - 1.

Definition EncodeHolocene1559Params (denom elasticity : Z) : go (list byte) :=
  if (MaxUint32 <? denom) || (MaxUint32 <? elasticity) then Panic Panic1559OutOfRange
  else Ret (be_uint32 denom ++ be_uint32 elasticity).

Definition EncodeHoloceneExtraData (denom elasticity : Z) : go (list byte) :=
  if (MaxUint32 <? denom) || (MaxUint32 <? elasticity) then Panic Panic1559OutOfRange
  else Ret (Byte.x00 :: be_uint32 denom ++ be_uint32 elasticity).

Inductive validate_error : Set :=
  | ErrParamsLength (n : nat)
  | ErrZeroDenominator
  | ErrExtraLength (n : nat)
  | ErrExtraVersion (v : byte).

Definition ValidateHolocene1559Params (params : list byte) : option validate_error :=
  if negb (Z.of_nat (length params) =? 8) then Some (ErrParamsLength (length params))
  else
    let '(d, e) := DecodeHolocene1559Params params in
    if negb (e =? 0) && (d =? 0) then Some ErrZeroDenominator else None.

Definition ValidateHoloceneExtraData (extra : list byte) : option validate_error :=
  if negb (Z.of_nat (length extra) =? 9) then Some (ErrExtraLength (length extra))
  else
    match extra with
    | v :: rest =>
        if negb (to_Z v =? 0) then Some (ErrExtraVersion v)
        else ValidateHolocene1559Params rest
    | [] => Some (ErrExtraLength 0)
    end.

Definition getBaseFeeChangeDenominator (config : Config) (number time : Z) : Z :=
  match Bor config with
  | Some borConfig =>
      if IsDelhi borConfig number then params.BaseFeeChangeDenominatorPostDelhi
      else BaseFeeChangeDenominator config params.BaseFeeChangeDenominator time
  | None => BaseFeeChangeDenominator config params.BaseFeeChangeDenominator time
  end.

(** [CalcBaseFee] calculates the basefee of the header. *)
Definition CalcBaseFee (config : Config) (parent : Header) (time : Z) : go Z :=
  if IsOptimismPreBedrock config (bigUint64 (Number parent)) then Ret 0
  else if negb (IsLondon config (bigUint64 (Number parent))) then Ret params.InitialBaseFee
  else
    let elasticity := ElasticityMultiplier config params.ElasticityMultiplier in
    let denominator := getBaseFeeChangeDenominator config (bigUint64 (Number parent)) time in
    '(denominator, elasticity) ←
      (if IsOptimism config && IsHolocene config (Time parent) then
         let '(denominator, elasticity) := DecodeHoloceneExtraData (Extra parent) in
         if denominator =? 0 then Panic PanicInvalid1559Params
         else Ret (denominator, elasticity)
       else Ret (denominator, elasticity));
    parentGasTarget ← udiv64 (GasLimit parent) elasticity;
    let parentGasTargetBig := parentGasTarget in
    let baseFeeChangeDenominator := denominator in
    if GasUsed parent =? parentGasTarget then
      match BaseFee parent with
      | Some bf => Ret bf
      | None => Panic PanicNilDereference
      end
    else
      match BaseFee parent with
      | None => Panic PanicNilDereference
      | Some bf =>
          if parentGasTarget <? GasUsed parent then
            (let gasUsedDelta := GasUsed parent - parentGasTarget in
             let x := bf * gasUsedDelta in
             y ← bigDiv x parentGasTargetBig;
             q ← bigDiv y baseFeeChangeDenominator;
             let baseFeeDelta := BigMax q 1 in
             Ret (bf + baseFeeDelta))
          else
            (let gasUsedDelta := parentGasTarget - GasUsed parent in
             let x := bf * gasUsedDelta in
             y ← bigDiv x parentGasTargetBig;
             baseFeeDelta ← bigDiv y baseFeeChangeDenominator;
             Ret (BigMax (bf - baseFeeDelta) 0))
      end.

(** The elasticity in effect for a parent header: the one decoded from the
    parent's extra data on an Optimism chain with Holocene active at the
    parent's time, the configuration's elasticity multiplier otherwise. *)
Definition elasticityInEffect (config : Config) (parent : Header) : Z :=
  if IsOptimism config && IsHolocene config (Time parent)
  then snd (DecodeHoloceneExtraData (Extra parent))
  else ElasticityMultiplier config params.ElasticityMultiplier.

(** The extra data of a Holocene parent carries a usable denominator. *)
Definition holoceneParamsUsable (config : Config) (parent : Header) : Prop :=
  IsOptimism config && IsHolocene config (Time parent) = true ->
  fst (DecodeHoloceneExtraData (Extra parent)) <> 0.

(** The configurations of the test file: [config()] has London at block 5;
    [opConfig()] adds Bedrock at block 0, Canyon at time 10, Holocene at time
    12 and the Optimism parameters (elasticity 6, denominator 50, after Canyon
    250). *)
Definition config : Config := {|
  IsOptimismPreBedrock := fun _ => false;
  IsLondon := fun n => 5 <=? n;
  ElasticityMultiplier := fun d => d;
  BaseFeeChangeDenominator := fun d _ => d;
  IsOptimism := false;
  IsHolocene := fun _ => false;
  Bor := None
|}.

Definition opConfig : Config := {|
  IsOptimismPreBedrock := fun n => n <? 0;
  IsLondon := fun n => 5 <=? n;
  ElasticityMultiplier := fun _ => 6;
  BaseFeeChangeDenominator := fun _ t => if 10 <=? t then 250 else 50;
  IsOptimism := true;
  IsHolocene := fun t => 12 <=? t;
  Bor := None
|}.

Definition holoceneExtra (denom elasticity : Z) : list byte :=
  match EncodeHoloceneExtraData denom elasticity with
  | Ret bs => bs
  | Panic _ => []
  end.

(** TestCalcBaseFee. *)
Example TestCalcBaseFee :
  map (fun '(bf, limit, used) => CalcBaseFee config (mkHeader 32 limit used (Some bf) 0 []) 0)
      [(params.InitialBaseFee, 20000000, 10000000);
       (params.InitialBaseFee, 20000000, 9000000);
       (params.InitialBaseFee, 20000000, 11000000)]
  = [Ret params.InitialBaseFee; Ret 987500000; Ret 1012500000].
Proof. vm_compute. reflexivity. Qed.

(** TestCalcBaseFeeOptimism, before and after Canyon. *)
Example TestCalcBaseFeeOptimism :
  map (fun '(used, t) =>
         CalcBaseFee opConfig (mkHeader 32 30000000 used (Some params.InitialBaseFee) t []) (t + 2))
      [(5000000, 6); (4000000, 6); (10000000, 6); (5000000, 8); (4000000, 8); (10000000, 8);
       (5000000, 10); (4000000, 10); (10000000, 10)]
  = [Ret params.InitialBaseFee; Ret 996000000; Ret 1020000000;
     Ret params.InitialBaseFee; Ret 999200000; Ret 1004000000;
     Ret params.InitialBaseFee; Ret 999200000; Ret 1004000000].
Proof. vm_compute. reflexivity. Qed.

(** TestCalcBaseFeeOptimismHolocene. *)
Example TestCalcBaseFeeOptimismHolocene :
  map (fun '(used, denom, elasticity) =>
         CalcBaseFee opConfig
           (mkHeader 32 30000000 used (Some 10000000) 12 (holoceneExtra denom elasticity)) 14)
      [(15000000, 10, 2); (10000000, 10, 2); (20000000, 10, 2);
       (3000000, 2, 10); (1000000, 2, 10); (30000000, 2, 10)]
  = [Ret 10000000; Ret 9666667; Ret 10333333; Ret 10000000; Ret 6666667; Ret 55000000].
Proof. vm_compute. reflexivity. Qed.

(** The test's Holocene parent at its target of half the gas limit. *)
Definition holoceneParentAtTarget : Header :=
  mkHeader 32 30000000 15000000 (Some 10000000) 12 (holoceneExtra 10 2).

Lemma CalcBaseFee_post_london config parent time :
  IsOptimismPreBedrock config (bigUint64 (Number parent)) = false ->
  IsLondon config (bigUint64 (Number parent)) = true ->
  holoceneParamsUsable config parent ->
  elasticityInEffect config parent <> 0 ->
  exists denominator,
    CalcBaseFee config parent time =
      (let parentGasTarget := GasLimit parent / elasticityInEffect config parent in
       if GasUsed parent =? parentGasTarget then
         match BaseFee parent with
         | Some bf => Ret bf
         | None => Panic PanicNilDereference
         end
       else
         match BaseFee parent with
         | None => Panic PanicNilDereference
         | Some bf =>
             if parentGasTarget <? GasUsed parent then
               y ← bigDiv (bf * (GasUsed parent - parentGasTarget)) parentGasTarget;
               q ← bigDiv y denominator;
               Ret (bf + BigMax q 1)
             else
               y ← bigDiv (bf * (parentGasTarget - GasUsed parent)) parentGasTarget;
               baseFeeDelta ← bigDiv y denominator;
               Ret (BigMax (bf - baseFeeDelta) 0)
         end).
Proof.
  intros Hpre Hlon Huse Hel. unfold CalcBaseFee, elasticityInEffect, holoceneParamsUsable in *.
  rewrite Hpre, Hlon. cbn [negb].
  destruct (IsOptimism config && IsHolocene config (Time parent)) eqn:Hh.
  - destruct (DecodeHoloceneExtraData (Extra parent)) as [d e] eqn:Hd.
    cbn [fst snd] in *. specialize (Huse eq_refl).
    apply Z.eqb_neq in Huse. rewrite Huse. exists d.
    cbn. unfold udiv64. apply Z.eqb_neq in Hel. rewrite Hel. cbn. reflexivity.
  - eexists. cbn. unfold udiv64. apply Z.eqb_neq in Hel. rewrite Hel. cbn. reflexivity.
Qed.

(** C9: for every chain configuration and parent header for which a base
    fee is defined (post-London and not Optimism pre-Bedrock, the base fee
    set, and under Holocene on an Optimism chain a non-zero denominator in
    the parent's extra data): if the parent's gasUsed equals its gas target,
    the gas limit divided by the elasticity multiplier in effect (the one of
    the parent's extra data under Holocene, the configuration's otherwise,
    and not zero), then [CalcBaseFee] returns the parent's base fee. *)
Theorem C9_CalcBaseFee_at_target config parent time bf :
  IsOptimismPreBedrock config (bigUint64 (Number parent)) = false ->
  IsLondon config (bigUint64 (Number parent)) = true ->
  BaseFee parent = Some bf ->
  holoceneParamsUsable config parent ->
  elasticityInEffect config parent <> 0 ->
  GasUsed parent = GasLimit parent / elasticityInEffect config parent ->
  CalcBaseFee config parent time = Ret bf.
Proof.
  intros Hpre Hlon Hbf Huse Hel Hused.
  destruct (CalcBaseFee_post_london config parent time Hpre Hlon Huse Hel) as [d ->].
  cbv zeta. rewrite <- Hused, Z.eqb_refl, Hbf. reflexivity.
Qed.

Lemma C9_CalcBaseFee_at_target_witness :
  CalcBaseFee opConfig holoceneParentAtTarget 14 = Ret 10000000.
Proof.
  apply (C9_CalcBaseFee_at_target opConfig holoceneParentAtTarget 14 10000000);
    try reflexivity.
  - intros _. vm_compute. discriminate.
  - vm_compute. discriminate.
Defined.

End BaseFee.

(** ** Transaction decoding (erigon-lib/types/txn.go) *)

Module TxParse.

Import Bytes.

(** *** The RLP reader

    Package erigon-lib/rlp is outside the embedded files.  Its functions take
    the payload and a position and return positions, lengths and an error; a
    reader is the collection of these functions.  [U256] leaves its target
    untouched when it fails. *)

Module rlp.

Inductive error : Set := Error (code : Z).

Record Reader := mkReader {
  (* rlp.Prefix: dataPos, dataLen, isList *)
  Prefix : list byte -> Z -> (Z * Z * bool) + error;
  (* rlp.List: dataPos, dataLen *)
  List : list byte -> Z -> (Z * Z) + error;
  (* rlp.String: dataPos, dataLen *)
  String : list byte -> Z -> (Z * Z) + error;
  (* rlp.SkipString: the position after the string, its length *)
  SkipString : list byte -> Z -> (Z * Z) + error;
  (* rlp.U256: the position after the number, the number *)
  U256 : list byte -> Z -> (Z * Z) + error;
  (* rlp.U64: all three results, as Go assigns them *)
  U64 : list byte -> Z -> Z * Z * option error
}.

End rlp.

Record Signature := mkSignature {
  ChainID : Z;
  V : Z;
  R : Z;
  S : Z
}.

Definition LegacyTxType : Z := 0.
Definition AccessListTxType : Z := 1.
Definition DynamicFeeTxType : Z := 2.
Definition BlobTxType : Z := 3.
Definition SetCodeTxType : Z := 4.
Definition DepositTxType : Z := 126. (* 0x7e *)

(** The errors of [parseSignature], one per [fmt.Errorf]. *)
Inductive sig_error : Set :=
  | SigErrV (e : rlp.error)              (* "v: %w" *)
  | SigErrEip155 (v : Z)                 (* "EIP-155 implies V>=35 (was %d)" *)
  | SigErrInvalidChainID (got want : Z)  (* "invalid chainID %s (expected %s)" *)
  | SigErrVTooBig (v : Z)                (* "v is too big: %s" *)
  | SigErrR (e : rlp.error)              (* "r: %w" *)
  | SigErrS (e : rlp.error).             (* "s: %w" *)

(** What [parseSignature] leaves behind: the signature it wrote through
    [sig], and either [(p, yParity)] or the error ([p] and [yParity] are 0
    then). *)
Definition sig_result : Type := Signature * ((Z * Z) + sig_error).

(** [byte(x)] of a [uint64]. *)
Definition toByte (x : Z) : Z := x mod 256.

Definition setChainID (sig : Signature) (c : Z) : Signature :=
  mkSignature c (V sig) (R sig) (S sig).
Definition setV (sig : Signature) (v : Z) : Signature :=
  mkSignature (ChainID sig) v (R sig) (S sig).
Definition setR (sig : Signature) (r : Z) : Signature :=
  mkSignature (ChainID sig) (V sig) r (S sig).
Definition setS (sig : Signature) (s : Z) : Signature :=
  mkSignature (ChainID sig) (V sig) (R sig) s.

(** [parseSignature].  [cfgChainId] is a pointer: the authorization list
    passes nil, and dereferencing it panics. *)
Definition parseSignature (rd : rlp.Reader) (payload : list byte) (pos : Z) (legacy : bool)
    (cfgChainId : option Z) (sig : Signature) : go sig_result :=
  let p := pos in
  (* Parse V / yParity *)
  match rlp.U256 rd payload p with
  | inr err => Ret (sig, inr (SigErrV err))
  | inl (p, v) =>
      let sig := setV sig v in
      r ← (if legacy then
             let preEip155 := (V sig =? 27) || (V sig =? 28) in
             (* Compute chainId from V *)
             if preEip155 then
               let yParity := toByte (U.wrap64 (U.wrap64 (V sig) - 27)) in
               match cfgChainId with
               | None => Panic PanicNilDereference
               | Some c => Ret (setChainID sig c, inl yParity)
               end
             else
               (* EIP-155: V = ChainID * 2 + 35 + yParity *)
               if V sig <? 35 then Ret (sig, inr (SigErrEip155 (U.wrap64 (V sig))))
               else
                 let sig := setChainID sig (U.sub (V sig) 35) in
                 let yParity := toByte (U.wrap64 (ChainID sig) mod 2) in
                 let sig := setChainID sig (Z.shiftr (ChainID sig) 1) in
                 match cfgChainId with
                 | None => Panic PanicNilDereference
                 | Some c =>
                     if negb (ChainID sig =? c)
                     then Ret (sig, inr (SigErrInvalidChainID (ChainID sig) c))
                     else Ret (sig, inl yParity)
                 end
           else
             if negb (V sig <? 2 ^ 8) then Ret (sig, inr (SigErrVTooBig (V sig)))
             else Ret (sig, inl (toByte (U.wrap64 (V sig)))));
      match r with
      | (sig, inr e) => Ret (sig, inr e)
      | (sig, inl yParity) =>
          (* Next follows R of the signature *)
          match rlp.U256 rd payload p with
          | inr err => Ret (sig, inr (SigErrR err))
          | inl (p, r) =>
              let sig := setR sig r in
              (* New follows S of the signature *)
              match rlp.U256 rd payload p with
              | inr err => Ret (sig, inr (SigErrS err))
              | inl (p, s) =>
                  let sig := setS sig s in
                  Ret (sig, inl (p, yParity))
              end
          end
      end
  end.

(** The end of [parseSignature], from "Next follows R of the signature" on. *)
Definition parseRS (rd : rlp.Reader) (payload : list byte) (p : Z)
    (sig : Signature) (yParity : Z) : go sig_result :=
  match rlp.U256 rd payload p with
  | inr err => Ret (sig, inr (SigErrR err))
  | inl (p, r) =>
      let sig := setR sig r in
      match rlp.U256 rd payload p with
      | inr err => Ret (sig, inr (SigErrS err))
      | inl (p, s) => Ret (setS sig s, inl (p, yParity))
      end
  end.

(** Whether a run of [parseSignature] ended in an error. *)
Definition failed (r : go sig_result) : Prop :=
  exists sig e, r = Ret (sig, inr e).

(** A reader for the witnesses: short and long strings and lists of RLP, with
    the bounds checked.  The theorems hold for every reader. *)
Module Ref.

Definition nth_byte (payload : list byte) (pos : Z) : option Z :=
  if pos <? 0 then None else to_Z <$> (payload !! Z.to_nat pos).

Definition slice (payload : list byte) (a b : Z) : list byte :=
  firstn (Z.to_nat (b - a)) (skipn (Z.to_nat a) payload).

Definition checked (payload : list byte) (dataPos dataLen : Z) : (Z * Z) + rlp.error :=
  if dataPos + dataLen <=? Z.of_nat (length payload) then inl (dataPos, dataLen)
  else inr (rlp.Error 2).

Definition readPrefix (payload : list byte) (pos : Z) : (Z * Z * bool) + rlp.error :=
  match nth_byte payload pos with
  | None => inr (rlp.Error 1)
  | Some b =>
      let r :=
        if b <? 128 then inl (pos, 1, false)
        else if b <? 184 then inl (pos + 1, b - 128, false)
        else if b <? 192 then
          inl (pos + 1 + (b - 183), be_value (slice payload (pos + 1) (pos + 1 + (b - 183))), false)
        else if b <? 248 then inl (pos + 1, b - 192, true)
        else inl (pos + 1 + (b - 247), be_value (slice payload (pos + 1) (pos + 1 + (b - 247))), true) in
      match r with
      | inl (dp, dl, isList) =>
          match checked payload dp dl with
          | inl _ => inl (dp, dl, isList)
          | inr e => inr e
          end
      | inr e => inr e
      end
  end.

Definition readList (payload : list byte) (pos : Z) : (Z * Z) + rlp.error :=
  match readPrefix payload pos with
  | inl (dp, dl, true) => inl (dp, dl)
  | inl (_, _, false) => inr (rlp.Error 3)
  | inr e => inr e
  end.

Definition readString (payload : list byte) (pos : Z) : (Z * Z) + rlp.error :=
  match readPrefix payload pos with
  | inl (dp, dl, false) => inl (dp, dl)
  | inl (_, _, true) => inr (rlp.Error 4)
  | inr e => inr e
  end.

Definition readSkipString (payload : list byte) (pos : Z) : (Z * Z) + rlp.error :=
  match readString payload pos with
  | inl (dp, dl) => inl (dp + dl, dl)
  | inr e => inr e
  end.

Definition readNumber (maxLen : Z) (payload : list byte) (pos : Z) : (Z * Z) + rlp.error :=
  match readString payload pos with
  | inl (dp, dl) =>
      if maxLen <? dl then inr (rlp.Error 5)
      else if (0 <? dl) && (be_value (slice payload dp (dp + 1)) =? 0) then inr (rlp.Error 6)
      else inl (dp + dl, be_value (slice payload dp (dp + dl)))
  | inr e => inr e
  end.

Definition readU64 (payload : list byte) (pos : Z) : Z * Z * option rlp.error :=
  match readNumber 8 payload pos with
  | inl (p, v) => (p, v, None)
  | inr e => (0, 0, Some e)
  end.

Definition reader : rlp.Reader :=
  rlp.mkReader readPrefix readList readString readSkipString (readNumber 32) readU64.

End Ref.

(** A legacy signature with v = 2 * 10 + 35 + 1 on chain 10: the bytes of
    v = 56, r = 5 and s = 7. *)
Definition sigPayload56 : list byte := [Byte.x38; Byte.x05; Byte.x07].

Example parseSignature_v56 :
  parseSignature Ref.reader sigPayload56 0 true (Some 10) (mkSignature 0 0 0 0)
  = Ret (mkSignature 10 56 5 7, inl (3, 1)).
Proof. vm_compute. reflexivity. Qed.

Example parseSignature_v56_other_chain :
  parseSignature Ref.reader sigPayload56 0 true (Some 1) (mkSignature 0 0 0 0)
  = Ret (mkSignature 10 56 0 0, inr (SigErrInvalidChainID 10 1)).
Proof. vm_compute. reflexivity. Qed.

Example parseSignature_v27 :
  parseSignature Ref.reader [Byte.x1b; Byte.x05; Byte.x07] 0 true (Some 10) (mkSignature 0 0 0 0)
  = Ret (mkSignature 10 27 5 7, inl (3, 0)).
Proof. vm_compute. reflexivity. Qed.

Example parseSignature_v30 :
  parseSignature Ref.reader [Byte.x1e; Byte.x05; Byte.x07] 0 true (Some 10) (mkSignature 0 0 0 0)
  = Ret (mkSignature 0 30 0 0, inr (SigErrEip155 30)).
Proof. vm_compute. reflexivity. Qed.

(** The chain ID and the parity an EIP-155 [v] encodes. *)
Definition eip155ChainID (v : Z) : Z := (v - 35) / 2.
Definition eip155Parity (v : Z) : Z := (v - 35) mod 2.

Lemma eip155_decode v : v = eip155ChainID v * 2 + 35 + eip155Parity v.
Proof.
  unfold eip155ChainID, eip155Parity.
  pose proof (Z.div_mod (v - 35) 2 ltac:(lia)). lia.
Qed.

Lemma eip155Parity_bit v : eip155Parity v = 0 \/ eip155Parity v = 1.
Proof.
  unfold eip155Parity. pose proof (Z.mod_pos_bound (v - 35) 2 ltac:(lia)). lia.
Qed.

Lemma wrap64_mod2 x : U.wrap64 x mod 2 = x mod 2.
Proof.
  unfold U.wrap64, U.two64. apply Z.mod_mod_divide.
  exists (2 ^ 63). reflexivity.
Qed.

Lemma toByte_bit x : toByte (x mod 2) = x mod 2.
Proof.
  unfold toByte. pose proof (Z.mod_pos_bound x 2 ltac:(lia)).
  apply Z.mod_small. lia.
Qed.

(** The V stage of a legacy signature, whatever R and S turn out to be. *)
Lemma parseSignature_legacy_V rd payload pos cfg sig p v :
  rlp.U256 rd payload pos = inl (p, v) -> U.is_u256 v ->
  parseSignature rd payload pos true (Some cfg) sig =
    if (v =? 27) || (v =? 28) then
      parseRS rd payload p (mkSignature cfg v (R sig) (S sig)) (v - 27)
    else if v <? 35 then Ret (setV sig v, inr (SigErrEip155 v))
    else if eip155ChainID v =? cfg then
      parseRS rd payload p (mkSignature cfg v (R sig) (S sig)) (eip155Parity v)
    else Ret (mkSignature (eip155ChainID v) v (R sig) (S sig),
              inr (SigErrInvalidChainID (eip155ChainID v) cfg)).
Proof.
  intros HV [Hv0 Hv1]. unfold parseSignature. rewrite HV. cbn [V setV].
  destruct ((v =? 27) || (v =? 28)) eqn:Hpre.
  - assert (Hy : toByte (U.wrap64 (U.wrap64 v - 27)) = v - 27).
    { apply orb_true_iff in Hpre. destruct Hpre as [H|H]; apply Z.eqb_eq in H; subst v;
        reflexivity. }
    rewrite Hy. cbn. unfold parseRS.
    destruct (rlp.U256 rd payload p) as [[p1 r]|e]; [|reflexivity].
    destruct (rlp.U256 rd payload p1) as [[p2 s0]|e]; reflexivity.
  - destruct (v <? 35) eqn:H35.
    + apply Z.ltb_lt in H35. cbn. rewrite U.wrap64_small by (unfold U.two64; lia).
      reflexivity.
    + apply Z.ltb_ge in H35. cbn [setChainID ChainID V R S].
      assert (Hsub : U.sub v 35 = v - 35).
      { unfold U.sub. apply U.wrap256_small. lia. }
      rewrite Hsub, wrap64_mod2, toByte_bit, Z.shiftr_div_pow2 by lia.
      change (2 ^ 1) with 2. fold (eip155ChainID v). fold (eip155Parity v).
      destruct (eip155ChainID v =? cfg) eqn:Hc.
      * apply Z.eqb_eq in Hc. cbn. rewrite Hc. unfold parseRS.
        destruct (rlp.U256 rd payload p) as [[p1 r]|e]; [|reflexivity].
        destruct (rlp.U256 rd payload p1) as [[p2 s0]|e]; reflexivity.
      * cbn. reflexivity.
Qed.

(** C7: parsing a legacy signature whose three fields decode as [v], [r] and
    [s].  If [v] is 27 or 28 the signature is pre-EIP-155: the configured
    chain ID is taken and nothing is checked.  Otherwise [v] must be at least
    35, it encodes chainID * 2 + 35 + yParity, and parsing fails exactly when
    the chain ID decoded from [v] differs from the configured one. *)
Theorem C7_parseSignature_legacy rd payload pos cfg sig p v p1 r p2 s :
  rlp.U256 rd payload pos = inl (p, v) -> U.is_u256 v ->
  rlp.U256 rd payload p = inl (p1, r) ->
  rlp.U256 rd payload p1 = inl (p2, s) ->
  (v = 27 \/ v = 28 ->
     parseSignature rd payload pos true (Some cfg) sig
     = Ret (mkSignature cfg v r s, inl (p2, v - 27))) /\
  (v <> 27 -> v <> 28 -> v < 35 ->
     parseSignature rd payload pos true (Some cfg) sig
     = Ret (setV sig v, inr (SigErrEip155 v))) /\
  (v <> 27 -> v <> 28 -> 35 <= v ->
     v = eip155ChainID v * 2 + 35 + eip155Parity v /\
     (eip155Parity v = 0 \/ eip155Parity v = 1) /\
     (failed (parseSignature rd payload pos true (Some cfg) sig) <-> eip155ChainID v <> cfg) /\
     (eip155ChainID v <> cfg ->
        parseSignature rd payload pos true (Some cfg) sig
        = Ret (mkSignature (eip155ChainID v) v (R sig) (S sig),
               inr (SigErrInvalidChainID (eip155ChainID v) cfg))) /\
     (eip155ChainID v = cfg ->
        parseSignature rd payload pos true (Some cfg) sig
        = Ret (mkSignature cfg v r s, inl (p2, eip155Parity v)))).
Proof.
  intros HV Hv HR HS.
  rewrite (parseSignature_legacy_V rd payload pos cfg sig p v HV Hv).
  unfold parseRS. rewrite HR, HS. cbn [setR setS ChainID V R S].
  split; [|split].
  - intros Hpre.
    assert (E : (v =? 27) || (v =? 28) = true).
    { apply orb_true_iff. destruct Hpre; [left|right]; apply Z.eqb_eq; assumption. }
    rewrite E. reflexivity.
  - intros H27 H28 Hlt.
    apply Z.eqb_neq in H27, H28. rewrite H27, H28. cbn [orb].
    apply Z.ltb_lt in Hlt. rewrite Hlt. reflexivity.
  - intros H27 H28 Hge.
    apply Z.eqb_neq in H27, H28. rewrite H27, H28. cbn [orb].
    apply Z.ltb_ge in Hge. rewrite Hge.
    split; [apply eip155_decode|]. split; [apply eip155Parity_bit|].
    destruct (eip155ChainID v =? cfg) eqn:Hc.
    + apply Z.eqb_eq in Hc. split; [|split].
      * split.
        -- intros (sig' & e & Hf). discriminate Hf.
        -- intros Hne. contradiction.
      * intros Hne. contradiction.
      * intros _. reflexivity.
    + apply Z.eqb_neq in Hc. split; [|split].
      * split.
        -- intros _. exact Hc.
        -- intros _. eexists _, _. reflexivity.
      * intros _. reflexivity.
      * intros He. contradiction.
Qed.

Lemma C7_parseSignature_legacy_witness :
  (56 = 27 \/ 56 = 28 ->
     parseSignature Ref.reader sigPayload56 0 true (Some 10) (mkSignature 0 0 0 0)
     = Ret (mkSignature 10 56 5 7, inl (3, 56 - 27))) /\
  (56 <> 27 -> 56 <> 28 -> 56 < 35 ->
     parseSignature Ref.reader sigPayload56 0 true (Some 10) (mkSignature 0 0 0 0)
     = Ret (setV (mkSignature 0 0 0 0) 56, inr (SigErrEip155 56))) /\
  (56 <> 27 -> 56 <> 28 -> 35 <= 56 ->
     56 = eip155ChainID 56 * 2 + 35 + eip155Parity 56 /\
     (eip155Parity 56 = 0 \/ eip155Parity 56 = 1) /\
     (failed (parseSignature Ref.reader sigPayload56 0 true (Some 10) (mkSignature 0 0 0 0))
        <-> eip155ChainID 56 <> 10) /\
     (eip155ChainID 56 <> 10 ->
        parseSignature Ref.reader sigPayload56 0 true (Some 10) (mkSignature 0 0 0 0)
        = Ret (mkSignature (eip155ChainID 56) 56 0 0,
               inr (SigErrInvalidChainID (eip155ChainID 56) 10))) /\
     (eip155ChainID 56 = 10 ->
        parseSignature Ref.reader sigPayload56 0 true (Some 10) (mkSignature 0 0 0 0)
        = Ret (mkSignature 10 56 5 7, inl (3, eip155Parity 56)))).
Proof.
  apply (C7_parseSignature_legacy Ref.reader sigPayload56 0 10 (mkSignature 0 0 0 0)
           1 56 2 5 3 7); try reflexivity.
  unfold U.is_u256, U.two256. lia.
Defined.

End TxParse.

(** *** [ParseTransaction] and [parseTransactionBody] *)

Module ParseTx.

Import Bytes TxParse.

Record RollupCostData := mkRollupCostData {
  Zeroes : Z;
  Ones : Z;
  FastLzSize : Z
}.

(** [RollupCostData{}]. *)
Definition zeroRollupCostData : RollupCostData := mkRollupCostData 0 0 0.

(** [TxSlot]; [Type_] is the field [Type]. *)
Record TxSlot := mkTxSlot {
  Rlp : list byte;
  Value : Z;
  Tip : Z;
  FeeCap : Z;
  SenderID : Z;
  Nonce : Z;
  DataLen : Z;
  DataNonZeroLen : Z;
  AlAddrCount : Z;
  AlStorCount : Z;
  Gas : Z;
  IDHash : list byte;
  Traced : bool;
  Creation : bool;
  Type_ : Z;
  Size : Z;
  BlobFeeCap : Z;
  BlobHashes : list (list byte);
  Blobs : list (list byte);
  Commitments : list (list byte);
  Proofs : list (list byte);
  Authorizations : list Signature;
  RollupCostData_ : RollupCostData
}.

Definition setRlp (slot : TxSlot) (x : list byte) : TxSlot :=
  mkTxSlot x (Value slot) (Tip slot) (FeeCap slot) (SenderID slot) (Nonce slot) (DataLen slot) (DataNonZeroLen slot) (AlAddrCount slot) (AlStorCount slot) (Gas slot) (IDHash slot) (Traced slot) (Creation slot) (Type_ slot) (Size slot) (BlobFeeCap slot) (BlobHashes slot) (Blobs slot) (Commitments slot) (Proofs slot) (Authorizations slot) (RollupCostData_ slot).

Definition setValue (slot : TxSlot) (x : Z) : TxSlot :=
  mkTxSlot (Rlp slot) x (Tip slot) (FeeCap slot) (SenderID slot) (Nonce slot) (DataLen slot) (DataNonZeroLen slot) (AlAddrCount slot) (AlStorCount slot) (Gas slot) (IDHash slot) (Traced slot) (Creation slot) (Type_ slot) (Size slot) (BlobFeeCap slot) (BlobHashes slot) (Blobs slot) (Commitments slot) (Proofs slot) (Authorizations slot) (RollupCostData_ slot).

Definition setDataLen (slot : TxSlot) (x : Z) : TxSlot :=
  mkTxSlot (Rlp slot) (Value slot) (Tip slot) (FeeCap slot) (SenderID slot) (Nonce slot) x (DataNonZeroLen slot) (AlAddrCount slot) (AlStorCount slot) (Gas slot) (IDHash slot) (Traced slot) (Creation slot) (Type_ slot) (Size slot) (BlobFeeCap slot) (BlobHashes slot) (Blobs slot) (Commitments slot) (Proofs slot) (Authorizations slot) (RollupCostData_ slot).

Definition setDataNonZeroLen (slot : TxSlot) (x : Z) : TxSlot :=
  mkTxSlot (Rlp slot) (Value slot) (Tip slot) (FeeCap slot) (SenderID slot) (Nonce slot) (DataLen slot) x (AlAddrCount slot) (AlStorCount slot) (Gas slot) (IDHash slot) (Traced slot) (Creation slot) (Type_ slot) (Size slot) (BlobFeeCap slot) (BlobHashes slot) (Blobs slot) (Commitments slot) (Proofs slot) (Authorizations slot) (RollupCostData_ slot).

Definition setGas (slot : TxSlot) (x : Z) : TxSlot :=
  mkTxSlot (Rlp slot) (Value slot) (Tip slot) (FeeCap slot) (SenderID slot) (Nonce slot) (DataLen slot) (DataNonZeroLen slot) (AlAddrCount slot) (AlStorCount slot) x (IDHash slot) (Traced slot) (Creation slot) (Type_ slot) (Size slot) (BlobFeeCap slot) (BlobHashes slot) (Blobs slot) (Commitments slot) (Proofs slot) (Authorizations slot) (RollupCostData_ slot).

Definition setIDHash (slot : TxSlot) (x : list byte) : TxSlot :=
  mkTxSlot (Rlp slot) (Value slot) (Tip slot) (FeeCap slot) (SenderID slot) (Nonce slot) (DataLen slot) (DataNonZeroLen slot) (AlAddrCount slot) (AlStorCount slot) (Gas slot) x (Traced slot) (Creation slot) (Type_ slot) (Size slot) (BlobFeeCap slot) (BlobHashes slot) (Blobs slot) (Commitments slot) (Proofs slot) (Authorizations slot) (RollupCostData_ slot).

Definition setCreation (slot : TxSlot) (x : bool) : TxSlot :=
  mkTxSlot (Rlp slot) (Value slot) (Tip slot) (FeeCap slot) (SenderID slot) (Nonce slot) (DataLen slot) (DataNonZeroLen slot) (AlAddrCount slot) (AlStorCount slot) (Gas slot) (IDHash slot) (Traced slot) x (Type_ slot) (Size slot) (BlobFeeCap slot) (BlobHashes slot) (Blobs slot) (Commitments slot) (Proofs slot) (Authorizations slot) (RollupCostData_ slot).

Definition setType (slot : TxSlot) (x : Z) : TxSlot :=
  mkTxSlot (Rlp slot) (Value slot) (Tip slot) (FeeCap slot) (SenderID slot) (Nonce slot) (DataLen slot) (DataNonZeroLen slot) (AlAddrCount slot) (AlStorCount slot) (Gas slot) (IDHash slot) (Traced slot) (Creation slot) x (Size slot) (BlobFeeCap slot) (BlobHashes slot) (Blobs slot) (Commitments slot) (Proofs slot) (Authorizations slot) (RollupCostData_ slot).

Definition setSize (slot : TxSlot) (x : Z) : TxSlot :=
  mkTxSlot (Rlp slot) (Value slot) (Tip slot) (FeeCap slot) (SenderID slot) (Nonce slot) (DataLen slot) (DataNonZeroLen slot) (AlAddrCount slot) (AlStorCount slot) (Gas slot) (IDHash slot) (Traced slot) (Creation slot) (Type_ slot) x (BlobFeeCap slot) (BlobHashes slot) (Blobs slot) (Commitments slot) (Proofs slot) (Authorizations slot) (RollupCostData_ slot).

Definition setRollupCostData (slot : TxSlot) (x : RollupCostData) : TxSlot :=
  mkTxSlot (Rlp slot) (Value slot) (Tip slot) (FeeCap slot) (SenderID slot) (Nonce slot) (DataLen slot) (DataNonZeroLen slot) (AlAddrCount slot) (AlStorCount slot) (Gas slot) (IDHash slot) (Traced slot) (Creation slot) (Type_ slot) (Size slot) (BlobFeeCap slot) (BlobHashes slot) (Blobs slot) (Commitments slot) (Proofs slot) (Authorizations slot) x.

(** A [hash.Hash] that is also an [io.Reader] (legacy Keccak-256): what was
    written since the last [Reset], and whether it has been read from. *)
Record Keccak := mkKeccak {
  absorbed : list byte;
  squeezing : bool
}.

Definition Keccak_Reset : Keccak := mkKeccak [] false.
Definition Keccak_Write (h : Keccak) (bs : list byte) : Keccak :=
  mkKeccak (absorbed h ++ bs) (squeezing h).

(** [TxParseContext]; [sig] is the embedded [Signature].  The callbacks
    [validateRlp] and [validateHash] return an error code or nothing. *)
Record TxParseContext := mkTxParseContext {
  sig : Signature;
  Keccak2 : Keccak;
  Keccak1 : Keccak;
  validateRlp : option (list byte -> option Z);
  cfg : Z;
  buf : list byte;
  Sig : list byte;
  Sighash : list byte;
  withSender : bool;
  allowPreEip2s : bool;
  chainIDRequired : bool
}.

Definition setKeccak2 (ctx : TxParseContext) (x : Keccak) : TxParseContext :=
  mkTxParseContext (sig ctx) x (Keccak1 ctx) (validateRlp ctx) (cfg ctx) (buf ctx) (Sig ctx) (Sighash ctx) (withSender ctx) (allowPreEip2s ctx) (chainIDRequired ctx).

Definition setKeccak1 (ctx : TxParseContext) (x : Keccak) : TxParseContext :=
  mkTxParseContext (sig ctx) (Keccak2 ctx) x (validateRlp ctx) (cfg ctx) (buf ctx) (Sig ctx) (Sighash ctx) (withSender ctx) (allowPreEip2s ctx) (chainIDRequired ctx).

Inductive parse_error : Set :=
  | ErrEmptyRlp                          (* "empty rlp" *)
  | ErrSenderBuffer                      (* "expect sender buffer of len 20" *)
  | ErrSizePrefix (e : rlp.error)        (* "size Prefix: %s" *)
  | ErrNotListOrString                   (* "transaction must be either 1 list or 1 string" *)
  | ErrExpectedEnvelope (got : list byte) (* "expected envelope in the payload, got %x" *)
  | ErrUnknownTxType (t : Z)             (* "unknown transaction type: %d" *)
  | ErrUnexpectedEnd                     (* "unexpected end of payload after txType" *)
  | ErrEnvelopePrefix (e : rlp.error)    (* "envelope Prefix: %s" *)
  | ErrWrappedBlobTx (e : rlp.error)     (* "wrapped blob tx: %s" *)
  | ErrDepositSourceHash (e : rlp.error) (* "depostTx sourchHash: %s" *)
  | ErrDepositFrom (e : rlp.error)       (* "depostTx from: %s" *)
  | ErrDepositTo (e : rlp.error)         (* "depostTx to: %s" *)
  | ErrDepositMint (e : rlp.error)       (* "depostTx mint: %s" *)
  | ErrDepositValue (e : rlp.error)      (* "depostTx value: %s" *)
  | ErrDepositGas (e : rlp.error)        (* "depositTx gas: %s" *)
  | ErrDepositIsSystemTx (e : rlp.error) (* "depositTx isSystemTx: %s" *)
  | ErrDepositDataLen (e : rlp.error)    (* "depositTx data len: %s" *)
  | ErrCallback (code : Z)               (* what validateRlp or validateHash returned *)
  | ErrOther (code : Z).                 (* an error of the signed kinds *)

(** What a call leaves behind: the results [p] and [err], and the objects it
    wrote through its pointers. *)
Record outcome := mkOutcome {
  out_p : Z;
  out_err : option parse_error;
  out_slot : TxSlot;
  out_ctx : TxParseContext;
  out_sender : list byte
}.

(** [len(s)]. *)
Definition len (s : list byte) : Z := Z.of_nat (length s).

(** The bytes of [payload] from position [a] up to [b]. *)
Definition subslice (payload : list byte) (a b : Z) : list byte :=
  firstn (Z.to_nat (b - a)) (skipn (Z.to_nat a) payload).

(** [payload[a:b]]: panics unless [0 <= a <= b <= len(payload)]. *)
Definition goSlice (payload : list byte) (a b : Z) : go (list byte) :=
  if (0 <=? a) && (a <=? b) && (b <=? len payload)
  then Ret (subslice payload a b)
  else Panic PanicIndexOutOfRange.

(** [payload[i]]. *)
Definition goIndex (payload : list byte) (i : Z) : go byte :=
  if i <? 0 then Panic PanicIndexOutOfRange
  else match payload !! Z.to_nat i with
       | Some b => Ret b
       | None => Panic PanicIndexOutOfRange
       end.

(** [copy(dst, src)]: the first [min(len(dst), len(src))] bytes of [dst] are
    overwritten. *)
Definition goCopy (dst src : list byte) : list byte :=
  let n := Nat.min (length dst) (length src) in
  firstn n src ++ skipn n dst.

(** The number of non-zero bytes, as the loop over the data counts them. *)
Definition countNonZero (bs : list byte) : Z :=
  fold_left (fun n byt => if negb (to_Z byt =? 0) then n + 1 else n) bs 0.

Section Parse.

(** The RLP reader and Keccak-256 (the 32 bytes read from a sponge that
    absorbed the given bytes). *)
Variable rd : rlp.Reader.
Variable keccak256 : list byte -> list byte.

(** The rest of [parseTransactionBody] after the deposit branch has returned,
    from "Remember where signing hash data begins" to the end: the fields of
    the signed kinds, [parseSignature], [TransactionSignatureIsValid] and
    [RecoverPubkeyWithContext].  Its arguments are everything in scope there:
    payload, pos, p, legacy, txType, the slot, the sender buffer,
    validateHash and the context. *)
Variable signedBody :
  list byte -> Z -> Z -> bool -> Z -> TxSlot -> list byte ->
  option (list byte -> option Z) -> TxParseContext -> go outcome.

(** The tail of [ParseTransaction] for a blob transaction wrapped with its
    blobs, commitments and proofs (the three loops after the body).  Its
    arguments: payload, p, dataPos, dataLen, wrapperDataPos, wrapperDataLen
    and the slot; it returns [p], an error and the slot. *)
Variable blobWrapper :
  list byte -> Z -> Z -> Z -> Z -> Z -> TxSlot -> go (Z * option parse_error * TxSlot).

Definition fail (p : Z) (e : parse_error) (slot : TxSlot) (ctx : TxParseContext)
    (sender : list byte) : go outcome :=
  Ret (mkOutcome p (Some e) slot ctx sender).

(** The branch [if slot.Type == DepositTxType] of [parseTransactionBody]. *)
Definition depositBody (payload : list byte) (p : Z) (slot : TxSlot) (sender : list byte)
    (validateHash : option (list byte -> option Z)) (ctx : TxParseContext) : go outcome :=
  (* SourchHash *)
  match rlp.SkipString rd payload p with
  | inr err => fail 0 (ErrDepositSourceHash err) slot ctx sender
  | inl (p, _) =>
  (* From *)
  match rlp.String rd payload p with
  | inr err => fail 0 (ErrDepositFrom err) slot ctx sender
  | inl (dataPos, dataLen) =>
  sender ← (if withSender ctx then
              from ← goSlice payload dataPos (dataPos + dataLen);
              Ret (goCopy sender from)
            else Ret sender);
  let p := dataPos + dataLen in
  (* To *)
  match rlp.SkipString rd payload p with
  | inr err => fail 0 (ErrDepositTo err) slot ctx sender
  | inl (p, dataLen) =>
  let slot := setCreation slot (dataLen =? 0) in
  (* Mint *)
  match rlp.SkipString rd payload p with
  | inr err => fail 0 (ErrDepositMint err) slot ctx sender
  | inl (p, _) =>
  (* Value *)
  match rlp.U256 rd payload p with
  | inr err => fail 0 (ErrDepositValue err) slot ctx sender
  | inl (p, value) =>
  let slot := setValue slot value in
  (* Gas *)
  let '(p, gas, err) := rlp.U64 rd payload p in
  let slot := setGas slot gas in
  match err with
  | Some err => fail 0 (ErrDepositGas err) slot ctx sender
  | None =>
  (* IsSystemTx *)
  match rlp.SkipString rd payload p with
  | inr err => fail 0 (ErrDepositIsSystemTx err) slot ctx sender
  | inl (p, _) =>
  (* Data *)
  match rlp.String rd payload p with
  | inr err => fail 0 (ErrDepositDataLen err) slot ctx sender
  | inl (dataPos, dataLen) =>
  let slot := setDataLen slot dataLen in
  (* Zero and non-zero bytes are priced differently *)
  data ← goSlice payload dataPos (dataPos + dataLen);
  let slot := setDataNonZeroLen slot (countNonZero data) in
  (* Deposit transactions always have 0 rollupcost data *)
  let slot := setRollupCostData slot zeroRollupCostData in
  let p := dataPos + dataLen in
  (* Set IDHash to slot *)
  let slot := setIDHash slot (keccak256 (absorbed (Keccak1 ctx))) in
  let ctx := setKeccak1 ctx (mkKeccak (absorbed (Keccak1 ctx)) true) in
  match validateHash with
  | Some f =>
      match f (IDHash slot) with
      | Some code => fail p (ErrCallback code) slot ctx sender
      | None => Ret (mkOutcome p None slot ctx sender)
      end
  | None => Ret (mkOutcome p None slot ctx sender)
  end
  end end end end end end end end.

Definition parseTransactionBody (payload : list byte) (pos p0 : Z) (slot : TxSlot)
    (sender : list byte) (validateHash : option (list byte -> option Z))
    (ctx : TxParseContext) : go outcome :=
  let p := p0 in
  let legacy := Type_ slot =? LegacyTxType in
  (* Compute transaction hash *)
  let ctx := setKeccak1 ctx Keccak_Reset in
  let ctx := setKeccak2 ctx Keccak_Reset in
  let rest (ctx : TxParseContext) (p : Z) (txType : Z) : go outcome :=
    match match validateRlp ctx with Some f => f (Rlp slot) | None => None end with
    | Some code => fail p (ErrCallback code) slot ctx sender
    | None =>
        if Type_ slot =? DepositTxType
        then depositBody payload p slot sender validateHash ctx
        else signedBody payload pos p legacy txType slot sender validateHash ctx
    end in
  if negb legacy then
    let typeByte := [of_Z (Type_ slot)] in
    let txType := Type_ slot in
    let ctx := setKeccak1 ctx (Keccak_Write (Keccak1 ctx) typeByte) in
    let ctx := setKeccak2 ctx (Keccak_Write (Keccak2 ctx) typeByte) in
    match rlp.List rd payload p with
    | inr err => fail 0 (ErrEnvelopePrefix err) slot ctx sender
    | inl (dataPos, dataLen) =>
        (* Hash the content of envelope, not the full payload *)
        envelope ← goSlice payload p (dataPos + dataLen);
        let ctx := setKeccak1 ctx (Keccak_Write (Keccak1 ctx) envelope) in
        rest ctx dataPos txType
    end
  else rest ctx p 0.

(** The end of [ParseTransaction], from the call of [parseTransactionBody]
    on: the body, for a wrapped blob transaction its blobs, commitments and
    proofs, and the size of the slot. *)
Definition parseBodyAndTail (payload : list byte) (pos : Z) (sender : list byte)
    (wrappedWithBlobs : bool) (validateHash : option (list byte -> option Z))
    (ctx : TxParseContext)
    (slot : TxSlot) (p dataPos dataLen wrapperDataPos wrapperDataLen : Z) : go outcome :=
  r ← parseTransactionBody payload pos p slot sender validateHash ctx;
  match out_err r with
  | Some _ => Ret r
  | None =>
      let p := out_p r in
      let slot := out_slot r in
      if (Type_ slot =? BlobTxType) && wrappedWithBlobs then
        '(p, err, slot) ← blobWrapper payload p dataPos dataLen wrapperDataPos wrapperDataLen slot;
        match err with
        | Some e => Ret (mkOutcome p (Some e) slot (out_ctx r) (out_sender r))
        | None =>
            let slot := setSize slot (len (Rlp slot) mod 2 ^ 32) in
            Ret (mkOutcome p None slot (out_ctx r) (out_sender r))
        end
      else
        let slot := setSize slot (len (Rlp slot) mod 2 ^ 32) in
        Ret (mkOutcome p None slot (out_ctx r) (out_sender r))
  end.

Definition ParseTransaction (payload : list byte) (pos : Z) (slot : TxSlot)
    (sender : list byte) (hasEnvelope wrappedWithBlobs : bool)
    (validateHash : option (list byte -> option Z)) (ctx : TxParseContext) : go outcome :=
  if len payload =? 0 then fail 0 ErrEmptyRlp slot ctx sender
  else if withSender ctx && negb (len sender =? 20) then fail 0 ErrSenderBuffer slot ctx sender
  else
  (* Legacy transactions have list Prefix, whereas EIP-2718 transactions have string Prefix *)
  match rlp.Prefix rd payload pos with
  | inr err => fail 0 (ErrSizePrefix err) slot ctx sender
  | inl (dataPos, dataLen, legacy) =>
  if dataLen =? 0 then fail 0 ErrNotListOrString slot ctx sender
  else if (dataLen =? 1) && negb legacy && hasEnvelope then
    got ← goSlice payload dataPos (dataPos + dataLen);
    fail 0 (ErrExpectedEnvelope got) slot ctx sender
  else
  let p := dataPos in
  let body := parseBodyAndTail payload pos sender wrappedWithBlobs validateHash ctx in
  (* If it is non-legacy transaction, the transaction type follows, and then the list *)
  if negb legacy then
    t ← goIndex payload p;
    let slot := setType slot (to_Z t) in
    if (SetCodeTxType <? Type_ slot) && negb (Type_ slot =? DepositTxType)
    then fail 0 (ErrUnknownTxType (Type_ slot)) slot ctx sender
    else
    let p := p + 1 in
    if len payload <=? p then fail 0 ErrUnexpectedEnd slot ctx sender
    else
    match rlp.List rd payload p with
    | inr err => fail 0 (ErrEnvelopePrefix err) slot ctx sender
    | inl (dataPos, dataLen) =>
    (* only the content of the envelope (start with position p) *)
    rlpBytes ← goSlice payload (p - 1) (dataPos + dataLen);
    let slot := setRlp slot rlpBytes in
    if (Type_ slot =? BlobTxType) && wrappedWithBlobs then
      let p := dataPos in
      let wrapperDataPos := dataPos in
      let wrapperDataLen := dataLen in
      match rlp.List rd payload dataPos with
      | inr err => fail 0 (ErrWrappedBlobTx err) slot ctx sender
      | inl (dataPos, dataLen) => body slot p dataPos dataLen wrapperDataPos wrapperDataLen
      end
    else body slot p dataPos dataLen 0 0
    end
  else
    let slot := setType slot LegacyTxType in
    rlpBytes ← goSlice payload pos (dataPos + dataLen);
    let slot := setRlp slot rlpBytes in
    body slot p dataPos dataLen 0 0
  end.

End Parse.

(** The type byte of a typed transaction at [pos], as [ParseTransaction]
    reads it into [slot.Type]. *)
Definition typeByteAt (rd : rlp.Reader) (payload : list byte) (pos : Z) : option Z :=
  match rlp.Prefix rd payload pos with
  | inl (dataPos, _, false) =>
      if dataPos <? 0 then None else to_Z <$> (payload !! Z.to_nat dataPos)
  | _ => None
  end.

(** The [from] field of a deposit transaction at [pos]: the second string of
    the list that follows the type byte. *)
Definition depositFrom (rd : rlp.Reader) (payload : list byte) (pos : Z) : option (list byte) :=
  match rlp.Prefix rd payload pos with
  | inl (dataPos, _, false) =>
      match rlp.List rd payload (dataPos + 1) with
      | inl (dataPos, _) =>
          match rlp.SkipString rd payload dataPos with
          | inl (p, _) =>
              match rlp.String rd payload p with
              | inl (a, n) => Some (subslice payload a (a + n))
              | inr _ => None
              end
          | inr _ => None
          end
      | inr _ => None
      end
  | _ => None
  end.

(** What [ParseTransaction] reads of a deposit transaction: the length the
    prefix at [pos] gives, the bytes kept as the slot's [Rlp], the bytes
    hashed for the [IDHash], the [from] field, whether [to] is empty, value
    and gas, the data and its length, and the position after the data. *)
Record DepositFields := mkDepositFields {
  f_prefixLen : Z;
  f_rlp : list byte;
  f_hashed : list byte;
  f_from : list byte;
  f_creation : bool;
  f_value : Z;
  f_gas : Z;
  f_dataLen : Z;
  f_data : list byte;
  f_end : Z
}.

(** [0 <= a <= b <= len(payload)]: [payload[a:b]] is no panic. *)
Definition within (payload : list byte) (a b : Z) : bool :=
  (0 <=? a) && (a <=? b) && (b <=? len payload).

(** The fields of the deposit transaction at [pos], read in the order of
    [ParseTransaction] and of the deposit branch of [parseTransactionBody]:
    the prefix of a typed transaction, the type byte 0x7e, the list, and in
    it sourceHash, from, to, mint, value, gas, isSystemTx and data.  Nothing
    when a read fails or a field lies outside the payload. *)
Definition depositFields (rd : rlp.Reader) (payload : list byte) (pos : Z)
  : option DepositFields :=
  match rlp.Prefix rd payload pos with
  | inl (tp, tl, false) =>
  if tl =? 0 then None else
  match goIndex payload tp with
  | Ret t =>
  if negb (to_Z t =? DepositTxType) then None else
  if len payload <=? tp + 1 then None else
  match rlp.List rd payload (tp + 1) with
  | inl (lp, ll) =>
  if negb (within payload (tp + 1) (lp + ll)) then None else
  (* SourchHash *)
  match rlp.SkipString rd payload lp with
  | inl (p, _) =>
  (* From *)
  match rlp.String rd payload p with
  | inl (a, n) =>
  if negb (within payload a (a + n)) then None else
  (* To *)
  match rlp.SkipString rd payload (a + n) with
  | inl (p, toLen) =>
  (* Mint *)
  match rlp.SkipString rd payload p with
  | inl (p, _) =>
  (* Value *)
  match rlp.U256 rd payload p with
  | inl (p, value) =>
  (* Gas *)
  match rlp.U64 rd payload p with
  | (p, gas, None) =>
  (* IsSystemTx *)
  match rlp.SkipString rd payload p with
  | inl (p, _) =>
  (* Data *)
  match rlp.String rd payload p with
  | inl (dp, dl) =>
  if negb (within payload dp (dp + dl)) then None else
  Some (mkDepositFields tl (subslice payload (tp + 1 - 1) (lp + ll))
          ([of_Z DepositTxType] ++ subslice payload (tp + 1) (lp + ll))
          (subslice payload a (a + n)) (toLen =? 0) value gas dl
          (subslice payload dp (dp + dl)) (dp + dl))
  | inr _ => None end
  | inr _ => None end
  | _ => None end
  | inr _ => None end
  | inr _ => None end
  | inr _ => None end
  | inr _ => None end
  | inr _ => None end
  | inr _ => None end
  | Panic _ => None end
  | _ => None
  end.

(** The callback, when there is one, returns no error for [x]. *)
Definition accepts (cb : option (list byte -> option Z)) (x : list byte) : Prop :=
  match cb with Some f => f x = None | None => True end.

(** A deposit transaction without envelope: the type byte 0x7e and the list
    of sourceHash (shortened to one byte), from (twenty bytes 0x11), to
    (empty), mint 0, value 5, gas 21000, isSystemTx (empty), data 0x0001. *)
Definition depositPayload : list byte :=
  [Byte.x7e; Byte.xe0;
   Byte.x01;
   Byte.x94] ++ repeat Byte.x11 20 ++
  [Byte.x80; Byte.x80; Byte.x05; Byte.x82; Byte.x52; Byte.x08; Byte.x80;
   Byte.x82; Byte.x00; Byte.x01].

Definition emptySlot : TxSlot :=
  mkTxSlot [] 0 0 0 0 0 0 0 0 0 0 [] false false 0 0 0 [] [] [] [] []
    (mkRollupCostData 7 7 7).

Definition freshContext : TxParseContext :=
  mkTxParseContext (mkSignature 0 0 0 0) Keccak_Reset Keccak_Reset None 10 [] [] []
    true false false.

(** Stand-ins for the signed kinds in the examples: reaching them panics. *)
Definition noSignedBody :
  list byte -> Z -> Z -> bool -> Z -> TxSlot -> list byte ->
  option (list byte -> option Z) -> TxParseContext -> go outcome :=
  fun _ _ _ _ _ _ _ _ _ => Panic PanicNilDereference.
Definition noBlobWrapper :
  list byte -> Z -> Z -> Z -> Z -> Z -> TxSlot -> go (Z * option parse_error * TxSlot) :=
  fun _ _ _ _ _ _ _ => Panic PanicNilDereference.

(** A stand-in for Keccak-256 in the examples. *)
Definition toyKeccak (bs : list byte) : list byte := repeat Byte.xaa 32.

Example ParseTransaction_deposit :
  (fun r => match r with
            | Ret o => Some (out_p o, out_err o, out_sender o, Gas (out_slot o),
                             Value (out_slot o), DataLen (out_slot o),
                             DataNonZeroLen (out_slot o), Creation (out_slot o),
                             RollupCostData_ (out_slot o), Size (out_slot o))
            | Panic _ => None
            end)
    (ParseTransaction Ref.reader toyKeccak noSignedBody noBlobWrapper depositPayload 0
       emptySlot (repeat Byte.x00 20) false false None freshContext)
  = Some (34, None, repeat Byte.x11 20, 21000, 5, 2, 1, true, zeroRollupCostData, 34).
Proof. vm_compute. reflexivity. Qed.

Ltac break_in H :=
  match type of H with
  | context [match ?x with _ => _ end] =>
      lazymatch x with
      | context [match _ with _ => _ end] => fail
      | _ => destruct x eqn:?
      end
  end.

Lemma go_bind_Ret {A B} (m : go A) (k : A -> go B) (b : B) :
  (m ≫= k) = Ret b -> exists a, m = Ret a /\ k a = Ret b.
Proof. destruct m as [a|q]; cbn; intros H; [eauto | discriminate]. Qed.

Lemma goSlice_Ret payload a b bs :
  goSlice payload a b = Ret bs -> bs = subslice payload a b.
Proof. unfold goSlice. destruct (_ && _); intros H; inversion H; reflexivity. Qed.

Lemma goSlice_within payload a b :
  within payload a b = true -> goSlice payload a b = Ret (subslice payload a b).
Proof. unfold goSlice, within. intros ->. reflexivity. Qed.

(** What the deposit branch leaves behind in [r], started at [p] on [slot],
    [sender] and [ctx]: the type and the raw bytes of the slot and the
    signature and scratch buffers of the context are untouched, and on success
    the rollup cost data is zero and the sender buffer holds the [from] field
    when the sender was asked for. *)
Definition deposit_post (rd : rlp.Reader) (payload : list byte) (p : Z) (slot : TxSlot)
    (sender : list byte) (ctx : TxParseContext) (r : outcome) : Prop :=
  Type_ (out_slot r) = Type_ slot /\
  Rlp (out_slot r) = Rlp slot /\
  sig (out_ctx r) = sig ctx /\
  buf (out_ctx r) = buf ctx /\
  Sig (out_ctx r) = Sig ctx /\
  Sighash (out_ctx r) = Sighash ctx /\
  (out_err r = None ->
     RollupCostData_ (out_slot r) = zeroRollupCostData /\
     exists p1 l1 a n,
       rlp.SkipString rd payload p = inl (p1, l1) /\
       rlp.String rd payload p1 = inl (a, n) /\
       out_sender r = if withSender ctx then goCopy sender (subslice payload a (a + n))
                      else sender).

Lemma deposit_post_failed rd payload p slot sender ctx o :
  Type_ (out_slot o) = Type_ slot -> Rlp (out_slot o) = Rlp slot ->
  out_ctx o = ctx -> out_err o <> None ->
  deposit_post rd payload p slot sender ctx o.
Proof.
  intros H1 H2 H3 H4. unfold deposit_post. subst ctx.
  repeat (split; [first [assumption | reflexivity]|]). intros Hn. contradiction.
Qed.

Lemma depositBody_spec rd keccak256 payload p slot sender validateHash ctx r :
  depositBody rd keccak256 payload p slot sender validateHash ctx = Ret r ->
  deposit_post rd payload p slot sender ctx r.
Proof.
  unfold depositBody, fail. intros H.
  destruct (rlp.SkipString rd payload p) as [[p1 l1]|e1] eqn:E1;
    [|inversion H; apply deposit_post_failed; cbn; congruence].
  destruct (rlp.String rd payload p1) as [[a n]|e2] eqn:E2;
    [|inversion H; apply deposit_post_failed; cbn; congruence].
  apply go_bind_Ret in H. destruct H as (sender' & Hs & H).
  assert (Hsender : sender' = if withSender ctx then goCopy sender (subslice payload a (a + n))
                              else sender).
  { destruct (withSender ctx).
    - apply go_bind_Ret in Hs. destruct Hs as (from & Hf & Hs).
      apply goSlice_Ret in Hf. subst from. inversion Hs. reflexivity.
    - inversion Hs. reflexivity. }
  clear Hs.
  assert (Hok : forall o : outcome,
            Type_ (out_slot o) = Type_ slot -> Rlp (out_slot o) = Rlp slot ->
            sig (out_ctx o) = sig ctx -> buf (out_ctx o) = buf ctx ->
            Sig (out_ctx o) = Sig ctx -> Sighash (out_ctx o) = Sighash ctx ->
            out_sender o = sender' ->
            (out_err o = None -> RollupCostData_ (out_slot o) = zeroRollupCostData) ->
            Ret o = Ret r ->
            deposit_post rd payload p slot sender ctx r).
  { intros o H1 H2 H3 H4 H5 H6 H7 H8 Ho. inversion Ho. subst o. unfold deposit_post.
    repeat (split; [assumption|]). intros Hn. split; [auto|].
    exists p1, l1, a, n. repeat split; try assumption. rewrite H7. exact Hsender. }
  clear Hsender E1 E2.
  repeat (first [ break_in H
                 | apply go_bind_Ret in H; destruct H as (data & Hd & H) ];
          try (apply Hok in H; [exact H | cbn; first [reflexivity | intros; discriminate] ..])).
Qed.


Section DepositTheorems.

Variable rd : rlp.Reader.
Variable keccak256 : list byte -> list byte.

(** A slot of deposit type never reaches the signed kinds' code. *)
Lemma parseTransactionBody_deposit_indep k1 k2 payload pos p0 slot sender validateHash ctx :
  Type_ slot = DepositTxType ->
  parseTransactionBody rd keccak256 k1 payload pos p0 slot sender validateHash ctx =
  parseTransactionBody rd keccak256 k2 payload pos p0 slot sender validateHash ctx.
Proof.
  intros Ht. unfold parseTransactionBody. rewrite Ht.
  change (DepositTxType =? LegacyTxType) with false.
  change (DepositTxType =? DepositTxType) with true.
  reflexivity.
Qed.

Lemma parseTransactionBody_deposit_spec k payload pos p0 slot sender validateHash ctx r :
  Type_ slot = DepositTxType ->
  parseTransactionBody rd keccak256 k payload pos p0 slot sender validateHash ctx = Ret r ->
  Type_ (out_slot r) = Type_ slot /\
  Rlp (out_slot r) = Rlp slot /\
  sig (out_ctx r) = sig ctx /\
  buf (out_ctx r) = buf ctx /\
  Sig (out_ctx r) = Sig ctx /\
  Sighash (out_ctx r) = Sighash ctx /\
  (out_err r = None ->
     RollupCostData_ (out_slot r) = zeroRollupCostData /\
     exists dataPos dataLen p1 l1 a n,
       rlp.List rd payload p0 = inl (dataPos, dataLen) /\
       rlp.SkipString rd payload dataPos = inl (p1, l1) /\
       rlp.String rd payload p1 = inl (a, n) /\
       out_sender r = if withSender ctx then goCopy sender (subslice payload a (a + n))
                      else sender).
Proof.
  intros Ht. unfold parseTransactionBody. rewrite Ht.
  change (DepositTxType =? LegacyTxType) with false.
  change (DepositTxType =? DepositTxType) with true.
  cbn [negb]. unfold fail.
  destruct (rlp.List rd payload p0) as [[dataPos dataLen]|e] eqn:EL.
  - intros H. apply go_bind_Ret in H. destruct H as (envelope & _ & H).
    cbn [validateRlp setKeccak1 setKeccak2] in H.
    destruct (match validateRlp ctx with Some f => f (Rlp slot) | None => None end).
    + inversion H. cbn. repeat (split; [first [reflexivity | assumption]|]).
      intros Hn. discriminate Hn.
    + apply depositBody_spec in H. unfold deposit_post in H. cbn in H.
      destruct H as (H1 & H2 & H3 & H4 & H5 & H6 & H7).
      rewrite Ht in H1. repeat (split; [assumption|]).
      intros Hn. destruct (H7 Hn) as (Hz & p1 & l1 & a & n & Ha & Hb & Hc).
      split; [assumption|]. exists dataPos, dataLen, p1, l1, a, n. auto.
  - intros H. inversion H. cbn. repeat (split; [first [reflexivity | assumption]|]).
    intros Hn. discriminate Hn.
Qed.

Lemma parseBodyAndTail_deposit_indep k1 k2 b1 b2 payload pos sender wrapped validateHash ctx
    slot p dataPos dataLen wdp wdl :
  Type_ slot = DepositTxType ->
  parseBodyAndTail rd keccak256 k1 b1 payload pos sender wrapped validateHash ctx
    slot p dataPos dataLen wdp wdl =
  parseBodyAndTail rd keccak256 k2 b2 payload pos sender wrapped validateHash ctx
    slot p dataPos dataLen wdp wdl.
Proof.
  intros Ht. unfold parseBodyAndTail.
  rewrite (parseTransactionBody_deposit_indep k1 k2 _ _ _ _ _ _ _ Ht).
  destruct (parseTransactionBody rd keccak256 k2 payload pos p slot sender validateHash ctx)
    as [r|q] eqn:E; [|reflexivity].
  cbn. destruct (out_err r); [reflexivity|].
  apply parseTransactionBody_deposit_spec in E; [|assumption].
  destruct E as (E & _). rewrite E, Ht.
  change (DepositTxType =? BlobTxType) with false. reflexivity.
Qed.

Lemma parseBodyAndTail_deposit_spec k b payload pos sender wrapped validateHash ctx
    slot p dataPos dataLen wdp wdl r :
  Type_ slot = DepositTxType ->
  parseBodyAndTail rd keccak256 k b payload pos sender wrapped validateHash ctx
    slot p dataPos dataLen wdp wdl = Ret r ->
  sig (out_ctx r) = sig ctx /\
  buf (out_ctx r) = buf ctx /\
  Sig (out_ctx r) = Sig ctx /\
  Sighash (out_ctx r) = Sighash ctx /\
  (out_err r = None ->
     RollupCostData_ (out_slot r) = zeroRollupCostData /\
     exists dataPos dataLen p1 l1 a n,
       rlp.List rd payload p = inl (dataPos, dataLen) /\
       rlp.SkipString rd payload dataPos = inl (p1, l1) /\
       rlp.String rd payload p1 = inl (a, n) /\
       out_sender r = if withSender ctx then goCopy sender (subslice payload a (a + n))
                      else sender).
Proof.
  intros Ht. unfold parseBodyAndTail. intros H.
  apply go_bind_Ret in H. destruct H as (r0 & E & H).
  apply parseTransactionBody_deposit_spec in E; [|assumption].
  destruct E as (E1 & E2 & E3 & E4 & E5 & E6 & E7).
  destruct (out_err r0) eqn:Eerr.
  - inversion H. subst r0. repeat (split; [assumption|]). rewrite Eerr. discriminate.
  - rewrite E1, Ht in H. change (DepositTxType =? BlobTxType) with false in H.
    cbn [andb] in H. inversion H. cbn.
    repeat (split; [assumption|]). intros _. apply E7. reflexivity.
Qed.

End DepositTheorems.


(** What [ParseTransaction] leaves behind for a deposit transaction at [pos]:
    the signature, [Sig], [Sighash] and [buf] of the context are as they were
    (nothing was parsed into them, no key was recovered), and on success the
    rollup cost data of the slot is zero and the sender buffer holds the
    payload's [from] field when the sender was asked for. *)
Definition deposit_parsed (rd : rlp.Reader) (payload : list byte) (pos : Z)
    (sender : list byte) (ctx : TxParseContext) (r : outcome) : Prop :=
  sig (out_ctx r) = sig ctx /\
  buf (out_ctx r) = buf ctx /\
  Sig (out_ctx r) = Sig ctx /\
  Sighash (out_ctx r) = Sighash ctx /\
  (out_err r = None ->
     RollupCostData_ (out_slot r) = zeroRollupCostData /\
     exists from,
       depositFrom rd payload pos = Some from /\
       out_sender r = if withSender ctx then goCopy sender from else sender).

Lemma typeByteAt_deposit rd payload pos :
  typeByteAt rd payload pos = Some DepositTxType ->
  exists dataPos dataLen t,
    rlp.Prefix rd payload pos = inl (dataPos, dataLen, false) /\
    goIndex payload dataPos = Ret t /\ to_Z t = DepositTxType.
Proof.
  unfold typeByteAt, goIndex. intros H.
  destruct (rlp.Prefix rd payload pos) as [[[dataPos dataLen] legacy]|e]; [|discriminate].
  destruct legacy; [discriminate|].
  destruct (dataPos <? 0) eqn:E0; [discriminate|].
  destruct (payload !! Z.to_nat dataPos) as [t|] eqn:Et; [|discriminate].
  cbn in H. inversion H. exists dataPos, dataLen, t. rewrite E0, Et.
  repeat split; reflexivity.
Qed.

Section DepositClaim.

Variable rd : rlp.Reader.
Variable keccak256 : list byte -> list byte.

Lemma ParseTransaction_deposit_indep k1 k2 b1 b2 payload pos slot sender hasEnvelope wrapped
    validateHash ctx :
  typeByteAt rd payload pos = Some DepositTxType ->
  ParseTransaction rd keccak256 k1 b1 payload pos slot sender hasEnvelope wrapped validateHash ctx =
  ParseTransaction rd keccak256 k2 b2 payload pos slot sender hasEnvelope wrapped validateHash ctx.
Proof.
  intros Ht. destruct (typeByteAt_deposit _ _ _ Ht) as (dataPos & dataLen & t & EP & Ei & Et).
  unfold ParseTransaction. rewrite EP, Ei. cbn [negb mbind go_bind].
  cbn [Type_ setType]. rewrite Et.
  change ((SetCodeTxType <? DepositTxType) && negb (DepositTxType =? DepositTxType)) with false.
  cbv iota.
  destruct (len payload =? 0); [reflexivity|].
  destruct (withSender ctx && negb (len sender =? 20)); [reflexivity|].
  destruct (dataLen =? 0); [reflexivity|].
  destruct ((dataLen =? 1) && true && hasEnvelope); [reflexivity|].
  destruct (len payload <=? dataPos + 1); [reflexivity|].
  destruct (rlp.List rd payload (dataPos + 1)) as [[dp dl]|e]; [|reflexivity].
  destruct (goSlice payload (dataPos + 1 - 1) (dp + dl)) as [bs|q]; [|reflexivity].
  cbn [mbind go_bind Type_ setRlp setType].
  change (DepositTxType =? BlobTxType) with false. cbn [andb].
  apply parseBodyAndTail_deposit_indep. reflexivity.
Qed.

Lemma ParseTransaction_deposit_spec k b payload pos slot sender hasEnvelope wrapped
    validateHash ctx r :
  typeByteAt rd payload pos = Some DepositTxType ->
  ParseTransaction rd keccak256 k b payload pos slot sender hasEnvelope wrapped validateHash ctx
    = Ret r ->
  deposit_parsed rd payload pos sender ctx r.
Proof.
  intros Ht. destruct (typeByteAt_deposit _ _ _ Ht) as (dataPos & dataLen & t & EP & Ei & Et).
  unfold ParseTransaction, depositFrom, fail. unfold deposit_parsed at 1.
  unfold depositFrom. rewrite EP, Ei. cbn [negb mbind go_bind].
  cbn [Type_ setType]. rewrite Et.
  change ((SetCodeTxType <? DepositTxType) && negb (DepositTxType =? DepositTxType)) with false.
  cbv iota.
  assert (Hf : forall o, out_ctx o = ctx -> out_err o <> None -> Ret o = Ret r ->
            sig (out_ctx r) = sig ctx /\ buf (out_ctx r) = buf ctx /\
            Sig (out_ctx r) = Sig ctx /\ Sighash (out_ctx r) = Sighash ctx /\
            (out_err r = None ->
               RollupCostData_ (out_slot r) = zeroRollupCostData /\
               exists from,
                 match rlp.List rd payload (dataPos + 1) with
                 | inl (dataPos0, _) =>
                     match rlp.SkipString rd payload dataPos0 with
                     | inl (p, _) =>
                         match rlp.String rd payload p with
                         | inl (a, n) => Some (subslice payload a (a + n))
                         | inr _ => None
                         end
                     | inr _ => None
                     end
                 | inr _ => None
                 end = Some from /\
                 out_sender r = if withSender ctx then goCopy sender from else sender)).
  { intros o H1 H2 Ho. inversion Ho. subst o. subst ctx.
    repeat (split; [reflexivity|]). intros Hn. contradiction. }
  destruct (len payload =? 0); [intros H; eapply Hf; [| |exact H]; [reflexivity|discriminate]|].
  destruct (withSender ctx && negb (len sender =? 20));
    [intros H; eapply Hf; [| |exact H]; [reflexivity|discriminate]|].
  destruct (dataLen =? 0); [intros H; eapply Hf; [| |exact H]; [reflexivity|discriminate]|].
  destruct ((dataLen =? 1) && true && hasEnvelope).
  { intros H. apply go_bind_Ret in H. destruct H as (got & _ & H).
    eapply Hf; [| |exact H]; [reflexivity|discriminate]. }
  destruct (len payload <=? dataPos + 1);
    [intros H; eapply Hf; [| |exact H]; [reflexivity|discriminate]|].
  destruct (rlp.List rd payload (dataPos + 1)) as [[dp dl]|e] eqn:EL;
    [|intros H; eapply Hf; [| |exact H]; [reflexivity|discriminate]].
  clear Hf. intros H. apply go_bind_Ret in H. destruct H as (bs & _ & H).
  cbn [Type_ setRlp setType] in H.
  change (DepositTxType =? BlobTxType) with false in H. cbn [andb] in H.
  apply parseBodyAndTail_deposit_spec in H; [|reflexivity].
  destruct H as (H1 & H2 & H3 & H4 & H5).
  repeat (split; [assumption|]). intros Hn.
  destruct (H5 Hn) as (Hz & dp' & dl' & p1 & l1 & a & n & Ea & Eb & Ec & Ed).
  split; [assumption|]. exists (subslice payload a (a + n)).
  rewrite EL in Ea. inversion Ea. subst dp' dl'. rewrite Eb, Ec. auto.
Qed.

(** A deposit transaction whose fields decode is parsed with success. *)
Lemma ParseTransaction_deposit_decodes k b payload pos slot sender hasEnvelope wrapped
    validateHash ctx f :
  depositFields rd payload pos = Some f ->
  (withSender ctx = true -> length sender = 20%nat) ->
  (hasEnvelope = true -> f_prefixLen f <> 1) ->
  accepts (validateRlp ctx) (f_rlp f) ->
  accepts validateHash (keccak256 (f_hashed f)) ->
  exists r,
    ParseTransaction rd keccak256 k b payload pos slot sender hasEnvelope wrapped validateHash ctx
      = Ret r /\
    out_err r = None /\
    out_p r = f_end f /\
    out_sender r = (if withSender ctx then goCopy sender (f_from f) else sender) /\
    RollupCostData_ (out_slot r) = zeroRollupCostData /\
    Type_ (out_slot r) = DepositTxType /\
    Rlp (out_slot r) = f_rlp f /\
    IDHash (out_slot r) = keccak256 (f_hashed f) /\
    Creation (out_slot r) = f_creation f /\
    Value (out_slot r) = f_value f /\
    Gas (out_slot r) = f_gas f /\
    DataLen (out_slot r) = f_dataLen f /\
    DataNonZeroLen (out_slot r) = countNonZero (f_data f).
Proof.
  unfold depositFields. intros Hf Hs He Hr Hh.
  destruct (rlp.Prefix rd payload pos) as [[[tp tl] [|]]|e] eqn:EP; try discriminate Hf.
  destruct (tl =? 0) eqn:Etl; [discriminate Hf|].
  destruct (goIndex payload tp) as [t|q] eqn:Ei; [|discriminate Hf].
  destruct (to_Z t =? DepositTxType) eqn:Et; [|discriminate Hf]. cbn [negb] in Hf.
  apply Z.eqb_eq in Et.
  destruct (len payload <=? tp + 1) eqn:Elen; [discriminate Hf|].
  destruct (rlp.List rd payload (tp + 1)) as [[lp ll]|e] eqn:EL; [|discriminate Hf].
  destruct (within payload (tp + 1) (lp + ll)) eqn:Ew1; [|discriminate Hf]. cbn [negb] in Hf.
  destruct (rlp.SkipString rd payload lp) as [[p1 l1]|e] eqn:E1; [|discriminate Hf].
  destruct (rlp.String rd payload p1) as [[a n]|e] eqn:E2; [|discriminate Hf].
  destruct (within payload a (a + n)) eqn:Ew2; [|discriminate Hf]. cbn [negb] in Hf.
  destruct (rlp.SkipString rd payload (a + n)) as [[p2 toLen]|e] eqn:E3; [|discriminate Hf].
  destruct (rlp.SkipString rd payload p2) as [[p3 l3]|e] eqn:E4; [|discriminate Hf].
  destruct (rlp.U256 rd payload p3) as [[p4 value]|e] eqn:E5; [|discriminate Hf].
  destruct (rlp.U64 rd payload p4) as [[p5 gas] [e|]] eqn:E6; [discriminate Hf|].
  destruct (rlp.SkipString rd payload p5) as [[p6 l6]|e] eqn:E7; [|discriminate Hf].
  destruct (rlp.String rd payload p6) as [[dp dl]|e] eqn:E8; [|discriminate Hf].
  destruct (within payload dp (dp + dl)) eqn:Ew3; [|discriminate Hf]. cbn [negb] in Hf.
  injection Hf as <-.
  cbn [f_prefixLen f_rlp f_hashed f_from f_creation f_value f_gas f_dataLen f_data f_end] in *.
  assert (Htp : 0 <= tp).
  { unfold goIndex in Ei. destruct (tp <? 0) eqn:E0; [discriminate Ei|].
    apply Z.ltb_ge in E0. exact E0. }
  apply Z.leb_gt in Elen.
  assert (Ew0 : within payload (tp + 1 - 1) (lp + ll) = true).
  { unfold within in *. apply andb_prop in Ew1. destruct Ew1 as [Ew1 Ew1c].
    apply andb_prop in Ew1. destruct Ew1 as [Ew1a Ew1b].
    apply Z.leb_le in Ew1b. rewrite Ew1c.
    rewrite (proj2 (Z.leb_le 0 (tp + 1 - 1))) by lia.
    rewrite (proj2 (Z.leb_le (tp + 1 - 1) (lp + ll))) by lia. reflexivity. }
  unfold ParseTransaction.
  rewrite (proj2 (Z.eqb_neq (len payload) 0)) by lia.
  assert (Hsb : withSender ctx && negb (len sender =? 20) = false).
  { destruct (withSender ctx); [|reflexivity]. unfold len. rewrite Hs by reflexivity.
    reflexivity. }
  rewrite Hsb, EP, Etl.
  assert (Henv : (tl =? 1) && negb false && hasEnvelope = false).
  { destruct hasEnvelope; [|apply andb_false_r].
    rewrite (proj2 (Z.eqb_neq tl 1)) by (apply He; reflexivity). reflexivity. }
  rewrite Henv. cbn [negb]. rewrite Ei. cbn [mbind go_bind Type_ setType]. rewrite Et.
  change ((SetCodeTxType <? DepositTxType) && negb (DepositTxType =? DepositTxType)) with false.
  cbv iota. rewrite (proj2 (Z.leb_gt (len payload) (tp + 1))) by lia.
  rewrite EL, (goSlice_within _ _ _ Ew0). cbn [mbind go_bind Type_ setRlp setType].
  change (DepositTxType =? BlobTxType) with false. cbn [andb].
  unfold parseBodyAndTail, parseTransactionBody. cbn [Type_ Rlp setRlp setType].
  change (DepositTxType =? LegacyTxType) with false.
  change (DepositTxType =? DepositTxType) with true. cbn [negb].
  rewrite EL, (goSlice_within _ _ _ Ew1). cbn [mbind go_bind validateRlp setKeccak1 setKeccak2].
  assert (Hr' : match validateRlp ctx with
                | Some f => f (subslice payload (tp + 1 - 1) (lp + ll))
                | None => None
                end = None).
  { unfold accepts in Hr. destruct (validateRlp ctx); [exact Hr|reflexivity]. }
  rewrite Hr'. unfold depositBody. rewrite E1, E2.
  cbn [withSender setKeccak1 setKeccak2]. rewrite (goSlice_within _ _ _ Ew2).
  assert (Hsend : (if withSender ctx
                   then Ret (subslice payload a (a + n)) ≫= (fun from => Ret (goCopy sender from))
                   else Ret sender)
                  = Ret (if withSender ctx then goCopy sender (subslice payload a (a + n))
                         else sender)).
  { destruct (withSender ctx); reflexivity. }
  rewrite Hsend. cbn [mbind go_bind]. rewrite E3, E4, E5, E6, E7, E8.
  rewrite (goSlice_within _ _ _ Ew3). cbn [mbind go_bind].
  cbn [Keccak1 setKeccak1 setKeccak2 Keccak_Write Keccak_Reset absorbed app IDHash setIDHash].
  assert (Hh' : match validateHash with
                | Some vf => vf (keccak256 (of_Z DepositTxType :: subslice payload (tp + 1) (lp + ll)))
                | None => None
                end = None).
  { unfold accepts in Hh. destruct validateHash; [exact Hh|reflexivity]. }
  destruct validateHash as [vf|]; [rewrite Hh'|].
  all: cbn [mbind go_bind out_err out_slot Type_ setIDHash setRollupCostData
            setDataNonZeroLen setDataLen setGas setValue setCreation setRlp setType].
  all: change (DepositTxType =? BlobTxType) with false; cbn [andb].
  all: eexists; split; [reflexivity|].
  all: cbn [out_err out_slot out_p out_ctx out_sender setSize].
  all: repeat apply conj; reflexivity.
Qed.

(** C8: for every deposit transaction (type byte 0x7e) [ParseTransaction]
    parses no signature and recovers no sender: its result is the same
    whatever the code of the signed kinds is (the only place of
    [parseSignature] and of the ECDSA recovery), and the signature and the
    signature buffers of the context are left as they were.  A deposit whose
    fields decode, with callbacks that accept it, is parsed with success:
    the call returns no error, the sender is the copy of the payload's
    [from] field when the sender is asked for, and the slot's RollupCostData
    is the zero value. *)
Theorem C8_ParseTransaction_deposit k b payload pos slot sender hasEnvelope wrapped
    validateHash ctx :
  typeByteAt rd payload pos = Some DepositTxType ->
  (forall k' b',
     ParseTransaction rd keccak256 k b payload pos slot sender hasEnvelope wrapped validateHash ctx =
     ParseTransaction rd keccak256 k' b' payload pos slot sender hasEnvelope wrapped validateHash ctx) /\
  (forall r,
     ParseTransaction rd keccak256 k b payload pos slot sender hasEnvelope wrapped validateHash ctx
       = Ret r ->
     sig (out_ctx r) = sig ctx /\
     buf (out_ctx r) = buf ctx /\
     Sig (out_ctx r) = Sig ctx /\
     Sighash (out_ctx r) = Sighash ctx /\
     (out_err r = None ->
        RollupCostData_ (out_slot r) = zeroRollupCostData /\
        exists from,
          depositFrom rd payload pos = Some from /\
          out_sender r = if withSender ctx then goCopy sender from else sender)) /\
  (forall f,
     depositFields rd payload pos = Some f ->
     (withSender ctx = true -> length sender = 20%nat) ->
     (hasEnvelope = true -> f_prefixLen f <> 1) ->
     accepts (validateRlp ctx) (f_rlp f) ->
     accepts validateHash (keccak256 (f_hashed f)) ->
     exists r,
       ParseTransaction rd keccak256 k b payload pos slot sender hasEnvelope wrapped validateHash ctx
         = Ret r /\
       out_err r = None /\
       out_p r = f_end f /\
       out_sender r = (if withSender ctx then goCopy sender (f_from f) else sender) /\
       RollupCostData_ (out_slot r) = zeroRollupCostData /\
       Type_ (out_slot r) = DepositTxType /\
       Rlp (out_slot r) = f_rlp f /\
       IDHash (out_slot r) = keccak256 (f_hashed f) /\
       Creation (out_slot r) = f_creation f /\
       Value (out_slot r) = f_value f /\
       Gas (out_slot r) = f_gas f /\
       DataLen (out_slot r) = f_dataLen f /\
       DataNonZeroLen (out_slot r) = countNonZero (f_data f)).
Proof.
  intros Ht. split; [|split].
  - intros k' b'. apply ParseTransaction_deposit_indep. exact Ht.
  - intros r H. apply (ParseTransaction_deposit_spec _ _ _ _ _ _ _ _ _ _ _ Ht H).
  - intros f Hf Hs He Hr Hh. apply ParseTransaction_deposit_decodes; assumption.
Qed.

End DepositClaim.

Lemma C8_ParseTransaction_deposit_witness :
  (forall k' b',
     ParseTransaction Ref.reader toyKeccak noSignedBody noBlobWrapper depositPayload 0
       emptySlot (repeat Byte.x00 20) false false None freshContext =
     ParseTransaction Ref.reader toyKeccak k' b' depositPayload 0
       emptySlot (repeat Byte.x00 20) false false None freshContext) /\
  exists r,
    ParseTransaction Ref.reader toyKeccak noSignedBody noBlobWrapper depositPayload 0
      emptySlot (repeat Byte.x00 20) false false None freshContext = Ret r /\
    out_err r = None /\
    out_sender r = repeat Byte.x11 20 /\
    RollupCostData_ (out_slot r) = zeroRollupCostData /\
    RollupCostData_ emptySlot = mkRollupCostData 7 7 7 /\
    sig (out_ctx r) = sig freshContext /\
    Sig (out_ctx r) = Sig freshContext /\
    Sighash (out_ctx r) = Sighash freshContext.
Proof.
  assert (Ht : typeByteAt Ref.reader depositPayload 0 = Some DepositTxType)
    by (vm_compute; reflexivity).
  destruct (C8_ParseTransaction_deposit Ref.reader toyKeccak noSignedBody noBlobWrapper
              depositPayload 0 emptySlot (repeat Byte.x00 20) false false None freshContext Ht)
    as (H1 & H2 & H3).
  split; [exact H1|].
  destruct (depositFields Ref.reader depositPayload 0) as [f|] eqn:Ef;
    [|vm_compute in Ef; discriminate Ef].
  assert (Hfrom : f_from f = repeat Byte.x11 20).
  { vm_compute in Ef. injection Ef as <-. reflexivity. }
  destruct (H3 f eq_refl (fun _ => eq_refl) ltac:(discriminate) I I)
    as (r & Hr & Herr & _ & Hsender & Hzero & _).
  destruct (H2 r Hr) as (Hsig & _ & HSig & HSighash & _).
  exists r. split; [exact Hr|]. split; [exact Herr|].
  split; [rewrite Hsender, Hfrom; reflexivity|].
  split; [exact Hzero|]. split; [reflexivity|].
  split; [exact Hsig|]. split; [exact HSig | exact HSighash].
Defined.

End ParseTx.

(** ** The state transition (core/state_transition.go) *)

Module Core.

Import Bytes.

Definition address : Type := Z.

(** The sentinel errors of package core that the transition returns. *)
Inductive sentinel : Set :=
  | ErrInsufficientFunds
  | ErrGasLimitReached
  | ErrBlobGasLimitReached
  | ErrInternalFailure
  | ErrSystemTxNotSupported
  | ErrNonceTooHigh
  | ErrNonceTooLow
  | ErrNonceMax
  | ErrSenderNoEOA
  | ErrTipAboveFeeCap
  | ErrFeeCapTooLow
  | ErrMaxFeePerBlobGas
  | ErrIntrinsicGas
  | ErrGasUintOverflow
  | ErrMaxInitCodeSizeExceeded.

(** A Go [error]: the sentinel value itself, a fresh error wrapping a
    sentinel ([fmt.Errorf] with [%w]), or one of the others.  Go's [==] on
    errors is equality of these values: a wrapped sentinel is not the
    sentinel. *)
Inductive error : Set :=
  | Is (s : sentinel)
  | Wrap (s : sentinel)
  | ErrType4Creation          (* "contract creation not allowed with type4 txs" *)
  | ErrBlobGasPrice (code : Z) (* an error of misc.GetBlobGasPrice *)
  | FailedDeposit (e : error). (* "failed deposit: %w" *)

#[global] Instance sentinel_eq_dec : EqDecision sentinel.
Proof. solve_decision. Defined.

#[global] Instance error_eq_dec : EqDecision error.
Proof. solve_decision. Defined.

(** Errors of the EVM. *)
Inductive vmerror : Set :=
  | ErrExecutionReverted
  | VmError (code : Z).

Inductive result_error : Set :=
  | OfVm (e : vmerror)
  | OfTransition (e : error).

(** [evmtypes.ExecutionResult]. *)
Record ExecutionResult := mkExecutionResult {
  UsedGas : Z;
  Err : option result_error;
  Reverted : bool;
  ReturnData : list byte;
  SenderInitBalance : option Z;
  CoinbaseInitBalance : option Z;
  FeeTipped : option Z
}.

(** [types.Authorization], with the signature kept whole. *)
Record Authorization := mkAuthorization {
  authChainID : Z;
  authAddress : address;
  authNonce : Z;
  authSignature : Z
}.

(** [Message]: what its methods return.  [FeeCap] may be a nil pointer. *)
Record Message := mkMessage {
  From : address;
  To : option address;
  GasPrice : Z;
  FeeCap : option Z;
  Tip : Z;
  Gas : Z;
  BlobGas : Z;
  MaxFeePerBlobGas : Z;
  Value : Z;
  Mint : option Z;
  IsSystemTx : bool;
  IsDepositTx : bool;
  RollupCostData : ParseTx.RollupCostData;
  Nonce : Z;
  CheckNonce : bool;
  Data : list byte;
  AccessList : list (address * list Z);
  BlobHashes : list Z;
  Authorizations : list Authorization;
  IsFree : bool
}.

(** Modelled from the spec: [GasPool] (core/gaspool.go is not among the
    embedded files).  "The shared gas pool is decremented by the transaction's
    gas limit (ensuring a block cannot schedule more gas than its capacity)":
    [SubGas] fails with [ErrGasLimitReached] when the pool holds less than
    the amount, and the blob gas is a second counter of the same kind. *)
Record GasPool := mkGasPool {
  gas : Z;
  blobGas : Z
}.

Definition SubGas (gp : GasPool) (amount : Z) : GasPool + error :=
  if gas gp <? amount then inr (Is ErrGasLimitReached)
  else inl (mkGasPool (gas gp - amount) (blobGas gp)).

Definition SubBlobGas (gp : GasPool) (amount : Z) : GasPool + error :=
  if blobGas gp <? amount then inr (Is ErrBlobGasLimitReached)
  else inl (mkGasPool (gas gp) (blobGas gp - amount)).

Definition AddGas (gp : GasPool) (amount : Z) : GasPool :=
  mkGasPool (U.wrap64 (gas gp + amount)) (blobGas gp).

(** Constants of the params package (the refund caps of the comments in
    [innerTransitionDb]). *)
Module params.
Definition RefundQuotient : Z := 2.
Definition RefundQuotientEIP3529 : Z := 5.
End params.

Section Transition.

(** What the world state holds besides balances, nonces and the refund
    counter: code, storage, access lists, logs. *)
Context {Rest : Type}.

(** The journalled contents of [evmtypes.IntraBlockState]. *)
Record World := mkWorld {
  balance : address -> Z;
  nonce : address -> Z;
  refund : Z;
  rest : Rest
}.

(** The state with its stack of valid revisions.  [Snapshot] records the
    world and returns the revision's number; [RevertToSnapshot] restores the
    recorded world and forgets the revisions taken since.  The EVM takes and
    reverts revisions of its own above the ones of its caller, so its net
    effect is on the world alone. *)
Record IntraBlockState := mkIntraBlockState {
  world : World;
  validRevisions : list World
}.

Definition upd (f : address -> Z) (a : address) (v : Z) : address -> Z :=
  fun b => if b =? a then v else f b.

Definition GetBalance (w : World) (a : address) : Z := balance w a.
Definition GetNonce (w : World) (a : address) : Z := nonce w a.
Definition GetRefund (w : World) : Z := refund w.

Definition AddBalance (w : World) (a : address) (amount : Z) : World :=
  mkWorld (upd (balance w) a (U.add (balance w a) amount)) (nonce w) (refund w) (rest w).
Definition SubBalance (w : World) (a : address) (amount : Z) : World :=
  mkWorld (upd (balance w) a (U.sub (balance w a) amount)) (nonce w) (refund w) (rest w).
Definition SetNonce (w : World) (a : address) (n : Z) : World :=
  mkWorld (balance w) (upd (nonce w) a n) (refund w) (rest w).
Definition AddRefund (w : World) (g : Z) : World :=
  mkWorld (balance w) (nonce w) (U.wrap64 (refund w + g)) (rest w).

Definition onWorld (f : World -> World) (s : IntraBlockState) : IntraBlockState :=
  mkIntraBlockState (f (world s)) (validRevisions s).

Definition Snapshot (s : IntraBlockState) : IntraBlockState * Z :=
  (mkIntraBlockState (world s) (validRevisions s ++ [world s]),
   Z.of_nat (length (validRevisions s))).

Definition RevertToSnapshot (s : IntraBlockState) (revid : Z) : go IntraBlockState :=
  if revid <? 0 then Panic PanicIndexOutOfRange
  else match validRevisions s !! Z.to_nat revid with
       | Some w => Ret (mkIntraBlockState w (firstn (Z.to_nat revid) (validRevisions s)))
       | None => Panic PanicIndexOutOfRange
       end.

(** The block context, the chain rules and configuration, and the
    collaborators of the transition: none of them is among the embedded
    files. *)
Record Env := mkEnv {
  (* evm.Context *)
  Coinbase : address;
  BaseFee : option Z;
  Time : Z;
  BlockNumber : Z;
  ExcessBlobGas : option Z;
  L1CostFunc : option (ParseTx.RollupCostData -> Z -> option Z);
  CanTransfer : World -> address -> Z -> bool;
  PostApplyMessage : option (World -> address -> address -> ExecutionResult -> World);
  (* evm.ChainRules() *)
  IsHomestead : bool;
  IsIstanbul : bool;
  IsLondon : bool;
  IsCancun : bool;
  IsPrague : bool;
  IsAura : bool;
  IsOptimismBedrock : bool;
  IsOptimismRegolith : bool;
  RulesChainID : Z;
  (* evm.Config() *)
  NoBaseFee : bool;
  HasEip3860 : bool;
  (* evm.ChainConfig() *)
  ConfigIsOptimismRegolith : Z -> bool;
  GetBurntContract : Z -> option address;
  (* misc.GetBlobGasPrice: a price or an error *)
  GetBlobGasPrice : Z -> Z + Z;
  (* txpoolcfg.CalcIntrinsicGas: the gas and whether the status is Success *)
  CalcIntrinsicGas :
    Z -> Z -> Z -> list (address * list Z) -> bool -> bool -> bool -> bool -> Z * bool;
  (* evm.Call and evm.Create: return data, gas left, error, and the world *)
  Call : World -> address -> address -> list byte -> Z -> Z -> bool ->
         list byte * Z * option vmerror * World;
  Create : World -> address -> list byte -> Z -> Z -> bool ->
           list byte * Z * option vmerror * World;
  (* the rest of the state's interface *)
  GetCodeHash : World -> address -> Z;
  GetDelegatedDesignation : World -> address -> option address;
  Exist : World -> address -> bool;
  SetCode : World -> address -> option address -> World;
  Prepare : World -> address -> address -> option address ->
            list (address * list Z) -> list address -> World;
  RecoverSigner : Authorization -> option address;
  (* constants of crypto, fixedgas and params *)
  emptyCodeHash : Z;
  PerEmptyAccountCost : Z;
  PerAuthBaseCost : Z;
  MaxInitCodeSize : Z;
  OptimismBaseFeeRecipient : address;
  OptimismL1FeeRecipient : address
}.

(** [StateTransition]: the fields a transition writes.  [gp] and [state] are
    the shared gas pool and world state behind their pointers, [BlobFee] is
    [evm.BlobFee]. *)
Record StateTransition := mkStateTransition {
  gp : GasPool;
  gasRemaining : Z;
  initialGas : Z;
  state : IntraBlockState;
  BlobFee : option Z;
  sharedBuyGas : Z;
  sharedBuyGasBalance : Z
}.

Definition withGp (st : StateTransition) (x : GasPool) : StateTransition :=
  mkStateTransition x (gasRemaining st) (initialGas st) (state st) (BlobFee st)
    (sharedBuyGas st) (sharedBuyGasBalance st).
Definition withGasRemaining (st : StateTransition) (x : Z) : StateTransition :=
  mkStateTransition (gp st) x (initialGas st) (state st) (BlobFee st)
    (sharedBuyGas st) (sharedBuyGasBalance st).
Definition withInitialGas (st : StateTransition) (x : Z) : StateTransition :=
  mkStateTransition (gp st) (gasRemaining st) x (state st) (BlobFee st)
    (sharedBuyGas st) (sharedBuyGasBalance st).
Definition withState (st : StateTransition) (x : IntraBlockState) : StateTransition :=
  mkStateTransition (gp st) (gasRemaining st) (initialGas st) x (BlobFee st)
    (sharedBuyGas st) (sharedBuyGasBalance st).
Definition withBlobFee (st : StateTransition) (x : option Z) : StateTransition :=
  mkStateTransition (gp st) (gasRemaining st) (initialGas st) (state st) x
    (sharedBuyGas st) (sharedBuyGasBalance st).
Definition withSharedBuyGas (st : StateTransition) (x : Z) : StateTransition :=
  mkStateTransition (gp st) (gasRemaining st) (initialGas st) (state st) (BlobFee st)
    x (sharedBuyGasBalance st).
Definition withSharedBuyGasBalance (st : StateTransition) (x : Z) : StateTransition :=
  mkStateTransition (gp st) (gasRemaining st) (initialGas st) (state st) (BlobFee st)
    (sharedBuyGas st) x.

Definition withWorld (st : StateTransition) (f : World -> World) : StateTransition :=
  withState st (onWorld f (state st)).

Definition theWorld (st : StateTransition) : World := world (state st).

Variable env : Env.
Variable msg : Message.

(** [st.gasPrice], [st.gasFeeCap], [st.tip], [st.value], [st.data] are set
    from the message by [NewStateTransition] and never written again. *)
Definition gasPrice : Z := GasPrice msg.
Definition gasFeeCap : option Z := FeeCap msg.
Definition tip : Z := Tip msg.
Definition value : Z := Value msg.
Definition data : list byte := Data msg.

(** [to] returns the recipient of the message. *)
Definition to : address :=
  match To msg with
  | None => 0
  | Some a => a
  end.

(** [gasUsed] returns the amount of gas used up by the state transition. *)
Definition gasUsed (st : StateTransition) : Z :=
  U.wrap64 (initialGas st - gasRemaining st).

Definition l1CostOf : option Z :=
  match L1CostFunc env with
  | Some fn => fn (RollupCostData msg) (Time env)
  | None => None
  end.

(** [buyGas].  [gasVal] is the object [st.sharedBuyGas]; [balanceCheck] is
    [st.sharedBuyGasBalance] when the fee cap is set and the very same object
    as [gasVal] when it is nil, where adding the L1 cost to the one adds it to
    the other. *)
Definition buyGas (gasBailout : bool) (st : StateTransition)
  : go (StateTransition * option error) :=
  let '(gasVal, overflow) := U.MulOverflow (Gas msg) gasPrice in
  let st := withSharedBuyGas st gasVal in
  if overflow then Ret (st, Some (Wrap ErrInsufficientFunds))
  else
  let l1Cost := l1CostOf in
  let gasVal := match l1Cost with Some c => U.add gasVal c | None => gasVal end in
  let st := withSharedBuyGas st gasVal in
  (* compute blob fee for eip-4844 data blobs if any *)
  let blob : (Z * StateTransition) + error :=
    if IsCancun env then
      match ExcessBlobGas env with
      | None => inr (Wrap ErrInternalFailure)
      | Some excessBlobGas =>
          match GetBlobGasPrice env excessBlobGas with
          | inr code => inr (ErrBlobGasPrice code)
          | inl blobGasPrice =>
              let '(blobGasVal, overflow) := U.MulOverflow blobGasPrice (BlobGas msg) in
              if overflow then inr (Wrap ErrInsufficientFunds)
              else match SubBlobGas (gp st) (BlobGas msg) with
                   | inr err => inr err
                   | inl gp' => inl (blobGasVal, withGp st gp')
                   end
          end
      end
    else inl (0, st) in
  match blob with
  | inr err => Ret (st, Some err)
  | inl (blobGasVal, st) =>
  let checked : (StateTransition + (StateTransition * error)) :=
    if negb gasBailout then
      (* balanceCheck, and gasVal where the two are one object *)
      let r : (Z * Z * StateTransition) + (StateTransition * error) :=
        match gasFeeCap with
        | Some feeCap =>
            let '(balanceCheck, overflow) := U.MulOverflow (Gas msg) feeCap in
            let st := withSharedBuyGasBalance st balanceCheck in
            if overflow then inr (st, Wrap ErrInsufficientFunds)
            else
            let '(balanceCheck, overflow) := U.AddOverflow balanceCheck value in
            let st := withSharedBuyGasBalance st balanceCheck in
            if overflow then inr (st, Wrap ErrInsufficientFunds)
            else
            let r : (Z * StateTransition) + (StateTransition * error) :=
              if IsCancun env then
                let '(maxBlobFee, overflow) := U.MulOverflow (MaxFeePerBlobGas msg) (BlobGas msg) in
                if overflow then inr (st, Wrap ErrInsufficientFunds)
                else
                let '(balanceCheck, overflow) := U.AddOverflow balanceCheck maxBlobFee in
                let st := withSharedBuyGasBalance st balanceCheck in
                if overflow then inr (st, Wrap ErrInsufficientFunds)
                else inl (balanceCheck, st)
              else inl (balanceCheck, st) in
            match r with
            | inr e => inr e
            | inl (balanceCheck, st) =>
                match l1Cost with
                | Some c =>
                    let '(balanceCheck, overflow) := U.AddOverflow balanceCheck c in
                    let st := withSharedBuyGasBalance st balanceCheck in
                    if overflow then inr (st, Wrap ErrInsufficientFunds)
                    else inl (balanceCheck, gasVal, st)
                | None => inl (balanceCheck, gasVal, st)
                end
            end
        | None =>
            match l1Cost with
            | Some c =>
                let '(balanceCheck, overflow) := U.AddOverflow gasVal c in
                let st := withSharedBuyGas st balanceCheck in
                if overflow then inr (st, Wrap ErrInsufficientFunds)
                else inl (balanceCheck, balanceCheck, st)
            | None => inl (gasVal, gasVal, st)
            end
        end in
      match r with
      | inr e => inr e
      | inl (balanceCheck, gasVal, st) =>
          let have := GetBalance (theWorld st) (From msg) in
          let want := balanceCheck in
          if have <? want then inr (st, Wrap ErrInsufficientFunds)
          else
            let st := withWorld st (fun w => SubBalance w (From msg) gasVal) in
            let st := withWorld st (fun w => SubBalance w (From msg) blobGasVal) in
            inl st
      end
    else inl st in
  match checked with
  | inr (st, err) => Ret (st, Some err)
  | inl st =>
      match SubGas (gp st) (Gas msg) with
      | inr err => Ret (st, Some err)
      | inl gp' =>
          let st := withGp st gp' in
          let st := withGasRemaining st (U.wrap64 (gasRemaining st + Gas msg)) in
          let st := withInitialGas st (Gas msg) in
          let st := withBlobFee st (Some blobGasVal) in
          Ret (st, None)
      end
  end
  end.

Definition CheckEip1559TxGasFeeCap (gasFeeCap : option Z) (tip : Z) (baseFee : option Z)
    (isFree : bool) : go (option error) :=
  match gasFeeCap with
  | None => Panic PanicNilDereference
  | Some gasFeeCap =>
      if gasFeeCap <? tip then Ret (Some (Wrap ErrTipAboveFeeCap))
      else match baseFee with
           | Some baseFee =>
               if (gasFeeCap <? baseFee) && negb isFree then Ret (Some (Wrap ErrFeeCapTooLow))
               else Ret None
           | None => Ret None
           end
  end.

(** Whether a code hash is neither the hash of no code nor the zero hash of
    an account that is not in the state. *)
Definition hasCode (codeHash : Z) : bool :=
  negb (codeHash =? emptyCodeHash env) && negb (codeHash =? 0).

Definition preCheck (gasBailout : bool) (st : StateTransition)
  : go (StateTransition * option error) :=
  if IsDepositTx msg then
    let have := GetBalance (theWorld st) (From msg) in
    let want := Value msg in
    if (have <? want) && negb gasBailout then Ret (st, Some (Wrap ErrInsufficientFunds))
    else
    (* Gas is free, but no refunds! *)
    let st := withInitialGas st (Gas msg) in
    let st := withGasRemaining st (U.wrap64 (gasRemaining st + Gas msg)) in
    (* Don't touch the gas pool for system transactions *)
    if IsSystemTx msg then
      if IsOptimismRegolith env then Ret (st, Some (Wrap ErrSystemTxNotSupported))
      else Ret (st, None)
    else
      match SubGas (gp st) (Gas msg) with
      | inr err => Ret (st, Some err)
      | inl gp' => Ret (withGp st gp', None)
      end
  else
  (* Make sure this transaction's nonce is correct. *)
  let nonceCheck : option error :=
    if CheckNonce msg then
      let stNonce := GetNonce (theWorld st) (From msg) in
      let msgNonce := Nonce msg in
      if stNonce <? msgNonce then Some (Wrap ErrNonceTooHigh)
      else if msgNonce <? stNonce then Some (Wrap ErrNonceTooLow)
      else if U.wrap64 (stNonce + 1) <? stNonce then Some (Wrap ErrNonceMax)
      else
        (* Make sure the sender is an EOA (EIP-3607) *)
        let codeHash := GetCodeHash env (theWorld st) (From msg) in
        if hasCode codeHash then
          match GetDelegatedDesignation env (theWorld st) (From msg) with
          | Some _ => None
          | None => Some (Wrap ErrSenderNoEOA)
          end
        else None
    else None in
  match nonceCheck with
  | Some err => Ret (st, Some err)
  | None =>
  (* Make sure the transaction gasFeeCap is greater than the block's baseFee. *)
  feeCheck ← (if IsLondon env then
                skipCheck ← (if NoBaseFee env then
                               match gasFeeCap with
                               | None => Panic PanicNilDereference
                               | Some feeCap => Ret ((feeCap =? 0) && (tip =? 0))
                               end
                             else Ret false);
                if negb skipCheck
                then CheckEip1559TxGasFeeCap gasFeeCap tip (BaseFee env) (IsFree msg)
                else Ret None
              else Ret None);
  match feeCheck with
  | Some err => Ret (st, Some err)
  | None =>
  let blobCheck : option error :=
    if (0 <? BlobGas msg) && IsCancun env then
      match ExcessBlobGas env with
      | None => Some (Wrap ErrInternalFailure)
      | Some excessBlobGas =>
          match GetBlobGasPrice env excessBlobGas with
          | inr code => Some (ErrBlobGasPrice code)
          | inl blobGasPrice =>
              let maxFeePerBlobGas := MaxFeePerBlobGas msg in
              if negb (NoBaseFee env) && (maxFeePerBlobGas <? blobGasPrice)
              then Some (Wrap ErrMaxFeePerBlobGas)
              else None
          end
      end
    else None in
  match blobCheck with
  | Some err => Ret (st, Some err)
  | None => buyGas gasBailout st
  end
  end
  end.

(** [IntrinsicGas] computes the 'intrinsic gas' for a message with the given
    data. *)
Definition IntrinsicGas (data : list byte) (accessList : list (address * list Z))
    (isContractCreation isHomestead isEIP2028 isEIP3860 : bool) (authorizationsLen : Z)
  : Z * option error :=
  let dataLen := Z.of_nat (length data) in
  let dataNonZeroLen := ParseTx.countNonZero data in
  let '(gas, success) :=
    CalcIntrinsicGas env dataLen dataNonZeroLen authorizationsLen accessList
      isContractCreation isHomestead isEIP2028 isEIP3860 in
  if negb success then (0, Some (Is ErrGasUintOverflow)) else (gas, None).

(** One round of the loop over the authorizations of a set-code
    transaction: the world and the verified authorities so far. *)
Definition applyAuthorization (acc : World * list address) (auth : Authorization)
  : World * list address :=
  let '(w, verifiedAuthorities) := acc in
  (* 1. chainId check *)
  if negb (authChainID auth =? 0) &&
     (negb ((0 <=? RulesChainID env) && (RulesChainID env <? U.two64))
      || negb (U.wrap64 (RulesChainID env) =? authChainID auth))
  then acc
  else
  (* 2. authority recover *)
  match RecoverSigner env auth with
  | None => acc
  | Some authority =>
  (* 3. add authority account to accesses_addresses *)
  let verifiedAuthorities := verifiedAuthorities ++ [authority] in
  (* 4. authority code should be empty or already delegated *)
  let codeHash := GetCodeHash env w authority in
  if hasCode codeHash &&
     match GetDelegatedDesignation env w authority with Some _ => false | None => true end
  then (w, verifiedAuthorities)
  else
  (* 5. nonce check *)
  let authorityNonce := GetNonce w authority in
  if negb (authorityNonce =? authNonce auth) then (w, verifiedAuthorities)
  else
  (* 6. refund if authority exists in the trie *)
  let w := if Exist env w authority
           then AddRefund w (U.wrap64 (PerEmptyAccountCost env - PerAuthBaseCost env))
           else w in
  (* 7. set authority code *)
  let w := if authAddress auth =? 0 then SetCode env w authority None
           else SetCode env w authority (Some (authAddress auth)) in
  (* 8. increase the nonce of authority *)
  let w := SetNonce w authority (U.wrap64 (authorityNonce + 1)) in
  (w, verifiedAuthorities)
  end.

Definition refundGas (refundQuotient : Z) (st : StateTransition) : go StateTransition :=
  (* Apply refund counter, capped to half of the used gas. *)
  if refundQuotient =? 0 then Panic PanicDivideByZero
  else
  let refund := gasUsed st / refundQuotient in
  let refund := if GetRefund (theWorld st) <? refund then GetRefund (theWorld st) else refund in
  let st := withGasRemaining st (U.wrap64 (gasRemaining st + refund)) in
  (* Return ETH for remaining gas, exchanged at the original rate. *)
  let remaining := U.mul (gasRemaining st) gasPrice in
  let st := withWorld st (fun w => AddBalance w (From msg) remaining) in
  (* Also return remaining gas to the block gas counter *)
  Ret (withGp st (AddGas (gp st) (gasRemaining st))).

(** [cmath.Min256]. *)
Definition Min256 (x y : Z) : Z := if y <? x then y else x.

(** The effective tip of [innerTransitionDb]. *)
Definition effectiveTipOf : go Z :=
  if IsLondon env then
    match gasFeeCap, BaseFee env with
    | Some feeCap, Some baseFee =>
        if baseFee <? feeCap then Ret (Min256 tip (U.sub feeCap baseFee))
        else Ret 0
    | _, _ => Panic PanicNilDereference
    end
  else Ret gasPrice.

(** The end of [innerTransitionDb], from [effectiveTip := st.gasPrice] on: the
    tip to the coinbase, the burnt base fee, the result, the hook and the
    Optimism vaults. *)
Definition settleFees (ret : list byte) (vmerr : option vmerror)
    (senderInitBalance coinbaseInitBalance : Z) (st : StateTransition)
  : go (StateTransition * ExecutionResult) :=
  let coinbase := Coinbase env in
  effectiveTip ← effectiveTipOf;
  let amount := U.mul (gasUsed st) effectiveTip in
  let st := withWorld st (fun w => AddBalance w coinbase amount) in
  st ← (if negb (IsFree msg) && IsLondon env then
          match GetBurntContract env (BlockNumber env) with
          | Some burntContractAddress =>
              match BaseFee env with
              | None => Panic PanicNilDereference
              | Some baseFee =>
                  let burnAmount := U.mul (gasUsed st) baseFee in
                  let st := withWorld st (fun w => AddBalance w burntContractAddress burnAmount) in
                  if IsAura env && IsPrague env then
                    match BlobFee st with
                    | None => Panic PanicNilDereference
                    | Some blobFee =>
                        Ret (withWorld st (fun w => AddBalance w burntContractAddress blobFee))
                    end
                  else Ret st
              end
          | None => Ret st
          end
        else Ret st);
  let result :=
    mkExecutionResult (gasUsed st)
      (OfVm <$> vmerr)
      (match vmerr with Some ErrExecutionReverted => true | _ => false end)
      ret (Some senderInitBalance) (Some coinbaseInitBalance) (Some amount) in
  let st := match PostApplyMessage env with
            | Some hook => withWorld st (fun w => hook w (From msg) coinbase result)
            | None => st
            end in
  (* Check that we are post bedrock *)
  if IsOptimismBedrock env then
    match BaseFee env with
    | None => Panic PanicNilDereference
    | Some baseFee =>
        let st := withWorld st (fun w =>
                    AddBalance w (OptimismBaseFeeRecipient env) (U.mul (gasUsed st) baseFee)) in
        match L1CostFunc env with
        | None => Panic PanicMissingL1CostFunc
        | Some fn =>
            match fn (RollupCostData msg) (Time env) with
            | Some cost =>
                Ret (withWorld st (fun w => AddBalance w (OptimismL1FeeRecipient env) cost), result)
            | None => Ret (st, result)
            end
        end
    end
  else Ret (st, result).

(** The first part of [innerTransitionDb], up to and including the call of
    the EVM: either the function has returned (a consensus error), or
    execution is over and left its return data and error. *)
Definition executeMessage (gasBailout : bool) (st : StateTransition)
  : go (StateTransition * (error + (list byte * option vmerror))) :=
  '(st, err) ← preCheck gasBailout st;
  match err with
  | Some err => Ret (st, inl err)
  | None =>
  let sender := From msg in
  let contractCreation := match To msg with None => true | Some _ => false end in
  let isEIP3860 := HasEip3860 env in
  let accessTuples := AccessList msg in
  let st := if negb contractCreation
            then withWorld st (fun w => SetNonce w (From msg) (U.wrap64 (GetNonce w sender + 1)))
            else st in
  (* set code tx *)
  let auths := Authorizations msg in
  if (0 <? Z.of_nat (length auths)) && contractCreation then Ret (st, inl ErrType4Creation)
  else
  let '(w, verifiedAuthorities) := fold_left applyAuthorization auths (theWorld st, []) in
  let st := withWorld st (fun _ => w) in
  (* Check clauses 4-5, subtract intrinsic gas if everything is correct *)
  let '(gas, err) :=
    IntrinsicGas data accessTuples contractCreation (IsHomestead env) (IsIstanbul env)
      isEIP3860 (Z.of_nat (length auths)) in
  match err with
  | Some err => Ret (st, inl err)
  | None =>
  if gasRemaining st <? gas then Ret (st, inl (Wrap ErrIntrinsicGas))
  else
  let st := withGasRemaining st (gasRemaining st - gas) in
  (* Gas bailout (for trace_call) *)
  let bailout :=
    gasBailout && negb (Value msg =? 0) &&
    negb (CanTransfer env (theWorld st) (From msg) (Value msg)) in
  (* Check whether the init code size has been exceeded. *)
  if isEIP3860 && contractCreation && (MaxInitCodeSize env <? Z.of_nat (length data))
  then Ret (st, inl (Wrap ErrMaxInitCodeSizeExceeded))
  else
  let st := withWorld st (fun w =>
              Prepare env w (From msg) (Coinbase env) (To msg) accessTuples verifiedAuthorities) in
  let '(ret, gasLeft, vmerr, w) :=
    if contractCreation
    then Create env (theWorld st) sender data (gasRemaining st) value bailout
    else Call env (theWorld st) sender to data (gasRemaining st) value bailout in
  let st := withWorld st (fun _ => w) in
  let st := withGasRemaining st gasLeft in
  Ret (st, inr (ret, vmerr))
  end
  end.

(** [innerTransitionDb]. *)
Definition innerTransitionDb (refunds gasBailout : bool) (st : StateTransition)
  : go (StateTransition * option ExecutionResult * option error) :=
  let coinbase := Coinbase env in
  let senderInitBalance := GetBalance (theWorld st) (From msg) in
  let coinbaseInitBalance := GetBalance (theWorld st) coinbase in
  '(st, r) ← executeMessage gasBailout st;
  match r with
  | inl err => Ret (st, None, Some err)
  | inr (ret, vmerr) =>
  (* if deposit: skip refunds, skip tipping coinbase *)
  if IsDepositTx msg && negb (IsOptimismRegolith env) then
    (* Record deposits as using all their gas (matches the gas pool) *)
    let gasUsed := if IsSystemTx msg then 0 else Gas msg in
    Ret (st, Some (mkExecutionResult gasUsed (OfVm <$> vmerr) false ret None None None), None)
  else
  st ← (if refunds then
          if IsLondon env then refundGas params.RefundQuotientEIP3529 st
          else refundGas params.RefundQuotient st
        else Ret st);
  if IsDepositTx msg && IsOptimismRegolith env then
    (* Skip coinbase payments for deposit tx in Regolith *)
    Ret (st, Some (mkExecutionResult (gasUsed st) (OfVm <$> vmerr) false ret None None None), None)
  else
  '(st, result) ← settleFees ret vmerr senderInitBalance coinbaseInitBalance st;
  Ret (st, Some result, None)
  end.

(** [TransitionDb]. *)
Definition TransitionDb (refunds gasBailout : bool) (st : StateTransition)
  : go (StateTransition * option ExecutionResult * option error) :=
  let st := match Mint msg with
            | Some mint => withWorld st (fun w => AddBalance w (From msg) mint)
            | None => st
            end in
  let '(st, snap) :=
    if IsDepositTx msg then
      let '(s, snap) := Snapshot (state st) in (withState st s, snap)
    else (st, 0) in
  '(st, result, err) ← innerTransitionDb refunds gasBailout st;
  (* Failed deposits must still be included. Unless we cannot produce the
     block at all due to the gas limit. *)
  match err with
  | Some err =>
      if negb (bool_decide (err = Is ErrGasLimitReached)) && IsDepositTx msg then
        s ← RevertToSnapshot (state st) snap;
        let st := withState st s in
        (* always increment the nonce for the next deposit transaction *)
        let st := withWorld st (fun w =>
                    SetNonce w (From msg) (U.wrap64 (GetNonce w (From msg) + 1))) in
        (* Record deposits as using all their gas (matches the gas pool) *)
        let gasUsed := if IsSystemTx msg && negb (ConfigIsOptimismRegolith env (Time env))
                       then 0 else Gas msg in
        let result :=
          mkExecutionResult gasUsed (Some (OfTransition (FailedDeposit err))) false []
            None None None in
        Ret (st, Some result, None)
      else Ret (st, result, Some err)
  | None => Ret (st, result, None)
  end.

End Transition.



Arguments World : clear implicits.
Arguments IntraBlockState : clear implicits.
Arguments StateTransition : clear implicits.
Arguments Env : clear implicits.

Ltac break_hyp H :=
  match type of H with
  | context [match ?x with _ => _ end] =>
      lazymatch x with
      | context [match _ with _ => _ end] => fail
      | _ => destruct x eqn:?
      end
  | context [if ?x then _ else _] =>
      lazymatch x with
      | context [match _ with _ => _ end] => fail
      | context [if _ then _ else _] => fail
      | _ => destruct x eqn:?
      end
  end.

Ltac break_top H :=
  match type of H with
  | match ?x with _ => _ end = _ => destruct x eqn:?
  | (if ?x then _ else _) = _ => destruct x eqn:?
  end.

Lemma bind_Ret_inv {A B} (m : go A) (k : A -> go B) (b : B) :
  (m ≫= k) = Ret b -> exists a, m = Ret a /\ k a = Ret b.
Proof. destruct m as [a|q]; cbn; intros H; [eauto | discriminate]. Qed.

Section TransitionFacts.

Context {Rest : Type}.
Variable env : Env Rest.
Variable msg : Message.

Abbreviation ST := (StateTransition Rest).

(** The revisions of the state are written by [Snapshot] and
    [RevertToSnapshot] alone. *)
Definition sameRevisions (st st' : ST) : Prop :=
  validRevisions (state st') = validRevisions (state st).

Lemma buyGas_revisions gasBailout (st st' : ST) err :
  buyGas env msg gasBailout st = Ret (st', err) -> sameRevisions st st'.
Proof.
  unfold buyGas, sameRevisions. intros H.
  repeat (break_hyp H; try discriminate H).
  all: inversion H; subst; reflexivity.
Qed.

Lemma preCheck_revisions gasBailout (st st' : ST) err :
  preCheck env msg gasBailout st = Ret (st', err) -> sameRevisions st st'.
Proof.
  unfold preCheck. intros H.
  destruct (IsDepositTx msg).
  - repeat (break_hyp H; try discriminate H).
    all: inversion H; subst; reflexivity.
  - break_top H.
    + inversion H; subst; reflexivity.
    + apply bind_Ret_inv in H. destruct H as (feeCheck & _ & H).
      destruct feeCheck; [inversion H; subst; reflexivity|].
      break_top H; [inversion H; subst; reflexivity|].
      apply buyGas_revisions in H. exact H.
Qed.

Lemma refundGas_revisions q (st st' : ST) :
  refundGas msg q st = Ret st' -> sameRevisions st st'.
Proof.
  unfold refundGas, sameRevisions. intros H.
  destruct (q =? 0); [discriminate|]. inversion H. reflexivity.
Qed.

Lemma settleFees_revisions ret vmerr s c (st st' : ST) result :
  settleFees env msg ret vmerr s c st = Ret (st', result) -> sameRevisions st st'.
Proof.
  unfold settleFees, sameRevisions. intros H.
  apply bind_Ret_inv in H. destruct H as (effectiveTip & _ & H).
  apply bind_Ret_inv in H. destruct H as (st1 & H1 & H).
  assert (E1 : validRevisions (state st1) = validRevisions (state st)).
  { repeat (break_hyp H1; try discriminate H1). all: inversion H1; subst; reflexivity. }
  rewrite <- E1. clear H1 E1.
  repeat (break_hyp H; try discriminate H).
  all: inversion H; subst; reflexivity.
Qed.

Lemma executeMessage_revisions gasBailout (st st' : ST) r :
  executeMessage env msg gasBailout st = Ret (st', r) -> sameRevisions st st'.
Proof.
  unfold executeMessage. intros H.
  apply bind_Ret_inv in H. destruct H as ([st1 err] & H1 & H).
  apply preCheck_revisions in H1. unfold sameRevisions in *. rewrite <- H1. clear H1.
  destruct err; [inversion H; subst; reflexivity|].
  repeat (break_hyp H; try discriminate H).
  all: inversion H; subst; reflexivity.
Qed.

Lemma innerTransitionDb_revisions refunds gasBailout (st st' : ST) result err :
  innerTransitionDb env msg refunds gasBailout st = Ret (st', result, err) ->
  sameRevisions st st'.
Proof.
  unfold innerTransitionDb. intros H.
  apply bind_Ret_inv in H. destruct H as ([st1 r] & H1 & H).
  apply executeMessage_revisions in H1. unfold sameRevisions in *. rewrite <- H1. clear H1.
  destruct r as [e|[ret vmerr]]; [inversion H; subst; reflexivity|].
  destruct (IsDepositTx msg && negb (IsOptimismRegolith env));
    [inversion H; subst; reflexivity|].
  apply bind_Ret_inv in H. destruct H as (st2 & H2 & H).
  assert (E2 : validRevisions (state st2) = validRevisions (state st1)).
  { destruct refunds; [|inversion H2; reflexivity].
    destruct (IsLondon env); apply refundGas_revisions in H2; exact H2. }
  rewrite <- E2. clear H2 E2.
  destruct (IsDepositTx msg && IsOptimismRegolith env); [inversion H; subst; reflexivity|].
  apply bind_Ret_inv in H. destruct H as ([st3 res] & H3 & H).
  apply settleFees_revisions in H3. inversion H; subst. exact H3.
Qed.

(** The transition after the mint has been credited, and after the snapshot
    of a deposit has been taken. *)
Definition afterMint (st : ST) : ST :=
  match Mint msg with
  | Some mint => withWorld st (fun w => AddBalance w (From msg) mint)
  | None => st
  end.

Definition afterSnapshot (st : ST) : ST :=
  withState st (fst (Snapshot (state st))).

Lemma RevertToSnapshot_last (revs : list (World Rest)) (w w' : World Rest) :
  RevertToSnapshot (mkIntraBlockState w' (revs ++ [w])) (Z.of_nat (length revs))
  = Ret (mkIntraBlockState w revs).
Proof.
  unfold RevertToSnapshot. cbn [validRevisions].
  assert (H0 : (Z.of_nat (length revs) <? 0) = false) by (apply Z.ltb_ge; lia).
  rewrite H0, Nat2Z.id.
  rewrite (list_lookup_middle revs [] w (length revs) eq_refl).
  rewrite take_app_length. reflexivity.
Qed.

Lemma upd_same (f : address -> Z) a v : upd f a v a = v.
Proof. unfold upd. rewrite Z.eqb_refl. reflexivity. Qed.

Lemma upd_other (f : address -> Z) a b v : b <> a -> upd f a v b = f b.
Proof. unfold upd. intros H. apply Z.eqb_neq in H. rewrite H. reflexivity. Qed.

(** C4: when gas limit times gas price does not fit 256 bits, [buyGas]
    returns the insufficient-funds error (it returns: no panic), and the
    world state, so the sender's balance, and the gas pool are as they were;
    only the scratch integer of the multiplication was written. *)
Theorem C4_buyGas_overflow gasBailout (st : ST) :
  U.two256 <= Gas msg * GasPrice msg ->
  buyGas env msg gasBailout st
  = Ret (withSharedBuyGas st (U.wrap256 (Gas msg * GasPrice msg)),
         Some (Wrap ErrInsufficientFunds)) /\
  state (withSharedBuyGas st (U.wrap256 (Gas msg * GasPrice msg))) = state st /\
  GetBalance (theWorld (withSharedBuyGas st (U.wrap256 (Gas msg * GasPrice msg)))) (From msg)
  = GetBalance (theWorld st) (From msg) /\
  gp (withSharedBuyGas st (U.wrap256 (Gas msg * GasPrice msg))) = gp st.
Proof.
  intros Hov. split; [|repeat split].
  unfold buyGas, U.MulOverflow, gasPrice.
  apply Z.leb_le in Hov. rewrite Hov. reflexivity.
Qed.

(** C1: a deposit transaction whose inner transition returns an error other
    than the gas-limit-reached one.  [TransitionDb] returns no error; the
    world is the one of the snapshot taken after the mint (so the mint is
    kept and everything later is undone) with the sender's nonce incremented,
    by exactly 1 unless the 64-bit counter is at its maximum; and the result
    reports the gas limit as used, or 0 for a system transaction when Regolith
    is not active at the block time. *)
Theorem C1_TransitionDb_failed_deposit refunds gasBailout (st st1 : ST) res e :
  IsDepositTx msg = true ->
  innerTransitionDb env msg refunds gasBailout (afterSnapshot (afterMint st))
    = Ret (st1, res, Some e) ->
  e <> Is ErrGasLimitReached ->
  exists st' : ST,
    TransitionDb env msg refunds gasBailout st
    = Ret (st',
           Some (mkExecutionResult
                   (if IsSystemTx msg && negb (ConfigIsOptimismRegolith env (Time env))
                    then 0 else Gas msg)
                   (Some (OfTransition (FailedDeposit e))) false [] None None None),
           None) /\
    theWorld st' =
      SetNonce (theWorld (afterMint st)) (From msg)
        (U.wrap64 (GetNonce (theWorld (afterMint st)) (From msg) + 1)) /\
    validRevisions (state st') = validRevisions (state st) /\
    (forall a, GetBalance (theWorld st') a = GetBalance (theWorld (afterMint st)) a) /\
    (forall a, a <> From msg ->
       GetNonce (theWorld st') a = GetNonce (theWorld (afterMint st)) a) /\
    GetRefund (theWorld st') = GetRefund (theWorld (afterMint st)) /\
    rest (theWorld st') = rest (theWorld (afterMint st)) /\
    (0 <= GetNonce (theWorld (afterMint st)) (From msg) < U.two64 - 1 ->
     GetNonce (theWorld st') (From msg) = GetNonce (theWorld (afterMint st)) (From msg) + 1).
Proof.
  intros Hdep Hinner Hne.
  pose proof (innerTransitionDb_revisions _ _ _ _ _ _ Hinner) as Hrev.
  unfold sameRevisions in Hrev. cbn in Hrev.
  assert (Hmint : validRevisions (state (afterMint st)) = validRevisions (state st)).
  { unfold afterMint. destruct (Mint msg); reflexivity. }
  assert (Hrun : TransitionDb env msg refunds gasBailout st =
                 (innerTransitionDb env msg refunds gasBailout (afterSnapshot (afterMint st))
                  ≫= fun '(st2, result, err) =>
                       match err with
                       | Some err =>
                           if negb (bool_decide (err = Is ErrGasLimitReached)) && IsDepositTx msg
                           then
                             s ← RevertToSnapshot (state st2)
                                   (Z.of_nat (length (validRevisions (state (afterMint st)))));
                             let st3 := withState st2 s in
                             let st4 := withWorld st3 (fun w =>
                                          SetNonce w (From msg)
                                            (U.wrap64 (GetNonce w (From msg) + 1))) in
                             Ret (st4,
                                  Some (mkExecutionResult
                                          (if IsSystemTx msg &&
                                              negb (ConfigIsOptimismRegolith env (Time env))
                                           then 0 else Gas msg)
                                          (Some (OfTransition (FailedDeposit err))) false []
                                          None None None),
                                  None)
                           else Ret (st2, result, Some err)
                       | None => Ret (st2, result, None)
                       end)).
  { unfold TransitionDb. rewrite Hdep. reflexivity. }
  rewrite Hrun, Hinner. cbn [mbind go_bind].
  rewrite Hdep, andb_true_r.
  rewrite (bool_decide_eq_false_2 _ Hne). cbn [negb].
  destruct st1 as [gp1 gr1 ig1 [w1 revs1] bf1 sb1 sbb1]. cbn in Hrev. subst revs1.
  cbn [state]. rewrite RevertToSnapshot_last. cbn [mbind go_bind].
  eexists. split; [reflexivity|].
  cbn. split; [reflexivity|]. split; [exact Hmint|].
  split; [reflexivity|]. split.
  { intros a Ha. unfold GetNonce. cbn. apply upd_other. exact Ha. }
  split; [reflexivity|]. split; [reflexivity|].
  intros Hn. unfold GetNonce. cbn. rewrite upd_same. apply U.wrap64_small.
  unfold GetNonce in Hn. lia.
Qed.

(** The effective tip in the words of the specification: the gas price
    before the fee market, and after its activation min(tip, feeCap - baseFee)
    when feeCap > baseFee and zero when feeCap <= baseFee. *)
Definition effectiveTipSpec : Z :=
  if IsLondon env then
    match FeeCap msg, BaseFee env with
    | Some feeCap, Some baseFee =>
        if baseFee <? feeCap then Z.min (Tip msg) (feeCap - baseFee) else 0
    | _, _ => 0
    end
  else GasPrice msg.

(** The fee cap and the base fee are 256-bit unsigned integers. *)
Definition feesWellFormed : Prop :=
  (forall feeCap, FeeCap msg = Some feeCap -> U.is_u256 feeCap) /\
  (forall baseFee, BaseFee env = Some baseFee -> U.is_u256 baseFee).

(** No other credit of the fee settlement goes to the coinbase: not the
    burnt base fee, not the post-apply hook, not the Optimism vaults. *)
Definition coinbaseGetsNoOtherCredit : Prop :=
  (IsFree msg = false -> IsLondon env = true ->
   GetBurntContract env (BlockNumber env) <> Some (Coinbase env)) /\
  PostApplyMessage env = None /\
  (IsOptimismBedrock env = true ->
   OptimismBaseFeeRecipient env <> Coinbase env /\ OptimismL1FeeRecipient env <> Coinbase env).

Lemma Min256_min x y : Min256 x y = Z.min x y.
Proof. unfold Min256. destruct (y <? x) eqn:E; [apply Z.ltb_lt in E|apply Z.ltb_ge in E]; lia. Qed.

Lemma effectiveTipOf_spec t :
  feesWellFormed -> effectiveTipOf env msg = Ret t ->
  t = effectiveTipSpec /\
  (IsLondon env = true ->
   exists feeCap baseFee, FeeCap msg = Some feeCap /\ BaseFee env = Some baseFee).
Proof.
  intros [Hf Hb]. unfold effectiveTipOf, effectiveTipSpec, gasFeeCap, tip, gasPrice.
  destruct (IsLondon env).
  - destruct (FeeCap msg) as [feeCap|]; [|discriminate].
    destruct (BaseFee env) as [baseFee|]; [|discriminate].
    specialize (Hf feeCap eq_refl). specialize (Hb baseFee eq_refl).
    unfold U.is_u256 in *.
    destruct (baseFee <? feeCap) eqn:E; intros H; inversion H; (split; [|eauto]).
    + apply Z.ltb_lt in E. rewrite Min256_min. unfold U.sub.
      rewrite U.wrap256_small by lia. reflexivity.
    + reflexivity.
  - intros H. inversion H. split; [reflexivity|discriminate].
Qed.

Lemma GetBalance_AddBalance (w : World Rest) a x b :
  GetBalance (AddBalance w a x) b =
  if b =? a then U.add (GetBalance w a) x else GetBalance w b.
Proof. reflexivity. Qed.

Lemma GetBalance_AddBalance_other (w : World Rest) a x b :
  a <> b -> GetBalance (AddBalance w a x) b = GetBalance w b.
Proof.
  intros H. rewrite GetBalance_AddBalance.
  assert (E : (b =? a) = false) by (apply Z.eqb_neq; congruence).
  rewrite E. reflexivity.
Qed.

Lemma theWorld_withWorld (st : ST) f : theWorld (withWorld st f) = f (theWorld st).
Proof. reflexivity. Qed.

Lemma gasUsed_withWorld (st : ST) f : gasUsed (withWorld st f) = gasUsed st.
Proof. reflexivity. Qed.

Lemma settleFees_coinbase ret vmerr s c (st1 st' : ST) result :
  feesWellFormed -> coinbaseGetsNoOtherCredit ->
  settleFees env msg ret vmerr s c st1 = Ret (st', result) ->
  (IsLondon env = true ->
   exists feeCap baseFee, FeeCap msg = Some feeCap /\ BaseFee env = Some baseFee) /\
  UsedGas result = gasUsed st1 /\
  FeeTipped result = Some (U.mul (UsedGas result) effectiveTipSpec) /\
  CoinbaseInitBalance result = Some c /\
  GetBalance (theWorld st') (Coinbase env)
  = U.add (GetBalance (theWorld st1) (Coinbase env)) (U.mul (UsedGas result) effectiveTipSpec).
Proof.
  intros Hwf (Hburn & Hhook & Hop). unfold settleFees. intros H.
  apply bind_Ret_inv in H. destruct H as (t & Ht & H).
  apply effectiveTipOf_spec in Ht; [|exact Hwf]. destruct Ht as [-> HL].
  apply bind_Ret_inv in H. destruct H as (st2 & H2 & H).
  set (stTip := withWorld st1 (fun w => AddBalance w (Coinbase env)
                                          (U.mul (gasUsed st1) effectiveTipSpec))) in *.
  assert (Hg : gasUsed st2 = gasUsed st1 /\
               GetBalance (theWorld st2) (Coinbase env)
               = U.add (GetBalance (theWorld st1) (Coinbase env))
                   (U.mul (gasUsed st1) effectiveTipSpec)).
  { assert (Htip : GetBalance (theWorld stTip) (Coinbase env)
                   = U.add (GetBalance (theWorld st1) (Coinbase env))
                       (U.mul (gasUsed st1) effectiveTipSpec)).
    { unfold stTip. rewrite theWorld_withWorld, GetBalance_AddBalance, Z.eqb_refl.
      reflexivity. }
    assert (Hgt : gasUsed stTip = gasUsed st1) by reflexivity.
    destruct (negb (IsFree msg) && IsLondon env) eqn:Eb; [|inversion H2; subst st2; auto].
    apply andb_true_iff in Eb. destruct Eb as [Efree Elon].
    apply negb_true_iff in Efree. specialize (Hburn Efree Elon).
    destruct (GetBurntContract env (BlockNumber env)) as [burnt|]; [|inversion H2; subst st2; auto].
    assert (Hb : burnt <> Coinbase env) by congruence.
    destruct (BaseFee env) as [baseFee|]; [|discriminate].
    destruct (IsAura env && IsPrague env).
    - destruct (BlobFee _); [|discriminate]. inversion H2.
      rewrite !gasUsed_withWorld, !theWorld_withWorld.
      rewrite !GetBalance_AddBalance_other by exact Hb. auto.
    - inversion H2.
      rewrite !gasUsed_withWorld, !theWorld_withWorld.
      rewrite GetBalance_AddBalance_other by exact Hb. auto. }
  destruct Hg as [Hg Hbal]. clear H2. rewrite Hhook in H.
  destruct (IsOptimismBedrock env) eqn:Eop.
  - destruct (Hop eq_refl) as [Hop1 Hop2].
    destruct (BaseFee env) as [baseFee|]; [|discriminate].
    destruct (L1CostFunc env) as [fn|]; [|discriminate].
    destruct (fn (RollupCostData msg) (Time env)).
    + inversion H. cbn [UsedGas FeeTipped CoinbaseInitBalance]. rewrite Hg.
      repeat (split; [first [exact HL | reflexivity]|]).
      rewrite !theWorld_withWorld.
      rewrite !GetBalance_AddBalance_other by assumption. exact Hbal.
    + inversion H. cbn [UsedGas FeeTipped CoinbaseInitBalance]. rewrite Hg.
      repeat (split; [first [exact HL | reflexivity]|]).
      rewrite !theWorld_withWorld.
      rewrite GetBalance_AddBalance_other by assumption. exact Hbal.
  - inversion H. subst. cbn [UsedGas FeeTipped CoinbaseInitBalance]. rewrite Hg.
    repeat (split; [first [exact HL | reflexivity]|]).
    exact Hbal.
Qed.

(** C2 (amended): for every non-deposit message whose application returns a
    result, the fee settlement credits the coinbase with exactly gasUsed times
    the effective tip, in 256-bit arithmetic: that product is the result's
    FeeTipped, and the coinbase's balance after the message is its balance
    after execution and gas refund plus that product, provided no other credit
    of the settlement goes to the coinbase.  The effective tip is the gas
    price before London and, after, min(tip, feeCap - baseFee) when feeCap >
    baseFee and 0 otherwise. *)
Theorem C2_coinbase_tip refunds gasBailout (st st' : ST) result :
  IsDepositTx msg = false ->
  feesWellFormed ->
  coinbaseGetsNoOtherCredit ->
  innerTransitionDb env msg refunds gasBailout st = Ret (st', Some result, None) ->
  exists (stExec st1 : ST) ret vmerr,
    executeMessage env msg gasBailout st = Ret (stExec, inr (ret, vmerr)) /\
    (if refunds
     then refundGas msg (if IsLondon env then params.RefundQuotientEIP3529
                         else params.RefundQuotient) stExec
     else Ret stExec) = Ret st1 /\
    (IsLondon env = true ->
     exists feeCap baseFee, FeeCap msg = Some feeCap /\ BaseFee env = Some baseFee) /\
    UsedGas result = gasUsed st1 /\
    FeeTipped result = Some (U.mul (UsedGas result) effectiveTipSpec) /\
    CoinbaseInitBalance result = Some (GetBalance (theWorld st) (Coinbase env)) /\
    GetBalance (theWorld st') (Coinbase env)
    = U.add (GetBalance (theWorld st1) (Coinbase env)) (U.mul (UsedGas result) effectiveTipSpec).
Proof.
  intros Hdep Hwf Hframe. unfold innerTransitionDb. rewrite Hdep. cbn [andb].
  intros H. apply bind_Ret_inv in H. destruct H as ([stExec r] & Hexec & H).
  destruct r as [e|[ret vmerr]]; [discriminate|].
  apply bind_Ret_inv in H. destruct H as (st1 & Href & H).
  apply bind_Ret_inv in H. destruct H as ([st2 res] & Hset & H).
  inversion H. subst st2 res.
  exists stExec, st1, ret, vmerr. split; [exact Hexec|]. split.
  { destruct refunds; [|exact Href]. destruct (IsLondon env); exact Href. }
  pose proof (settleFees_coinbase _ _ _ _ _ _ _ Hwf Hframe Hset) as (A & B & C & D & E).
  auto.
Qed.

End TransitionFacts.

(** *** A small chain for the examples

    Coinbase 7, base fee 10, an EVM whose calls use no gas and change
    nothing, an intrinsic gas of 21000 for every message, and a world in which
    the accounts 5 and 7 hold 1000000 each. *)
Definition demoEnv (london regolith : bool) : Env unit := {|
  Coinbase := 7;
  BaseFee := Some 10;
  Time := 0;
  BlockNumber := 1;
  ExcessBlobGas := None;
  L1CostFunc := None;
  CanTransfer := fun w a v => v <=? balance w a;
  PostApplyMessage := None;
  IsHomestead := true;
  IsIstanbul := true;
  IsLondon := london;
  IsCancun := false;
  IsPrague := false;
  IsAura := false;
  IsOptimismBedrock := false;
  IsOptimismRegolith := regolith;
  RulesChainID := 10;
  NoBaseFee := false;
  HasEip3860 := true;
  ConfigIsOptimismRegolith := fun _ => regolith;
  GetBurntContract := fun _ => None;
  GetBlobGasPrice := fun _ => inl 1;
  CalcIntrinsicGas := fun _ _ _ _ _ _ _ _ => (21000, true);
  Call := fun w _ _ _ g _ _ => ([], g, None, w);
  Create := fun w _ _ g _ _ => ([], g, None, w);
  GetCodeHash := fun _ _ => 0;
  GetDelegatedDesignation := fun _ _ => None;
  Exist := fun _ _ => false;
  SetCode := fun w _ _ => w;
  Prepare := fun w _ _ _ _ _ => w;
  RecoverSigner := fun _ => None;
  emptyCodeHash := 1;
  PerEmptyAccountCost := 25000;
  PerAuthBaseCost := 12500;
  MaxInitCodeSize := 49152;
  OptimismBaseFeeRecipient := 100;
  OptimismL1FeeRecipient := 101
|}.

Definition demoWorld : World unit :=
  mkWorld (fun a => if (a =? 5) || (a =? 7) then 1000000 else 0) (fun _ => 0) 0 tt.

Definition demoState : StateTransition unit :=
  mkStateTransition (mkGasPool 30000000 0) 0 0 (mkIntraBlockState demoWorld []) None 0 0.

(** A transfer of the account [from] to account 8: gas limit 21000, fee cap
    12, tip 2, so a gas price of 12 over the base fee of 10. *)
Definition transferFrom (from : address) : Message :=
  mkMessage from (Some 8) 12 (Some 12) 2 21000 0 0 0 None false false
    ParseTx.zeroRollupCostData 0 true [] [] [] [] false.

(** A deposit of account 5 that mints 3 and sends 10 from an account that,
    here, is given no balance of its own: the value is not covered. *)
Definition depositOf (from : address) (systemTx : bool) : Message :=
  mkMessage from (Some 8) 0 (Some 0) 0 50000 0 0 10 (Some 3) systemTx true
    ParseTx.zeroRollupCostData 0 false [] [] [] [] false.

(** A message whose gas limit times gas price needs more than 256 bits. *)
Definition overflowMsg : Message :=
  mkMessage 5 (Some 8) (2 ^ 255) (Some (2 ^ 255)) 0 (2 ^ 63) 0 0 0 None false false
    ParseTx.zeroRollupCostData 0 true [] [] [] [] false.

(** What a run shows of itself: the coinbase's balance, the sender's nonce,
    the gas pool, and the result. *)
Definition observe (env : Env unit) (msg : Message)
    (r : go (StateTransition unit * option ExecutionResult * option error))
  : option (Z * Z * Z * option (Z * option Z * option Z) * option error) :=
  match r with
  | Ret (st, res, err) =>
      Some (GetBalance (theWorld st) (Coinbase env), GetNonce (theWorld st) (From msg),
            gas (gp st),
            (fun r => (UsedGas r, FeeTipped r, CoinbaseInitBalance r)) <$> res, err)
  | Panic _ => None
  end.

Example transfer_from_5 :
  observe (demoEnv true false) (transferFrom 5)
    (TransitionDb (demoEnv true false) (transferFrom 5) true false demoState)
  = Some (1042000, 1, 29979000, Some (21000, Some 42000, Some 1000000), None).
Proof. vm_compute. reflexivity. Qed.

Example failed_deposit_of_9 :
  observe (demoEnv true true) (depositOf 9 false)
    (TransitionDb (demoEnv true true) (depositOf 9 false) true false demoState)
  = Some (1000000, 1, 30000000, Some (50000, None, None), None).
Proof. vm_compute. reflexivity. Qed.

(** C2 (as stated, refuted): a non-deposit, non-free message after London
    whose sender is the coinbase itself.  The transition uses 21000 gas at an
    effective tip of min(2, 12 - 10) = 2 and tips 42000, yet the coinbase,
    which held 1000000, ends with 790000, not with 1042000: it paid its own
    gas. *)
Lemma C2_coinbase_is_sender :
  IsDepositTx (transferFrom 7) = false /\
  IsFree (transferFrom 7) = false /\
  IsLondon (demoEnv true false) = true /\
  Coinbase (demoEnv true false) = From (transferFrom 7) /\
  observe (demoEnv true false) (transferFrom 7)
    (TransitionDb (demoEnv true false) (transferFrom 7) true false demoState)
  = Some (790000, 1, 29979000, Some (21000, Some (21000 * 2), Some 1000000), None) /\
  790000 <> 1000000 + 21000 * 2.
Proof. vm_compute. repeat split; try reflexivity. discriminate. Qed.

Definition runOf (env : Env unit) (msg : Message) : StateTransition unit * ExecutionResult :=
  match innerTransitionDb env msg true false demoState with
  | Ret (st, Some res, _) => (st, res)
  | _ => (demoState, mkExecutionResult 0 None false [] None None None)
  end.

Lemma C2_coinbase_tip_witness :
  exists (stExec st1 : StateTransition unit) ret vmerr,
    executeMessage (demoEnv true false) (transferFrom 5) false demoState
      = Ret (stExec, inr (ret, vmerr)) /\
    refundGas (transferFrom 5) params.RefundQuotientEIP3529 stExec = Ret st1 /\
    (IsLondon (demoEnv true false) = true ->
     exists feeCap baseFee,
       FeeCap (transferFrom 5) = Some feeCap /\ BaseFee (demoEnv true false) = Some baseFee) /\
    UsedGas (snd (runOf (demoEnv true false) (transferFrom 5))) = gasUsed st1 /\
    FeeTipped (snd (runOf (demoEnv true false) (transferFrom 5)))
    = Some (U.mul (UsedGas (snd (runOf (demoEnv true false) (transferFrom 5))))
              (effectiveTipSpec (demoEnv true false) (transferFrom 5))) /\
    CoinbaseInitBalance (snd (runOf (demoEnv true false) (transferFrom 5)))
    = Some (GetBalance (theWorld demoState) (Coinbase (demoEnv true false))) /\
    GetBalance (theWorld (fst (runOf (demoEnv true false) (transferFrom 5))))
      (Coinbase (demoEnv true false))
    = U.add (GetBalance (theWorld st1) (Coinbase (demoEnv true false)))
        (U.mul (UsedGas (snd (runOf (demoEnv true false) (transferFrom 5))))
           (effectiveTipSpec (demoEnv true false) (transferFrom 5))).
Proof.
  apply (C2_coinbase_tip (demoEnv true false) (transferFrom 5) true false demoState
           (fst (runOf (demoEnv true false) (transferFrom 5)))
           (snd (runOf (demoEnv true false) (transferFrom 5)))).
  - reflexivity.
  - split; intros x Hx; inversion Hx; subst x; unfold U.is_u256, U.two256; lia.
  - split; [|split].
    + intros _ _. vm_compute. discriminate.
    + reflexivity.
    + vm_compute. discriminate.
  - vm_compute. reflexivity.
Defined.

Lemma C4_buyGas_overflow_witness :
  buyGas (demoEnv true false) overflowMsg false demoState
  = Ret (withSharedBuyGas demoState (U.wrap256 (Gas overflowMsg * GasPrice overflowMsg)),
         Some (Wrap ErrInsufficientFunds)) /\
  state (withSharedBuyGas demoState (U.wrap256 (Gas overflowMsg * GasPrice overflowMsg)))
  = state demoState /\
  GetBalance (theWorld (withSharedBuyGas demoState
                          (U.wrap256 (Gas overflowMsg * GasPrice overflowMsg))))
    (From overflowMsg)
  = GetBalance (theWorld demoState) (From overflowMsg) /\
  gp (withSharedBuyGas demoState (U.wrap256 (Gas overflowMsg * GasPrice overflowMsg)))
  = gp demoState.
Proof.
  apply (C4_buyGas_overflow (demoEnv true false) overflowMsg false demoState).
  vm_compute. discriminate.
Defined.

Definition failedInner (env : Env unit) (msg : Message) : StateTransition unit :=
  match innerTransitionDb env msg true false (afterSnapshot (afterMint msg demoState)) with
  | Ret (st, _, _) => st
  | Panic _ => demoState
  end.

Lemma C1_TransitionDb_failed_deposit_witness :
  exists st' : StateTransition unit,
    TransitionDb (demoEnv true true) (depositOf 9 false) true false demoState
    = Ret (st',
           Some (mkExecutionResult
                   (if IsSystemTx (depositOf 9 false) &&
                       negb (ConfigIsOptimismRegolith (demoEnv true true) (Time (demoEnv true true)))
                    then 0 else Gas (depositOf 9 false))
                   (Some (OfTransition (FailedDeposit (Wrap ErrInsufficientFunds)))) false []
                   None None None),
           None) /\
    theWorld st' =
      SetNonce (theWorld (afterMint (depositOf 9 false) demoState)) (From (depositOf 9 false))
        (U.wrap64 (GetNonce (theWorld (afterMint (depositOf 9 false) demoState))
                     (From (depositOf 9 false)) + 1)) /\
    validRevisions (state st') = validRevisions (state demoState) /\
    (forall a, GetBalance (theWorld st') a
               = GetBalance (theWorld (afterMint (depositOf 9 false) demoState)) a) /\
    (forall a, a <> From (depositOf 9 false) ->
       GetNonce (theWorld st') a
       = GetNonce (theWorld (afterMint (depositOf 9 false) demoState)) a) /\
    GetRefund (theWorld st') = GetRefund (theWorld (afterMint (depositOf 9 false) demoState)) /\
    rest (theWorld st') = rest (theWorld (afterMint (depositOf 9 false) demoState)) /\
    (0 <= GetNonce (theWorld (afterMint (depositOf 9 false) demoState)) (From (depositOf 9 false))
       < U.two64 - 1 ->
     GetNonce (theWorld st') (From (depositOf 9 false))
     = GetNonce (theWorld (afterMint (depositOf 9 false) demoState)) (From (depositOf 9 false)) + 1).
Proof.
  apply (C1_TransitionDb_failed_deposit (demoEnv true true) (depositOf 9 false) true false
           demoState (failedInner (demoEnv true true) (depositOf 9 false)) None
           (Wrap ErrInsufficientFunds)).
  - reflexivity.
  - vm_compute. reflexivity.
  - discriminate.
Defined.

End Core.

(** ** The versioned domain (erigon-lib/state/domain.go) *)

Module State.

Import Bytes.

(** A Go byte slice used as a value: nil, or a sequence of bytes that may be
    empty.  [bytes.Equal] and [len] do not tell nil from empty. *)
Definition slice : Type := option (list byte).

Definition content (s : slice) : list byte := default [] s.
Definition slen (s : slice) : Z := Z.of_nat (length (content s)).
Definition bytesEqual (a b : slice) : bool := Bytes.eqb (content a) (content b).

(** [binary.BigEndian.PutUint64]. *)
Definition be8 (x : Z) : list byte :=
  [of_Z (x / 2 ^ 56); of_Z (x / 2 ^ 48); of_Z (x / 2 ^ 40); of_Z (x / 2 ^ 32);
   of_Z (x / 2 ^ 24); of_Z (x / 2 ^ 16); of_Z (x / 2 ^ 8); of_Z x].

(** [^x] on [uint64]. *)
Definition inv64 (x : Z) : Z := U.two64 - 1 - U.wrap64 x.

(** *** The key-value transaction

    Package kv is outside the embedded files.  A transaction is the content
    of the domain's two tables: the keys table (DupSort: a key holds a set of
    8-byte inverted steps, kept here as the numbers they encode, whose order
    is the order of the encodings) and the values table.  The operations of
    the store are taken not to fail. *)
Record Tx := mkTx {
  keysTable : gmap (list byte) (list Z);
  valsTable : gmap (list byte) (list byte)
}.

(** The least element of [l] that is at least [v]. *)
Fixpoint seekGE (l : list Z) (v : Z) : option Z :=
  match l with
  | [] => None
  | x :: l =>
      match seekGE l v with
      | None => if v <=? x then Some x else None
      | Some y => if (v <=? x) && (x <? y) then Some x else Some y
      end
  end.

(** [CursorDupSort.SeekBothRange(key, value)]: at [key], the least duplicate
    that is at least [value]; nothing when there is none. *)
Definition SeekBothRange (tx : Tx) (key : list byte) (v : Z) : option Z :=
  seekGE (default [] (keysTable tx !! key)) v.

(** [GetOne] on the values table: nil when the key is absent. *)
Definition GetOne (tx : Tx) (k : list byte) : slice := valsTable tx !! k.

(** [Put] on the keys table adds a duplicate, on the values table it sets the
    value; [Delete] removes the key. *)
Definition PutKey (tx : Tx) (key : list byte) (v : Z) : Tx :=
  let l := default [] (keysTable tx !! key) in
  mkTx (if bool_decide (v ∈ l) then keysTable tx else <[key := v :: l]> (keysTable tx))
       (valsTable tx).

Definition PutVal (tx : Tx) (k : list byte) (v : list byte) : Tx :=
  mkTx (keysTable tx) (<[k := v]> (valsTable tx)).

Definition DeleteVal (tx : Tx) (k : list byte) : Tx :=
  mkTx (keysTable tx) (delete k (valsTable tx)).

(** *** Files *)

Inductive error : Set :=
  | ErrSeek (code : Z)      (* an error of BtIndex.Seek *)
  | ErrHistory (code : Z)   (* an error of the history layer *)
  | ErrRoTxNil.             (* "roTx is nil" *)

(** [BtIndex], as far as the domain reads it: whether it is empty, and the
    first pair whose key is not below the one sought (nil past the end). *)
Record BtIndex := mkBtIndex {
  Empty : bool;
  Seek : list byte -> option (list byte * slice) + error
}.

(** [filesItem]: the fields of the file's lifecycle and its range index.
    [removed] records that [closeFilesAndRemove] has run. *)
Record filesItem := mkFilesItem {
  frozen : bool;
  refcount : Z;
  canDelete : bool;
  bindex : option BtIndex;
  removed : bool
}.

(** [ctxItem]: [src] points to the [filesItem]. *)
Record ctxItem := mkCtxItem {
  startTxNum : Z;
  endTxNum : Z;
  src : nat
}.

(** The [filesItem] objects behind their pointers. *)
Abbreviation Heap := (gmap nat filesItem).

(** [atomic.Int32.Add]. *)
Definition wrapInt32 (x : Z) : Z := (x + 2 ^ 31) mod 2 ^ 32 - 2 ^ 31.

(** Modelled from the spec: [filesItem.closeFilesAndRemove] (files_item.go is
    not among the embedded files): "deleted when its reference count reaches
    zero and it is marked deletable"; the handles are closed and the file is
    gone. *)
Definition closeFilesAndRemove (f : filesItem) : filesItem :=
  mkFilesItem (frozen f) (refcount f) (canDelete f) None true.

(** The body of the loop of [BeginFilesRo], on the object [item.src]. *)
Definition acquire (f : filesItem) : filesItem :=
  if negb (frozen f)
  then mkFilesItem (frozen f) (wrapInt32 (refcount f + 1)) (canDelete f) (bindex f) (removed f)
  else f.

(** The body of the loop of [DomainRoTx.Close]. *)
Definition release (f : filesItem) : filesItem :=
  if frozen f then f
  else
    let refCnt := wrapInt32 (refcount f - 1) in
    let f := mkFilesItem (frozen f) refCnt (canDelete f) (bindex f) (removed f) in
    (* GC: last reader responsible to remove useles files: close it and delete *)
    if (refCnt =? 0) && canDelete f then closeFilesAndRemove f else f.

(** [Domain.BeginFilesRo], the domain's own files: the captured list and the
    heap after the loop. *)
Definition BeginFilesRo (heap : Heap) (visibleFiles : list ctxItem) : Heap * list ctxItem :=
  (foldl (fun h item => alter acquire (src item) h) heap visibleFiles, visibleFiles).

(** [DomainRoTx.Close], the loop over the domain's own files. *)
Definition Close (heap : Heap) (files : list ctxItem) : Heap :=
  foldl (fun h item => alter release (src item) h) heap files.

(** *** The domain *)

Record DomainStats := mkDomainStats {
  TotalQueries : Z;
  HistoryQueries : Z
}.

(** Modelled from the spec: the History layer's [AddPrevValue] (history.go
    is not among the embedded files): "the old value is captured and forwarded
    to the History layer as the previous-value record", at the domain's
    current transaction number. *)
Record prevValue := mkPrevValue {
  pv_txNum : Z;
  pv_key1 : list byte;
  pv_key2 : list byte;
  pv_original : slice
}.

(** [Domain]: the step size and transaction number of the embedded
    [History], the read-write transaction [d.tx], the previous values handed
    to the history, the statistics, the files and the files of [defaultDc]
    (nil before [StartWrites]). *)
Record Domain := mkDomain {
  aggregationStep : Z;
  txNum : Z;
  tx : Tx;
  history : list prevValue;
  stats : DomainStats;
  heap : Heap;
  defaultDc : option (list ctxItem)
}.

Definition withTx (d : Domain) (x : Tx) : Domain :=
  mkDomain (aggregationStep d) (txNum d) x (history d) (stats d) (heap d) (defaultDc d).
Definition withHistory (d : Domain) (x : list prevValue) : Domain :=
  mkDomain (aggregationStep d) (txNum d) (tx d) x (stats d) (heap d) (defaultDc d).
Definition withStats (d : Domain) (x : DomainStats) : Domain :=
  mkDomain (aggregationStep d) (txNum d) (tx d) (history d) x (heap d) (defaultDc d).

Definition addTotalQueries (d : Domain) : Domain :=
  withStats d (mkDomainStats (U.wrap64 (TotalQueries (stats d) + 1)) (HistoryQueries (stats d))).
Definition addHistoryQueries (d : Domain) : Domain :=
  withStats d (mkDomainStats (TotalQueries (stats d)) (U.wrap64 (HistoryQueries (stats d) + 1))).

Definition AddPrevValue (d : Domain) (key1 key2 : list byte) (original : slice) : Domain :=
  withHistory d (history d ++ [mkPrevValue (txNum d) key1 key2 original]).

(** [statelessBtree(i)]: the range index of the file, a nil pointer when the
    file has been closed. *)
Definition statelessBtree (h : Heap) (item : ctxItem) : go BtIndex :=
  match h !! src item with
  | Some f => match bindex f with
              | Some r => Ret r
              | None => Panic PanicNilDereference
              end
  | None => Panic PanicNilDereference
  end.

(** The loop of [readFromFiles], over the files from the last to the first. *)
Fixpoint readFromFilesLoop (h : Heap) (filesRev : list ctxItem) (filekey : list byte)
    (fromTxNum : Z) : go (slice * bool * option error) :=
  match filesRev with
  | [] => Ret (None, false, None)
  | item :: filesRev =>
      if endTxNum item <? fromTxNum then Ret (None, false, None)
      else
        reader ← statelessBtree h item;
        if Empty reader then readFromFilesLoop h filesRev filekey fromTxNum
        else match Seek reader filekey with
             | inr err => Ret (None, false, Some err)
             | inl None => readFromFilesLoop h filesRev filekey fromTxNum
             | inl (Some (k, v)) =>
                 if Bytes.eqb k filekey then Ret (v, true, None)
                 else readFromFilesLoop h filesRev filekey fromTxNum
             end
  end.

Definition readFromFiles (h : Heap) (files : list ctxItem) (filekey : list byte)
    (fromTxNum : Z) : go (slice * bool * option error) :=
  readFromFilesLoop h (rev files) filekey fromTxNum.

(** [DomainRoTx.get].  The key and the inverted step found are copied into
    [keyBuf], 60 bytes: a key of more than 52 bytes panics there. *)
Definition get (d : Domain) (files : list ctxItem) (key : list byte) (fromTxNum : Z)
    (roTx : Tx) : go (Domain * (slice * bool * option error)) :=
  let d := addTotalQueries d in
  if aggregationStep d =? 0 then Panic PanicDivideByZero
  else
  let invertedStep := inv64 (fromTxNum / aggregationStep d) in
  match SeekBothRange roTx key invertedStep with
  | None =>
      let d := addHistoryQueries d in
      r ← readFromFiles (heap d) files key fromTxNum;
      Ret (d, r)
  | Some foundInvStep =>
      if 52 <? Z.of_nat (length key) then Panic PanicIndexOutOfRange
      else
        let v := GetOne roTx (key ++ be8 foundInvStep) in
        Ret (d, (v, true, None))
  end.

(** [Domain.update]. *)
Definition update (d : Domain) (key : list byte) : go Domain :=
  if aggregationStep d =? 0 then Panic PanicDivideByZero
  else
    let invertedStep := inv64 (txNum d / aggregationStep d) in
    Ret (withTx d (PutKey (tx d) key invertedStep)).

(** [Domain.Put]. *)
Definition Put (key1 key2 : list byte) (val : slice) (d : Domain) : go (Domain * option error) :=
  let key := key1 ++ key2 in
  match defaultDc d with
  | None => Panic PanicNilDereference
  | Some files =>
      '(d, (original, _, err)) ← get d files key (txNum d) (tx d);
      match err with
      | Some err => Ret (d, Some err)
      | None =>
          if bytesEqual original val then Ret (d, None)
          else
            (* the history first, then the new value *)
            let d := AddPrevValue d key1 key2 original in
            d ← update d key;
            let invertedStep := inv64 (txNum d / aggregationStep d) in
            let keySuffix := key ++ be8 invertedStep in
            Ret (withTx d (PutVal (tx d) keySuffix (content val)), None)
      end
  end.

(** [Domain.Delete]. *)
Definition Delete (key1 key2 : list byte) (d : Domain) : go (Domain * option error) :=
  let key := key1 ++ key2 in
  match defaultDc d with
  | None => Panic PanicNilDereference
  | Some files =>
      '(d, (original, found, err)) ← get d files key (txNum d) (tx d);
      match err with
      | Some err => Ret (d, Some err)
      | None =>
          if negb found then Ret (d, None)
          else
            let d := AddPrevValue d key1 key2 original in
            d ← update d key;
            let invertedStep := inv64 (txNum d / aggregationStep d) in
            let keySuffix := key ++ be8 invertedStep in
            Ret (withTx d (DeleteVal (tx d) keySuffix), None)
      end
  end.

(** [HistoryRoTx], as far as the domain asks it (history.go is not among the
    embedded files): [GetNoState] over the history files, the files of the
    inverted index, and [getNoStateFromDB] over the recent history. *)
Record HistoryRoTx := mkHistoryRoTx {
  GetNoState : list byte -> Z -> (slice * bool) + error;
  iitFiles : list ctxItem;
  getNoStateFromDB : list byte -> Z -> Tx -> (slice * bool) + error
}.

(** [DomainRoTx]. *)
Record DomainRoTx := mkDomainRoTx {
  files : list ctxItem;
  ht : HistoryRoTx
}.

(** The first loop of [historyBeforeTxNum]: the first file of the inverted
    index that ends at or after [txNum]. *)
Fixpoint topStateOf (iit : list ctxItem) (txNum : Z) : option ctxItem :=
  match iit with
  | [] => None
  | item :: iit => if endTxNum item <? txNum then topStateOf iit txNum else Some item
  end.

(** The second loop of [historyBeforeTxNum], over the value files from the
    last to the first. *)
Fixpoint valueFilesLoop (h : Heap) (filesRev : list ctxItem) (topState : ctxItem)
    (key : list byte) : go (slice * option error) :=
  match filesRev with
  | [] => Ret (None, None)
  | item :: filesRev =>
      if startTxNum topState <? startTxNum item then valueFilesLoop h filesRev topState key
      else
        reader ← statelessBtree h item;
        if Empty reader then valueFilesLoop h filesRev topState key
        else match Seek reader key with
             | inr err => Ret (None, Some err)
             | inl None => valueFilesLoop h filesRev topState key
             | inl (Some (k, v)) =>
                 if Bytes.eqb k key then Ret (v, None)
                 else valueFilesLoop h filesRev topState key
             end
  end.

(** [historyBeforeTxNum] searches history for a value of specified key before
    txNum. *)
Definition historyBeforeTxNum (d : Domain) (dt : DomainRoTx) (key : list byte) (txNum : Z)
    (roTx : option Tx) : go (Domain * (slice * bool * option error)) :=
  let d := addHistoryQueries d in
  match GetNoState (ht dt) key txNum with
  | inr err => Ret (d, (None, false, Some err))
  | inl (v, true) => Ret (d, (v, true, None))
  | inl (_, false) =>
      match topStateOf (iitFiles (ht dt)) txNum with
      | Some topState =>
          (* If there were no changes but there were history files, the value
             can be obtained from value files *)
          '(val, err) ← valueFilesLoop (heap d) (rev (files dt)) topState key;
          match err with
          | Some err => Ret (d, (None, false, Some err))
          | None => Ret (d, (val, true, None))
          end
      | None =>
          (* Value not found in history files, look in the recent history *)
          match roTx with
          | None => Ret (d, (None, false, Some ErrRoTxNil))
          | Some roTx =>
              match getNoStateFromDB (ht dt) key txNum roTx with
              | inr err => Ret (d, (None, false, Some err))
              | inl (v, found) => Ret (d, (v, found, None))
              end
          end
      end
  end.

(** [GetBeforeTxNum]. *)
Definition GetBeforeTxNum (d : Domain) (dt : DomainRoTx) (key : list byte) (txNum : Z)
    (roTx : option Tx) : go (Domain * (slice * option error)) :=
  '(d, (v, hOk, err)) ← historyBeforeTxNum d dt key txNum roTx;
  match err with
  | Some err => Ret (d, (None, Some err))
  | None =>
      if (hOk : bool) then
        (* if history returned marker of key creation domain must return nil *)
        if slen v =? 0 then Ret (d, (None, None))
        else Ret (d, (v, None))
      else
        match roTx with
        | None => Panic PanicNilDereference
        | Some roTx =>
            '(d, (v, _, err)) ← get d (files dt) key (U.wrap64 (txNum - 1)) roTx;
            match err with
            | Some err => Ret (d, (None, Some err))
            | None => Ret (d, (v, None))
            end
        end
  end.



(** What a query returns, without the domain. *)
Definition answer {A} (r : go (Domain * A)) : option A :=
  match r with
  | Ret (_, a) => Some a
  | Panic _ => None
  end.

(** *** A domain with two steps in files

    Steps of 16 transactions.  The key "k" was written once, at transaction 5;
    both steps have been collated (value files and inverted-index files
    [0,16) and [16,32)) and pruned from the tables.  The first value file
    holds "k" -> "v", the second one does not hold "k".  No history record of
    "k" exists at or after transaction 20. *)
Definition keyK : list byte := [Byte.x6b].
Definition valV : slice := Some [Byte.x76].

Definition fileWithK : filesItem :=
  mkFilesItem false 0 false
    (Some (mkBtIndex false (fun _ => inl (Some (keyK, valV))))) false.
Definition fileWithoutK : filesItem :=
  mkFilesItem false 0 false (Some (mkBtIndex false (fun _ => inl None))) false.

Definition twoFiles : list ctxItem := [mkCtxItem 0 16 0; mkCtxItem 16 32 1].

Definition emptyTx : Tx := mkTx ∅ ∅.

Definition collated : Domain :=
  mkDomain 16 40 emptyTx [] (mkDomainStats 0 0)
    (<[0%nat := fileWithK]> (<[1%nat := fileWithoutK]> ∅)) (Some twoFiles).

Definition noHistory : HistoryRoTx :=
  mkHistoryRoTx (fun _ _ => inl (None, false)) twoFiles (fun _ _ _ => inl (None, false)).

Definition collatedRoTx : DomainRoTx := mkDomainRoTx twoFiles noHistory.






(** The four cases of C5 on the collated domain: a record in the history
    files, the value files, a record in the db, and the domain itself. *)
Example GetBeforeTxNum_cases :
  let found := mkHistoryRoTx (fun _ _ => inl (Some [], true)) twoFiles
                 (fun _ _ _ => inl (None, false)) in
  let inDb := mkHistoryRoTx (fun _ _ => inl (None, false)) []
                (fun _ _ _ => inl (Some [Byte.x70], true)) in
  let nowhere := mkHistoryRoTx (fun _ _ => inl (None, false)) []
                   (fun _ _ _ => inl (None, false)) in
  let written := mkTx {[ keyK := [inv64 0] ]} {[ keyK ++ be8 (inv64 0) := [Byte.x77] ]} in
  answer (GetBeforeTxNum collated (mkDomainRoTx twoFiles found) keyK 20 (Some emptyTx))
    = Some (None, None) /\
  answer (GetBeforeTxNum collated collatedRoTx keyK 20 None) = Some (valV, None) /\
  answer (GetBeforeTxNum collated (mkDomainRoTx twoFiles inDb) keyK 20 (Some emptyTx))
    = Some (Some [Byte.x70], None) /\
  answer (GetBeforeTxNum collated (mkDomainRoTx twoFiles nowhere) keyK 20 (Some written))
    = Some (Some [Byte.x77], None) /\
  answer (GetBeforeTxNum collated (mkDomainRoTx twoFiles nowhere) keyK 20 None)
    = Some (None, Some ErrRoTxNil).
Proof. repeat split; vm_compute; reflexivity. Qed.


(** *** Put *)

Lemma seekGE_ge l v y : seekGE l v = Some y -> v <= y.
Proof.
  revert y. induction l as [|x l IH]; cbn; [discriminate|].
  intros y. destruct (seekGE l v) as [y0|].
  - specialize (IH y0 eq_refl).
    destruct ((v <=? x) && (x <? y0)) eqn:E; intros H; inversion H; subst.
    + apply andb_true_iff in E. destruct E as [E _]. apply Z.leb_le in E. exact E.
    + exact IH.
  - destruct (v <=? x) eqn:E; intros H; inversion H; subst.
    apply Z.leb_le in E. exact E.
Qed.

Lemma seekGE_elem l v : v ∈ l -> seekGE l v = Some v.
Proof.
  induction l as [|x l IH]; [intros H; inversion H|].
  intros H. apply elem_of_cons in H. cbn.
  destruct (seekGE l v) as [y|] eqn:Ey.
  - pose proof (seekGE_ge _ _ _ Ey) as Hge.
    destruct H as [<-|H].
    + rewrite Z.leb_refl. cbn [andb].
      destruct (v <? y) eqn:E; [reflexivity|].
      apply Z.ltb_ge in E. f_equal. lia.
    + specialize (IH H). inversion IH. subst y.
      destruct ((v <=? x) && (x <? v)) eqn:E; [|reflexivity].
      apply andb_true_iff in E. destruct E as [E1 E2].
      apply Z.leb_le in E1. apply Z.ltb_lt in E2. lia.
  - destruct H as [<-|H].
    + rewrite Z.leb_refl. reflexivity.
    + specialize (IH H). discriminate.
Qed.

Lemma SeekBothRange_PutKey tx0 key v : SeekBothRange (PutKey tx0 key v) key v = Some v.
Proof.
  unfold SeekBothRange, PutKey. cbn [keysTable].
  destruct (bool_decide (v ∈ default [] (keysTable tx0 !! key))) eqn:E.
  - apply bool_decide_eq_true in E. apply seekGE_elem. exact E.
  - rewrite lookup_insert_eq. cbn [default]. apply seekGE_elem. apply elem_of_cons. left.
    reflexivity.
Qed.

Lemma GetOne_PutVal tx0 k v : GetOne (PutVal tx0 k v) k = Some v.
Proof. unfold GetOne, PutVal. cbn [valsTable]. apply lookup_insert_eq. Qed.

Lemma bytesEqual_content val : bytesEqual (Some (content val)) val = true.
Proof. unfold bytesEqual. cbn [content default]. apply Bytes.eqb_refl. Qed.

(** Two domains that differ in their statistics at most. *)
Definition sameButStats (d d' : Domain) : Prop :=
  aggregationStep d' = aggregationStep d /\
  txNum d' = txNum d /\
  tx d' = tx d /\
  history d' = history d /\
  heap d' = heap d /\
  defaultDc d' = defaultDc d.

Lemma sameButStats_refl d : sameButStats d d.
Proof. repeat split. Qed.

Lemma go_bind_inv {A B} (m : go A) (k : A -> go B) (b : B) :
  (m ≫= k) = Ret b -> exists a, m = Ret a /\ k a = Ret b.
Proof. destruct m as [a|q]; cbn; intros H; [eauto | discriminate]. Qed.

(** [get] writes the statistics only, and its answer does not depend on
    them. *)
Lemma get_sameButStats d fs key n roTx d' r :
  get d fs key n roTx = Ret (d', r) ->
  sameButStats d d' /\ aggregationStep d <> 0 /\
  forall d2, sameButStats d d2 -> exists d2', get d2 fs key n roTx = Ret (d2', r) /\
                                              sameButStats d2 d2'.
Proof.
  unfold get. cbn [aggregationStep addTotalQueries withStats].
  destruct (aggregationStep d =? 0) eqn:E0; [discriminate|].
  apply Z.eqb_neq in E0. intros H.
  destruct (SeekBothRange roTx key (inv64 (n / aggregationStep d))) as [found|] eqn:Es.
  - destruct (52 <? Z.of_nat (length key)) eqn:El; [discriminate|].
    inversion H. subst d' r. split; [repeat split|]. split; [exact E0|].
    intros d2 (H1 & H2 & H3 & H4 & H5 & H6).
    rewrite H1. apply Z.eqb_neq in E0. rewrite E0, Es, ?El.
    eexists. split; [reflexivity|]. repeat split.
  - apply go_bind_inv in H. destruct H as (r0 & Hr & H).
    unfold addHistoryQueries, addTotalQueries, withStats in Hr. cbn [heap] in Hr.
    inversion H. subst d' r. split; [repeat split|]. split; [exact E0|].
    intros d2 (H1 & H2 & H3 & H4 & H5 & H6).
    rewrite H1. apply Z.eqb_neq in E0. rewrite E0, Es.
    unfold addHistoryQueries, addTotalQueries, withStats. cbn [heap]. rewrite H5, Hr.
    eexists. split; [reflexivity|]. repeat split; cbn; congruence.
Qed.

(** A [Put] right after the key and the value were written at the current
    step finds the value in the db and writes nothing. *)
Lemma Put_written key1 key2 val D fs t :
  defaultDc D = Some fs ->
  aggregationStep D <> 0 ->
  Z.of_nat (length (key1 ++ key2)) <= 52 ->
  tx D = PutVal (PutKey t (key1 ++ key2) (inv64 (txNum D / aggregationStep D)))
           ((key1 ++ key2) ++ be8 (inv64 (txNum D / aggregationStep D))) (content val) ->
  Put key1 key2 val D = Ret (addTotalQueries D, None).
Proof.
  intros Hdc Hagg Hlen Htx. unfold Put. rewrite Hdc. unfold get.
  cbn [aggregationStep txNum tx addTotalQueries withStats].
  apply Z.eqb_neq in Hagg. rewrite Hagg. rewrite (proj2 (Z.ltb_ge _ _) Hlen).
  rewrite Htx.
  change (SeekBothRange (PutVal ?a ?b ?c)) with (SeekBothRange a).
  rewrite SeekBothRange_PutKey, GetOne_PutVal. cbn [mbind go_bind].
  rewrite bytesEqual_content. reflexivity.
Qed.

(** C10: [Domain.Put] of a key of at most 52 bytes (the key buffer of the
    read transaction holds 60, 8 of them for the step).  If the value equals
    the key's current value, [Put] is a no-op: nothing is handed to the
    history and neither table is written (the query counters of the
    statistics alone advance).  So a second [Put] of the same key and value
    right after a first one returns what the first returned and leaves the
    tables, the history and the files as the first left them. *)
Theorem C10_Put_same_value key1 key2 val d fs :
  defaultDc d = Some fs ->
  Z.of_nat (length (key1 ++ key2)) <= 52 ->
  (forall d' original found,
     get d fs (key1 ++ key2) (txNum d) (tx d) = Ret (d', (original, found, None)) ->
     bytesEqual original val = true ->
     Put key1 key2 val d = Ret (d', None) /\
     tx d' = tx d /\ history d' = history d /\ sameButStats d d') /\
  (forall d1 e1,
     Put key1 key2 val d = Ret (d1, e1) ->
     exists d2,
       Put key1 key2 val d1 = Ret (d2, e1) /\
       tx d2 = tx d1 /\ history d2 = history d1 /\ sameButStats d1 d2).
Proof.
  intros Hdc Hlen. split.
  - intros d' original found Hget Heq.
    pose proof (get_sameButStats _ _ _ _ _ _ _ Hget) as (Hs & _ & _).
    unfold Put. rewrite Hdc, Hget. cbn [mbind go_bind]. rewrite Heq.
    destruct Hs as (H1 & H2 & H3 & H4 & H5 & H6). repeat split; assumption.
  - intros d1 e1 HP. unfold Put in HP. rewrite Hdc in HP.
    apply go_bind_inv in HP. destruct HP as ([dA [[original found] err]] & Hget & HP).
    pose proof (get_sameButStats _ _ _ _ _ _ _ Hget) as (HsA & Hagg & Hcongr).
    assert (Hnoop : forall e, (e = None -> bytesEqual original val = true) ->
              d1 = dA -> e1 = e -> err = e ->
              exists d2, Put key1 key2 val d1 = Ret (d2, e1) /\
                         tx d2 = tx d1 /\ history d2 = history d1 /\ sameButStats d1 d2).
    { intros e He -> -> ->.
      destruct (Hcongr dA HsA) as (d2 & Hget2 & Hs2).
      destruct HsA as (A1 & A2 & A3 & A4 & A5 & A6).
      exists d2. unfold Put. rewrite A6, Hdc, A2, A3, Hget2. cbn [mbind go_bind].
      destruct Hs2 as (B1 & B2 & B3 & B4 & B5 & B6).
      destruct e as [e|].
      - repeat split; congruence.
      - rewrite (He eq_refl). repeat split; congruence. }
    destruct err as [e|].
    { inversion HP. subst. apply (Hnoop (Some e)); [discriminate| reflexivity ..]. }
    destruct (bytesEqual original val) eqn:Heq.
    { inversion HP. subst. apply (Hnoop None); auto. }
    clear Hnoop Hcongr.
    unfold update in HP. cbn [aggregationStep AddPrevValue withHistory] in HP.
    destruct HsA as (A1 & A2 & A3 & A4 & A5 & A6).
    assert (E0 : (aggregationStep dA =? 0) = false) by (apply Z.eqb_neq; congruence).
    rewrite E0 in HP. cbn [mbind go_bind] in HP. inversion HP. subst d1 e1. clear HP.
    eexists. split.
    + apply (Put_written _ _ _ _ fs (tx dA)); [cbn; congruence | cbn; congruence | exact Hlen |].
      reflexivity.
    + repeat split.
Qed.

(** The collated domain after "k" -> "v" was written at transaction 40, in
    step 2. *)
Definition writtenTx : Tx :=
  mkTx {[ keyK := [inv64 2] ]} {[ keyK ++ be8 (inv64 2) := [Byte.x76] ]}.

Definition written : Domain := withTx collated writtenTx.

Lemma C10_Put_same_value_witness :
  Put keyK [] valV written = Ret (addTotalQueries written, None) /\
  exists d2,
    Put keyK [] valV (addTotalQueries written) = Ret (d2, None) /\
    tx d2 = writtenTx /\ history d2 = [].
Proof.
  assert (Hlen : Z.of_nat (length (keyK ++ [])) <= 52) by (cbn; lia).
  destruct (C10_Put_same_value keyK [] valV written twoFiles eq_refl Hlen) as [H1 H2].
  assert (Hget : get written twoFiles (keyK ++ []) (txNum written) (tx written)
                 = Ret (addTotalQueries written, (valV, true, None)))
    by (vm_compute; reflexivity).
  destruct (H1 _ _ _ Hget eq_refl) as (HP & _). split; [exact HP|].
  destruct (H2 _ _ HP) as (d2 & Hd2 & Htx & Hh & _).
  exists d2. split; [exact Hd2|]. split; [exact Htx | exact Hh].
Defined.

(** *** The lifetime of the files

    The file objects of a domain, the list of visible files that
    [BeginFilesRo] captures, and the file lists of the read transactions that
    are open. *)
Record System := mkSystem {
  objects : Heap;
  visibleFiles : list ctxItem;
  openTxs : list (list ctxItem)
}.

(** Modelled from the spec: the collation and merge engine, the single writer
    of the visible files.  A file is "created by collation"; after a merge
    the "old files become garbage, marked for deletion once no reader holds a
    reference", and a file is "deleted when its reference count reaches zero
    and it is marked deletable".  The visible files hold no garbage, and a
    frozen file does not become garbage. *)
Definition markGarbage (f : filesItem) : filesItem :=
  let f := mkFilesItem (frozen f) (refcount f) true (bindex f) (removed f) in
  if refcount f =? 0 then closeFilesAndRemove f else f.

Definition isLive (h : Heap) (item : ctxItem) : bool :=
  match h !! src item with
  | Some f => negb (canDelete f) && negb (removed f)
  | None => false
  end.

(** What happens to the files: a read transaction begins, the [n]-th open
    read transaction is closed, and the three steps of the writer. *)
Inductive action :=
| Begin
| CloseTx (n : nat)
| Create (i : nat) (f : filesItem)
| Publish (vs : list ctxItem)
| Garbage (i : nat).

(** One action.  The reference count is an [atomic.Int32]: fewer than 2^31
    read transactions are open at a time. *)
Definition run (a : action) (s : System) : option System :=
  match a with
  | Begin =>
      if Z.of_nat (length (openTxs s)) <? 2 ^ 31 - 1 then
        let '(h, dc) := BeginFilesRo (objects s) (visibleFiles s) in
        Some (mkSystem h (visibleFiles s) (dc :: openTxs s))
      else None
  | CloseTx n =>
      match openTxs s !! n with
      | Some dc =>
          Some (mkSystem (Close (objects s) dc) (visibleFiles s) (delete n (openTxs s)))
      | None => None
      end
  | Create i f =>
      match objects s !! i with
      | None =>
          if (refcount f =? 0) && negb (canDelete f) && negb (removed f)
          then Some (mkSystem (<[i := f]> (objects s)) (visibleFiles s) (openTxs s))
          else None
      | Some _ => None
      end
  | Publish vs =>
      if bool_decide (NoDup (src <$> vs)) && forallb (isLive (objects s)) vs
      then Some (mkSystem (objects s) vs (openTxs s))
      else None
  | Garbage i =>
      match objects s !! i with
      | Some f =>
          if negb (frozen f) && negb (bool_decide (i ∈ src <$> visibleFiles s))
          then Some (mkSystem (alter markGarbage i (objects s)) (visibleFiles s) (openTxs s))
          else None
      | None => None
      end
  end.

Fixpoint runs (acts : list action) (s : System) : option System :=
  match acts with
  | [] => Some s
  | a :: acts =>
      match run a s with
      | Some s' => runs acts s'
      | None => None
      end
  end.

Definition emptySystem : System := mkSystem ∅ [] [].

(** The read transaction [dc] holds the file [i]. *)
Definition holds (i : nat) (dc : list ctxItem) : bool := bool_decide (i ∈ src <$> dc).

(** The number of open read transactions that hold the file [i]. *)
Fixpoint holders (i : nat) (txs : list (list ctxItem)) : nat :=
  match txs with
  | [] => 0
  | dc :: txs => (if holds i dc then 1 else 0) + holders i txs
  end.

Lemma wrapInt32_small x : - 2 ^ 31 <= x < 2 ^ 31 -> wrapInt32 x = x.
Proof. intros H. unfold wrapInt32. rewrite Z.mod_small; lia. Qed.

Lemma acquire_frozen f : frozen (acquire f) = frozen f.
Proof. unfold acquire. destruct (frozen f) eqn:E; cbn; congruence. Qed.

Lemma acquire_canDelete f : canDelete (acquire f) = canDelete f.
Proof. unfold acquire. destruct (frozen f); reflexivity. Qed.

Lemma acquire_removed f : removed (acquire f) = removed f.
Proof. unfold acquire. destruct (frozen f); reflexivity. Qed.

Lemma acquire_refcount f :
  refcount (acquire f) = if frozen f then refcount f else wrapInt32 (refcount f + 1).
Proof. unfold acquire. destruct (frozen f); reflexivity. Qed.

Lemma release_frozen f : frozen (release f) = frozen f.
Proof.
  unfold release. destruct (frozen f) eqn:E; [exact E|]. cbn.
  destruct (_ && _); cbn; reflexivity.
Qed.

Lemma release_canDelete f : canDelete (release f) = canDelete f.
Proof.
  unfold release. destruct (frozen f); [reflexivity|]. cbn.
  destruct (_ && _); reflexivity.
Qed.

Lemma release_refcount f :
  refcount (release f) = if frozen f then refcount f else wrapInt32 (refcount f - 1).
Proof.
  unfold release. destruct (frozen f); [reflexivity|]. cbn.
  destruct (_ && _); reflexivity.
Qed.

Lemma release_removed f :
  removed (release f)
  = if frozen f then removed f
    else ((wrapInt32 (refcount f - 1) =? 0) && canDelete f) || removed f.
Proof.
  unfold release. destruct (frozen f); [reflexivity|]. cbn.
  destruct (_ && _); reflexivity.
Qed.

Lemma foldl_alter_lookup (g : filesItem -> filesItem) (l : list ctxItem) (h : Heap) i :
  NoDup (src <$> l) ->
  foldl (fun h item => alter g (src item) h) h l !! i
  = if holds i l then g <$> h !! i else h !! i.
Proof.
  unfold holds. revert h. induction l as [|a l IH]; intros h Hnd; [reflexivity|].
  rewrite fmap_cons in Hnd. apply NoDup_cons in Hnd. destruct Hnd as [Hna Hnd].
  cbn [foldl]. rewrite (IH _ Hnd). rewrite fmap_cons.
  destruct (decide (i = src a)) as [->|Hne].
  - rewrite (bool_decide_eq_false_2 _ Hna).
    rewrite bool_decide_eq_true_2 by (apply elem_of_cons; left; reflexivity).
    apply lookup_alter_eq.
  - rewrite lookup_alter_ne by congruence.
    destruct (bool_decide (i ∈ src <$> l)) eqn:E.
    + rewrite bool_decide_eq_true_2; [reflexivity|].
      apply bool_decide_eq_true in E. apply elem_of_cons. right. exact E.
    + rewrite bool_decide_eq_false_2; [reflexivity|].
      apply bool_decide_eq_false in E. intros H. apply elem_of_cons in H.
      destruct H as [H|H]; [congruence | exact (E H)].
Qed.

Lemma holders_le_length i txs : (holders i txs <= length txs)%nat.
Proof. induction txs as [|dc txs IH]; cbn; [lia|]. destruct (holds i dc); lia. Qed.

Lemma holders_delete i txs n dc :
  txs !! n = Some dc ->
  holders i txs = ((if holds i dc then 1 else 0) + holders i (delete n txs))%nat.
Proof.
  revert n. induction txs as [|a txs IH]; intros n H; [destruct n; discriminate|].
  destruct n as [|n]; cbn in H.
  - inversion H. subst a. reflexivity.
  - change (delete (S n) (a :: txs)) with (a :: delete n txs). cbn [holders].
    rewrite (IH _ H). destruct (holds i a), (holds i dc); lia.
Qed.

Lemma holders_elem i txs dc :
  dc ∈ txs -> holds i dc = true -> (1 <= holders i txs)%nat.
Proof.
  induction txs as [|a txs IH]; intros H Hh; [inversion H|].
  apply elem_of_cons in H. cbn. destruct H as [<-|H].
  - rewrite Hh. lia.
  - specialize (IH H Hh). lia.
Qed.

Lemma holders_none i txs :
  (forall dc, dc ∈ txs -> holds i dc = false) -> holders i txs = 0%nat.
Proof.
  induction txs as [|a txs IH]; intros H; [reflexivity|]. cbn.
  rewrite (H a) by (apply elem_of_cons; left; reflexivity).
  rewrite IH; [reflexivity|]. intros dc Hdc. apply H. apply elem_of_cons. right. exact Hdc.
Qed.

Lemma holds_elem item dc : item ∈ dc -> holds (src item) dc = true.
Proof.
  intros H. unfold holds. apply bool_decide_eq_true. apply list_elem_of_fmap.
  exists item. split; [reflexivity | exact H].
Qed.

(** What holds of the files whatever happened to them. *)
Record Inv (s : System) : Prop := mkInv {
  inv_count : forall i f,
    objects s !! i = Some f -> frozen f = false ->
    refcount f = Z.of_nat (holders i (openTxs s));
  inv_removed : forall i f,
    objects s !! i = Some f -> removed f = true ->
    frozen f = false /\ refcount f = 0 /\ canDelete f = true;
  inv_visible : forall item,
    item ∈ visibleFiles s ->
    exists f, objects s !! src item = Some f /\ canDelete f = false;
  inv_nodup : NoDup (src <$> visibleFiles s);
  inv_open_nodup : forall dc, dc ∈ openTxs s -> NoDup (src <$> dc);
  inv_open_exist : forall dc item,
    dc ∈ openTxs s -> item ∈ dc -> is_Some (objects s !! src item);
  inv_bound : Z.of_nat (length (openTxs s)) < 2 ^ 31
}.

Lemma Inv_empty : Inv emptySystem.
Proof.
  constructor; cbn.
  - intros i f H. rewrite lookup_empty in H. discriminate.
  - intros i f H. rewrite lookup_empty in H. discriminate.
  - intros item H. inversion H.
  - constructor.
  - intros dc H. inversion H.
  - intros dc item H. inversion H.
  - lia.
Qed.

Lemma foldl_alter_is_Some (g : filesItem -> filesItem) (l : list ctxItem) (h : Heap) i :
  is_Some (h !! i) -> is_Some (foldl (fun h item => alter g (src item) h) h l !! i).
Proof.
  revert h. induction l as [|a l IH]; intros h H; [exact H|].
  cbn [foldl]. apply IH. destruct (decide (src a = i)) as [->|Hne].
  - rewrite lookup_alter_eq. apply fmap_is_Some. exact H.
  - rewrite lookup_alter_ne by exact Hne. exact H.
Qed.

Lemma holds_inv i dc : holds i dc = true -> exists item, item ∈ dc /\ src item = i.
Proof.
  unfold holds. intros H. apply bool_decide_eq_true in H. apply list_elem_of_fmap in H.
  destruct H as (item & -> & Hin). exists item. split; [exact Hin | reflexivity].
Qed.

Lemma markGarbage_frozen f : frozen (markGarbage f) = frozen f.
Proof. unfold markGarbage. cbn. destruct (refcount f =? 0); reflexivity. Qed.

Lemma markGarbage_refcount f : refcount (markGarbage f) = refcount f.
Proof. unfold markGarbage. cbn. destruct (refcount f =? 0); reflexivity. Qed.

Lemma markGarbage_canDelete f : canDelete (markGarbage f) = true.
Proof. unfold markGarbage. cbn. destruct (refcount f =? 0); reflexivity. Qed.

Lemma markGarbage_removed f : removed (markGarbage f) = (refcount f =? 0) || removed f.
Proof. unfold markGarbage. cbn. destruct (refcount f =? 0); reflexivity. Qed.

Lemma forallb_elem {A} (p : A -> bool) (l : list A) x :
  forallb p l = true -> x ∈ l -> p x = true.
Proof.
  induction l as [|a l IH]; intros H Hin; [inversion Hin|].
  cbn in H. apply andb_true_iff in H. destruct H as [Ha Hl].
  apply elem_of_cons in Hin. destruct Hin as [->|Hin]; [exact Ha | exact (IH Hl Hin)].
Qed.

Lemma Inv_Begin s s' : Inv s -> run Begin s = Some s' -> Inv s'.
Proof.
  intros I H. unfold run in H.
  destruct (Z.of_nat (length (openTxs s)) <? 2 ^ 31 - 1) eqn:Eb; [|discriminate].
  apply Z.ltb_lt in Eb. unfold BeginFilesRo in H. inversion H; subst s'; clear H.
  pose proof (inv_nodup _ I) as Hnd.
  constructor; cbn [objects visibleFiles openTxs].
  - intros i f Hl Hfr. rewrite (foldl_alter_lookup _ _ _ _ Hnd) in Hl. cbn [holders].
    destruct (holds i (visibleFiles s)) eqn:Eh.
    + destruct (objects s !! i) as [f0|] eqn:E0; [|discriminate].
      cbn in Hl. inversion Hl; subst f. rewrite acquire_frozen in Hfr.
      rewrite acquire_refcount, Hfr.
      pose proof (inv_count _ I _ _ E0 Hfr) as Hc.
      pose proof (holders_le_length i (openTxs s)) as Hle.
      rewrite wrapInt32_small by lia. lia.
    + rewrite (inv_count _ I _ _ Hl Hfr). lia.
  - intros i f Hl Hr. rewrite (foldl_alter_lookup _ _ _ _ Hnd) in Hl.
    destruct (holds i (visibleFiles s)) eqn:Eh.
    + destruct (objects s !! i) as [f0|] eqn:E0; [|discriminate].
      cbn in Hl. inversion Hl; subst f. rewrite acquire_removed in Hr.
      destruct (inv_removed _ I _ _ E0 Hr) as (Hf & Hc & Hd).
      apply holds_inv in Eh. destruct Eh as (item & Hin & <-).
      destruct (inv_visible _ I _ Hin) as (f1 & Hf1 & Hcd). congruence.
    + exact (inv_removed _ I _ _ Hl Hr).
  - intros item Hin. destruct (inv_visible _ I _ Hin) as (f & Hf & Hcd).
    rewrite (foldl_alter_lookup _ _ _ _ Hnd), (holds_elem _ _ Hin), Hf.
    eexists. split; [reflexivity|]. rewrite acquire_canDelete. exact Hcd.
  - exact Hnd.
  - intros dc Hdc. apply elem_of_cons in Hdc.
    destruct Hdc as [->|Hdc]; [exact Hnd | exact (inv_open_nodup _ I _ Hdc)].
  - intros dc item Hdc Hitem. apply foldl_alter_is_Some.
    apply elem_of_cons in Hdc. destruct Hdc as [->|Hdc].
    + destruct (inv_visible _ I _ Hitem) as (f & Hf & _). rewrite Hf. eexists. reflexivity.
    + exact (inv_open_exist _ I _ _ Hdc Hitem).
  - cbn [length]. lia.
Qed.

Lemma Inv_CloseTx n s s' : Inv s -> run (CloseTx n) s = Some s' -> Inv s'.
Proof.
  intros I H. unfold run in H.
  destruct (openTxs s !! n) as [dc|] eqn:En; [|discriminate].
  unfold Close in H. inversion H; subst s'; clear H.
  pose proof (list_elem_of_lookup_2 _ _ _ En) as Hdc.
  pose proof (inv_open_nodup _ I _ Hdc) as Hnd.
  pose proof (inv_bound _ I) as Hb.
  constructor; cbn [objects visibleFiles openTxs].
  - intros i f Hl Hfr. rewrite (foldl_alter_lookup _ _ _ _ Hnd) in Hl.
    pose proof (holders_delete i _ _ _ En) as Hd.
    pose proof (holders_le_length i (openTxs s)) as Hle.
    destruct (holds i dc) eqn:Eh.
    + destruct (objects s !! i) as [f0|] eqn:E0; [|discriminate].
      cbn in Hl. inversion Hl; subst f. rewrite release_frozen in Hfr.
      rewrite release_refcount, Hfr.
      pose proof (inv_count _ I _ _ E0 Hfr) as Hc.
      rewrite wrapInt32_small by lia. lia.
    + rewrite (inv_count _ I _ _ Hl Hfr). lia.
  - intros i f Hl Hr. rewrite (foldl_alter_lookup _ _ _ _ Hnd) in Hl.
    destruct (holds i dc) eqn:Eh.
    + destruct (objects s !! i) as [f0|] eqn:E0; [|discriminate].
      cbn in Hl. inversion Hl; subst f. rewrite release_removed in Hr.
      rewrite release_frozen, release_refcount, release_canDelete.
      destruct (frozen f0) eqn:Ef.
      * destruct (inv_removed _ I _ _ E0 Hr) as (Hf & _). congruence.
      * pose proof (inv_count _ I _ _ E0 Ef) as Hc.
        pose proof (holders_elem i _ _ Hdc Eh) as Hpos.
        destruct (removed f0) eqn:Er.
        { destruct (inv_removed _ I _ _ E0 Er) as (_ & H0 & _). lia. }
        rewrite orb_false_r in Hr. apply andb_true_iff in Hr. destruct Hr as [Hz Hcd].
        apply Z.eqb_eq in Hz. repeat split; assumption.
    + exact (inv_removed _ I _ _ Hl Hr).
  - intros item Hin. destruct (inv_visible _ I _ Hin) as (f & Hf & Hcd).
    rewrite (foldl_alter_lookup _ _ _ _ Hnd), Hf.
    destruct (holds (src item) dc).
    + eexists. split; [reflexivity|]. rewrite release_canDelete. exact Hcd.
    + eexists. split; [reflexivity | exact Hcd].
  - exact (inv_nodup _ I).
  - intros dc' Hdc'. apply list_elem_of_delete_inv in Hdc'. exact (inv_open_nodup _ I _ Hdc').
  - intros dc' item Hdc' Hitem. apply foldl_alter_is_Some.
    apply list_elem_of_delete_inv in Hdc'. exact (inv_open_exist _ I _ _ Hdc' Hitem).
  - rewrite length_delete by (rewrite En; eexists; reflexivity). lia.
Qed.

Lemma Inv_Create i f s s' : Inv s -> run (Create i f) s = Some s' -> Inv s'.
Proof.
  intros I H. unfold run in H.
  destruct (objects s !! i) as [f0|] eqn:E0; [discriminate|].
  destruct ((refcount f =? 0) && negb (canDelete f) && negb (removed f)) eqn:Ec;
    [|discriminate].
  inversion H; subst s'; clear H.
  apply andb_true_iff in Ec. destruct Ec as [Ec Hrm].
  apply andb_true_iff in Ec. destruct Ec as [Hz Hcd].
  apply Z.eqb_eq in Hz. apply negb_true_iff in Hcd. apply negb_true_iff in Hrm.
  constructor; cbn [objects visibleFiles openTxs].
  - intros j g Hl Hfr. destruct (decide (i = j)) as [<-|Hne].
    + rewrite lookup_insert_eq in Hl. inversion Hl; subst g.
      rewrite holders_none; [exact Hz|].
      intros dc Hdc. destruct (holds i dc) eqn:Eh; [|reflexivity].
      apply holds_inv in Eh. destruct Eh as (item & Hin & Hsrc).
      pose proof (inv_open_exist _ I _ _ Hdc Hin) as [x Hx]. congruence.
    + rewrite lookup_insert_ne in Hl by exact Hne. exact (inv_count _ I _ _ Hl Hfr).
  - intros j g Hl Hr. destruct (decide (i = j)) as [<-|Hne].
    + rewrite lookup_insert_eq in Hl. inversion Hl; subst g. congruence.
    + rewrite lookup_insert_ne in Hl by exact Hne. exact (inv_removed _ I _ _ Hl Hr).
  - intros item Hin. destruct (inv_visible _ I _ Hin) as (g & Hg & Hgc).
    exists g. split; [|exact Hgc]. rewrite lookup_insert_ne; [exact Hg|]. congruence.
  - exact (inv_nodup _ I).
  - exact (inv_open_nodup _ I).
  - intros dc item Hdc Hitem. pose proof (inv_open_exist _ I _ _ Hdc Hitem) as Hs.
    rewrite lookup_insert_ne; [exact Hs|]. destruct Hs as [x Hx]. congruence.
  - exact (inv_bound _ I).
Qed.

Lemma Inv_Publish vs s s' : Inv s -> run (Publish vs) s = Some s' -> Inv s'.
Proof.
  intros I H. unfold run in H.
  destruct (bool_decide (NoDup (src <$> vs)) && forallb (isLive (objects s)) vs) eqn:Ec;
    [|discriminate].
  inversion H; subst s'; clear H.
  apply andb_true_iff in Ec. destruct Ec as [Hnd Hlive].
  apply bool_decide_eq_true in Hnd.
  constructor; cbn [objects visibleFiles openTxs].
  - exact (inv_count _ I).
  - exact (inv_removed _ I).
  - intros item Hin. pose proof (forallb_elem _ _ _ Hlive Hin) as Hl.
    unfold isLive in Hl. destruct (objects s !! src item) as [f|]; [|discriminate].
    apply andb_true_iff in Hl. destruct Hl as [Hcd _]. apply negb_true_iff in Hcd.
    exists f. split; [reflexivity | exact Hcd].
  - exact Hnd.
  - exact (inv_open_nodup _ I).
  - exact (inv_open_exist _ I).
  - exact (inv_bound _ I).
Qed.

Lemma Inv_Garbage i s s' : Inv s -> run (Garbage i) s = Some s' -> Inv s'.
Proof.
  intros I H. unfold run in H.
  destruct (objects s !! i) as [f0|] eqn:E0; [|discriminate].
  destruct (negb (frozen f0) && negb (bool_decide (i ∈ src <$> visibleFiles s))) eqn:Ec;
    [|discriminate].
  inversion H; subst s'; clear H.
  apply andb_true_iff in Ec. destruct Ec as [Hfr Hvis].
  apply negb_true_iff in Hfr. apply negb_true_iff in Hvis.
  apply bool_decide_eq_false in Hvis.
  constructor; cbn [objects visibleFiles openTxs].
  - intros j g Hl Hg. destruct (decide (i = j)) as [<-|Hne].
    + rewrite lookup_alter_eq, E0 in Hl. cbn in Hl. inversion Hl; subst g.
      rewrite markGarbage_refcount. exact (inv_count _ I _ _ E0 Hfr).
    + rewrite lookup_alter_ne in Hl by exact Hne. exact (inv_count _ I _ _ Hl Hg).
  - intros j g Hl Hr. destruct (decide (i = j)) as [<-|Hne].
    + rewrite lookup_alter_eq, E0 in Hl. cbn in Hl. inversion Hl; subst g.
      rewrite markGarbage_removed in Hr.
      rewrite markGarbage_frozen, markGarbage_refcount, markGarbage_canDelete.
      destruct (refcount f0 =? 0) eqn:Ez.
      * apply Z.eqb_eq in Ez. repeat split; assumption.
      * cbn in Hr. destruct (inv_removed _ I _ _ E0 Hr) as (_ & H0 & _).
        repeat split; assumption.
    + rewrite lookup_alter_ne in Hl by exact Hne. exact (inv_removed _ I _ _ Hl Hr).
  - intros item Hin. destruct (inv_visible _ I _ Hin) as (g & Hg & Hgc).
    exists g. split; [|exact Hgc]. rewrite lookup_alter_ne; [exact Hg|].
    intros ->. apply Hvis. apply list_elem_of_fmap. exists item. split; [reflexivity|exact Hin].
  - exact (inv_nodup _ I).
  - exact (inv_open_nodup _ I).
  - intros dc item Hdc Hitem. pose proof (inv_open_exist _ I _ _ Hdc Hitem) as Hs.
    destruct (decide (i = src item)) as [Heq|Hne].
    + rewrite Heq, lookup_alter_eq. apply fmap_is_Some. exact Hs.
    + rewrite lookup_alter_ne by exact Hne. exact Hs.
  - exact (inv_bound _ I).
Qed.

Lemma run_Inv a s s' : Inv s -> run a s = Some s' -> Inv s'.
Proof.
  destruct a as [|n|i f|vs|i].
  - apply Inv_Begin.
  - apply Inv_CloseTx.
  - apply Inv_Create.
  - apply Inv_Publish.
  - apply Inv_Garbage.
Qed.

Lemma runs_Inv acts s s' : Inv s -> runs acts s = Some s' -> Inv s'.
Proof.
  revert s. induction acts as [|a acts IH]; intros s I H; cbn in H.
  - inversion H; subst. exact I.
  - destruct (run a s) as [s1|] eqn:E; [|discriminate].
    exact (IH _ (run_Inv _ _ _ I E) H).
Qed.

(** C6: the files of a domain along any run of [BeginFilesRo], of
    [DomainRoTx.Close] of a read transaction that is open, and of the writer
    (files created, visible files published without garbage, files not
    visible marked canDelete), from the empty domain; fewer than 2^31 read
    transactions are open at a time.  The reference count of a non-frozen
    file is the number of open read transactions that captured it, so it is
    never negative; a file has been closed and removed only if its count is
    zero and it is marked canDelete, so no file of an open read transaction
    is removed.  [BeginFilesRo] adds one to the count of every non-frozen
    file it captures and touches no other file; [Close] takes one from the
    count of every non-frozen file of the transaction, and removes the file
    exactly when the decremented count is 0 and canDelete is set. *)
Theorem C6_refcount_gates_deletion acts s :
  runs acts emptySystem = Some s ->
  (forall i f,
     objects s !! i = Some f -> frozen f = false ->
     0 <= refcount f /\ refcount f = Z.of_nat (holders i (openTxs s))) /\
  (forall i f,
     objects s !! i = Some f -> removed f = true ->
     frozen f = false /\ refcount f = 0 /\ canDelete f = true) /\
  (forall dc item f,
     dc ∈ openTxs s -> item ∈ dc -> objects s !! src item = Some f ->
     removed f = false) /\
  (forall item f,
     Z.of_nat (length (openTxs s)) < 2 ^ 31 - 1 ->
     item ∈ visibleFiles s -> objects s !! src item = Some f ->
     exists f',
       (BeginFilesRo (objects s) (visibleFiles s)).1 !! src item = Some f' /\
       refcount f' = (if frozen f then refcount f else refcount f + 1) /\
       removed f' = false) /\
  (forall i,
     i ∉ src <$> visibleFiles s ->
     (BeginFilesRo (objects s) (visibleFiles s)).1 !! i = objects s !! i) /\
  (forall dc item f,
     dc ∈ openTxs s -> item ∈ dc -> objects s !! src item = Some f ->
     exists f',
       Close (objects s) dc !! src item = Some f' /\
       refcount f' = (if frozen f then refcount f else refcount f - 1) /\
       (frozen f = false -> 0 <= refcount f') /\
       (removed f' = true <-> frozen f = false /\ refcount f' = 0 /\ canDelete f = true)).
Proof.
  intros Hrun. pose proof (runs_Inv _ _ _ Inv_empty Hrun) as I.
  assert (Hsafe : forall dc item f,
             dc ∈ openTxs s -> item ∈ dc -> objects s !! src item = Some f ->
             removed f = false).
  { intros dc item f Hdc Hin Hf. destruct (removed f) eqn:Er; [|reflexivity].
    destruct (inv_removed _ I _ _ Hf Er) as (Hfr & H0 & _).
    pose proof (inv_count _ I _ _ Hf Hfr) as Hc.
    pose proof (holders_elem _ _ _ Hdc (holds_elem _ _ Hin)) as Hpos. lia. }
  split; [|split; [|split; [|split; [|split]]]].
  - intros i f Hf Hfr. pose proof (inv_count _ I _ _ Hf Hfr) as Hc. split; [lia | exact Hc].
  - exact (inv_removed _ I).
  - exact Hsafe.
  - intros item f Hb Hin Hf. unfold BeginFilesRo. cbn [fst].
    rewrite (foldl_alter_lookup _ _ _ _ (inv_nodup _ I)), (holds_elem _ _ Hin), Hf.
    eexists. split; [reflexivity|]. rewrite acquire_refcount, acquire_removed. split.
    + destruct (frozen f) eqn:Efr; [reflexivity|].
      pose proof (inv_count _ I _ _ Hf Efr) as Hc.
      pose proof (holders_le_length (src item) (openTxs s)) as Hle.
      apply wrapInt32_small. lia.
    + destruct (inv_visible _ I _ Hin) as (g & Hg & Hgc).
      destruct (removed f) eqn:Er; [|reflexivity].
      destruct (inv_removed _ I _ _ Hf Er) as (_ & _ & Hcd). congruence.
  - intros i Hi. unfold BeginFilesRo. cbn [fst].
    rewrite (foldl_alter_lookup _ _ _ _ (inv_nodup _ I)). unfold holds.
    rewrite (bool_decide_eq_false_2 _ Hi). reflexivity.
  - intros dc item f Hdc Hin Hf. unfold Close.
    rewrite (foldl_alter_lookup _ _ _ _ (inv_open_nodup _ I _ Hdc)), (holds_elem _ _ Hin), Hf.
    eexists. split; [reflexivity|].
    rewrite release_refcount, release_removed, (Hsafe _ _ _ Hdc Hin Hf), orb_false_r.
    destruct (frozen f) eqn:Efr.
    + split; [reflexivity|]. split; [discriminate|].
      split; [discriminate | intros (H & _); discriminate].
    + pose proof (inv_count _ I _ _ Hf Efr) as Hc.
      pose proof (holders_elem _ _ _ Hdc (holds_elem _ _ Hin)) as Hpos.
      pose proof (holders_le_length (src item) (openTxs s)) as Hle.
      pose proof (inv_bound _ I) as Hb.
      rewrite wrapInt32_small by lia.
      split; [reflexivity|]. split; [lia|]. rewrite andb_true_iff, Z.eqb_eq.
      split; [intros (H1 & H2); auto | intros (_ & H1 & H2); auto].
Qed.

(** Two files are collated and published, a read transaction begins; the
    files are merged into a third one, which is published, and become
    garbage; a second read transaction begins, then the first one is
    closed. *)
Definition mergedFile : filesItem :=
  mkFilesItem false 0 false
    (Some (mkBtIndex false (fun _ => inl (Some (keyK, valV))))) false.

Definition merged : list ctxItem := [mkCtxItem 0 32 2].

Definition beforeMerge : list action :=
  [Create 0 fileWithK; Create 1 fileWithoutK; Publish twoFiles; Begin].

Definition merge : list action :=
  [Create 2 mergedFile; Publish merged; Garbage 0; Garbage 1; Begin].

(** What is observed of a file: its count and its two marks. *)
Definition fileState (s : option System) (i : nat) : option (Z * bool * bool) :=
  match s with
  | Some s =>
      match objects s !! i with
      | Some f => Some (refcount f, canDelete f, removed f)
      | None => None
      end
  | None => None
  end.

(** The garbage lives as long as the first read transaction, and no
    longer. *)
Example files_lifetime :
  let s1 := runs beforeMerge emptySystem in
  let s2 := runs (beforeMerge ++ merge) emptySystem in
  let s3 := runs (beforeMerge ++ merge ++ [CloseTx 1]) emptySystem in
  fileState s1 0 = Some (1, false, false) /\
  fileState s2 0 = Some (1, true, false) /\
  fileState s2 2 = Some (1, false, false) /\
  fileState s3 0 = Some (0, true, true) /\
  fileState s3 1 = Some (0, true, true) /\
  fileState s3 2 = Some (1, false, false) /\
  (openTxs <$> s3) = Some [merged].
Proof. cbv zeta. repeat apply conj; vm_compute; reflexivity. Qed.

(** The count is of the read transactions that are open: [Close] itself does
    not record that it has run, and a second [Close] of the same read
    transaction would take one more from the count. *)
Example Close_again :
  let s1 := runs beforeMerge emptySystem in
  (refcount <$> ((fun s => Close (Close (objects s) twoFiles) twoFiles) <$> s1) ≫= (.!! 0%nat))
  = Some (-1).
Proof. cbv zeta. vm_compute. reflexivity. Qed.

Lemma C6_refcount_gates_deletion_witness :
  exists s,
    runs (beforeMerge ++ merge) emptySystem = Some s /\
    (forall dc item f,
       dc ∈ openTxs s -> item ∈ dc -> objects s !! src item = Some f ->
       removed f = false) /\
    (forall dc item f,
       dc ∈ openTxs s -> item ∈ dc -> objects s !! src item = Some f ->
       exists f',
         Close (objects s) dc !! src item = Some f' /\
         refcount f' = (if frozen f then refcount f else refcount f - 1) /\
         (frozen f = false -> 0 <= refcount f') /\
         (removed f' = true <-> frozen f = false /\ refcount f' = 0 /\ canDelete f = true)).
Proof.
  destruct (runs (beforeMerge ++ merge) emptySystem) as [s|] eqn:E;
    [|vm_compute in E; discriminate].
  exists s. split; [reflexivity|].
  destruct (C6_refcount_gates_deletion _ _ E) as (_ & _ & H3 & _ & _ & H6).
  split; [exact H3 | exact H6].
Defined.

End State.

(** ** Bytes and numbers *)

Module ByteFacts.

Import Bytes ParseTx.

Lemma to_Z_range b : 0 <= to_Z b < 256.
Proof.
  unfold to_Z. pose proof (Byte.to_N_bounded b) as H. lia.
Qed.

Lemma to_Z_of_Z z : to_Z (of_Z z) = z mod 256.
Proof.
  unfold to_Z, of_Z.
  assert (Hr : 0 <= z mod 256 < 256) by (apply Z.mod_pos_bound; lia).
  destruct (Byte.of_N (Z.to_N (z mod 256))) as [b|] eqn:E.
  - apply Byte.to_of_N in E. rewrite E. lia.
  - apply Byte.of_N_None_iff in E. lia.
Qed.

Lemma of_Z_eq z b : z mod 256 = to_Z b -> of_Z z = b.
Proof.
  intros H. unfold of_Z. rewrite H. unfold to_Z. rewrite N2Z.id, Byte.of_to_N. reflexivity.
Qed.

Lemma be_value_app l b : be_value (l ++ [b]) = be_value l * 256 + to_Z b.
Proof. unfold be_value. rewrite fold_left_app. reflexivity. Qed.

Lemma be_value_nonneg l : 0 <= be_value l.
Proof.
  induction l as [|b l IH] using rev_ind; [cbn; lia|].
  rewrite be_value_app. pose proof (to_Z_range b). lia.
Qed.

Lemma goIndex_middle (A R : list byte) c i :
  i = Z.of_nat (length A) -> goIndex (A ++ c :: R) i = Ret c.
Proof.
  intros ->. unfold goIndex. rewrite (proj2 (Z.ltb_ge _ _)) by lia. rewrite Nat2Z.id.
  rewrite list_lookup_middle by reflexivity. reflexivity.
Qed.

Lemma goIndex_head (R : list byte) c : goIndex (c :: R) 0 = Ret c.
Proof. reflexivity. Qed.

Lemma subslice_middle (A M R : list byte) a b :
  a = Z.of_nat (length A) -> b = Z.of_nat (length A + length M) ->
  subslice (A ++ M ++ R) a b = M.
Proof.
  intros -> ->. unfold subslice. rewrite Nat2Z.id.
  replace (Z.to_nat (Z.of_nat (length A + length M) - Z.of_nat (length A)))
    with (length M) by lia.
  rewrite drop_app_length. apply take_app_length.
Qed.

Lemma goSlice_middle (A M R : list byte) a b :
  a = Z.of_nat (length A) -> b = Z.of_nat (length A + length M) ->
  goSlice (A ++ M ++ R) a b = Ret M.
Proof.
  intros Ha Hb. unfold goSlice, len. rewrite !length_app.
  rewrite (proj2 (Z.leb_le 0 a)) by lia. rewrite (proj2 (Z.leb_le a b)) by lia.
  rewrite (proj2 (Z.leb_le _ _)) by lia. cbn [andb].
  rewrite (subslice_middle A M R a b Ha Hb). reflexivity.
Qed.

Lemma split_at {A} (n : nat) (l : list A) :
  (n <= length l)%nat -> exists M R, l = M ++ R /\ length M = n.
Proof.
  intros H. exists (firstn n l), (skipn n l). split.
  - symmetry. apply firstn_skipn.
  - apply firstn_length_le. exact H.
Qed.

Lemma goSlice_app_l (A B : list byte) a b :
  b <= Z.of_nat (length A) -> goSlice (A ++ B) a b = goSlice A a b.
Proof.
  intros Hb. unfold goSlice, len. rewrite length_app.
  destruct (Z.leb_spec 0 a) as [H0|H0]; [|reflexivity].
  destruct (Z.leb_spec a b) as [H1|H1]; [|reflexivity]. cbn [andb].
  rewrite (proj2 (Z.leb_le b (Z.of_nat (length A + length B)))) by lia.
  rewrite (proj2 (Z.leb_le b (Z.of_nat (length A)))) by lia.
  unfold subslice. rewrite drop_app_le by lia.
  rewrite take_app_le by (rewrite length_drop; lia). reflexivity.
Qed.

Lemma goSlice_app_r (A B : list byte) a b :
  0 <= a -> goSlice (A ++ B) (Z.of_nat (length A) + a) (Z.of_nat (length A) + b) = goSlice B a b.
Proof.
  intros Ha. unfold goSlice, len. rewrite length_app.
  rewrite (proj2 (Z.leb_le 0 (Z.of_nat (length A) + a))) by lia.
  rewrite (proj2 (Z.leb_le 0 a)) by lia. cbn [andb].
  destruct (Z.leb_spec a b) as [H1|H1].
  - rewrite (proj2 (Z.leb_le (Z.of_nat (length A) + a) (Z.of_nat (length A) + b))) by lia.
    cbn [andb].
    destruct (Z.leb_spec b (Z.of_nat (length B))) as [H2|H2].
    + rewrite (proj2 (Z.leb_le _ _)) by lia. unfold subslice.
      replace (Z.to_nat (Z.of_nat (length A) + a)) with (length A + Z.to_nat a)%nat by lia.
      rewrite drop_app_add. do 2 f_equal. lia.
    + rewrite (proj2 (Z.leb_gt _ _)) by lia. reflexivity.
  - rewrite (proj2 (Z.leb_gt (Z.of_nat (length A) + a) (Z.of_nat (length A) + b))) by lia.
    reflexivity.
Qed.

End ByteFacts.

(** ** Facts about the Holocene parameters and the base fee *)

Module BaseFeeFacts.

Import Bytes ByteFacts BaseFee.

Lemma be_value_be_uint32 v : 0 <= v < 2 ^ 32 -> be_value (be_uint32 v) = v.
Proof.
  intros H. unfold be_value, be_uint32. cbn [fold_left]. rewrite !to_Z_of_Z.
  change (2 ^ 24) with 16777216. change (2 ^ 16) with 65536. change (2 ^ 8) with 256.
  change (2 ^ 32) with 4294967296 in H.
  Z.to_euclidean_division_equations. lia.
Qed.

Lemma be_uint32_be_value a b c d : be_uint32 (be_value [a; b; c; d]) = [a; b; c; d].
Proof.
  unfold be_value, be_uint32. cbn [fold_left].
  pose proof (to_Z_range a). pose proof (to_Z_range b).
  pose proof (to_Z_range c). pose proof (to_Z_range d).
  change (2 ^ 24) with 16777216. change (2 ^ 16) with 65536. change (2 ^ 8) with 256.
  f_equal; [|f_equal; [|f_equal; [|f_equal]]]; apply of_Z_eq;
    Z.to_euclidean_division_equations; lia.
Qed.

Lemma be_value_4_range a b c d : 0 <= be_value [a; b; c; d] < 2 ^ 32.
Proof.
  unfold be_value. cbn [fold_left].
  pose proof (to_Z_range a). pose proof (to_Z_range b).
  pose proof (to_Z_range c). pose proof (to_Z_range d).
  change (2 ^ 32) with 4294967296. lia.
Qed.

Lemma MaxUint32_ltb v : 0 <= v <= MaxUint32 -> (MaxUint32 <? v) = false.
Proof. intros H. apply Z.ltb_ge. lia. Qed.

Lemma length_be_uint32 v : length (be_uint32 v) = 4%nat.
Proof. reflexivity. Qed.

Lemma Decode_app a b :
  length a = 4%nat -> length b = 4%nat ->
  DecodeHolocene1559Params (a ++ b) = (be_value a, be_value b).
Proof.
  intros Ha Hb. unfold DecodeHolocene1559Params.
  rewrite length_app, Ha, Hb. cbn [Nat.add Z.of_nat Z.eqb negb].
  change (Z.of_nat 8 =? 8) with true. cbn [negb].
  rewrite <- Ha at 1. rewrite firstn_app, firstn_all, Nat.sub_diag. cbn [firstn].
  rewrite app_nil_r. rewrite <- Ha. rewrite skipn_app, skipn_all, Nat.sub_diag.
  reflexivity.
Qed.

Lemma params_encode_decode denom elasticity :
  0 <= denom <= MaxUint32 -> 0 <= elasticity <= MaxUint32 ->
  exists params,
    EncodeHolocene1559Params denom elasticity = Ret params /\
    length params = 8%nat /\
    DecodeHolocene1559Params params = (denom, elasticity) /\
    (ValidateHolocene1559Params params = None <-> (elasticity = 0 \/ denom <> 0)).
Proof.
  revert denom elasticity.
  intros d e Hd He.
  assert (Hdec : DecodeHolocene1559Params (be_uint32 d ++ be_uint32 e) = (d, e)).
  { rewrite Decode_app by reflexivity. unfold MaxUint32 in *.
    rewrite !be_value_be_uint32 by lia. reflexivity. }
  exists (be_uint32 d ++ be_uint32 e).
  unfold EncodeHolocene1559Params. rewrite (MaxUint32_ltb d Hd), (MaxUint32_ltb e He).
  split; [reflexivity|]. split; [reflexivity|]. split; [exact Hdec|].
  unfold ValidateHolocene1559Params. rewrite Hdec.
  change (Z.of_nat (length (be_uint32 d ++ be_uint32 e)) =? 8) with true. cbn [negb].
  destruct (Z.eqb_spec e 0) as [Ee|Ee]; destruct (Z.eqb_spec d 0) as [Ed|Ed];
    cbn [negb andb]; split; intros H; try reflexivity; try discriminate;
    try (left; assumption); try (right; assumption).
  destruct H; contradiction.
Qed.

Lemma params_decode_encode params :
  length params = 8%nat ->
  let '(denom, elasticity) := DecodeHolocene1559Params params in
  0 <= denom <= MaxUint32 /\ 0 <= elasticity <= MaxUint32 /\
  EncodeHolocene1559Params denom elasticity = Ret params.
Proof.
  revert params.
  intros params Hlen.
  destruct params as [|a [|b [|c [|d [|a' [|b' [|c' [|d' [|x l]]]]]]]]]; try discriminate.
  unfold DecodeHolocene1559Params. cbn [length Z.of_nat Z.eqb negb firstn skipn].
  change (Z.of_nat 8 =? 8) with true. cbn [negb].
  pose proof (be_value_4_range a b c d) as H1.
  pose proof (be_value_4_range a' b' c' d') as H2.
  unfold MaxUint32. split; [lia|]. split; [lia|].
  unfold EncodeHolocene1559Params, MaxUint32.
  rewrite (proj2 (Z.ltb_ge _ _)) by lia. rewrite (proj2 (Z.ltb_ge _ _)) by lia.
  cbn [orb]. rewrite !be_uint32_be_value. reflexivity.
Qed.

(** [EncodeHolocene1559Params] and [DecodeHolocene1559Params] are inverse
    to each other between the pairs of 32-bit values and the strings of 8
    bytes, and [ValidateHolocene1559Params] accepts an encoded pair unless a
    zero denominator comes with a non-zero elasticity. *)
Theorem Holocene1559Params_round_trip :
  (forall denom elasticity,
     0 <= denom <= MaxUint32 -> 0 <= elasticity <= MaxUint32 ->
     exists params,
       EncodeHolocene1559Params denom elasticity = Ret params /\
       length params = 8%nat /\
       DecodeHolocene1559Params params = (denom, elasticity) /\
       (ValidateHolocene1559Params params = None <-> (elasticity = 0 \/ denom <> 0))) /\
  (forall params,
     length params = 8%nat ->
     let '(denom, elasticity) := DecodeHolocene1559Params params in
     0 <= denom <= MaxUint32 /\ 0 <= elasticity <= MaxUint32 /\
     EncodeHolocene1559Params denom elasticity = Ret params).
Proof. split; [exact params_encode_decode | exact params_decode_encode]. Qed.

Lemma Holocene1559Params_round_trip_witness :
  exists params,
    EncodeHolocene1559Params 250 6 = Ret params /\
    length params = 8%nat /\
    DecodeHolocene1559Params params = (250, 6) /\
    (ValidateHolocene1559Params params = None <-> (6 = 0 \/ 250 <> 0)).
Proof.
  apply (proj1 Holocene1559Params_round_trip 250 6); unfold MaxUint32; lia.
Defined.

Lemma DecodeExtra_cons v params :
  length params = 8%nat ->
  DecodeHoloceneExtraData (v :: params) = DecodeHolocene1559Params params.
Proof.
  intros H. unfold DecodeHoloceneExtraData. cbn [length]. rewrite H. reflexivity.
Qed.

Lemma ValidateExtra_cons v params :
  length params = 8%nat ->
  ValidateHoloceneExtraData (v :: params)
  = if negb (to_Z v =? 0) then Some (ErrExtraVersion v)
    else ValidateHolocene1559Params params.
Proof.
  intros H. unfold ValidateHoloceneExtraData. cbn [length]. rewrite H. reflexivity.
Qed.

Lemma EncodeExtra_Encode denom elasticity :
  EncodeHoloceneExtraData denom elasticity
  = (params ← EncodeHolocene1559Params denom elasticity; Ret (Byte.x00 :: params)).
Proof.
  unfold EncodeHoloceneExtraData, EncodeHolocene1559Params.
  destruct ((MaxUint32 <? denom) || (MaxUint32 <? elasticity)); reflexivity.
Qed.

Lemma to_Z_zero v : to_Z v = 0 -> v = Byte.x00.
Proof.
  intros H. rewrite <- (of_Z_eq 0 v); [reflexivity|]. rewrite H. reflexivity.
Qed.

(** The same for the header's extra data of 9 bytes, whose first byte is the
    version 0: encoding then decoding gives the pair back, what
    [ValidateHoloceneExtraData] accepts is the encoding of what it decodes
    to, and a string of another length decodes to (0, 0) and is rejected. *)
Theorem HoloceneExtraData_round_trip :
  (forall denom elasticity,
     0 <= denom <= MaxUint32 -> 0 <= elasticity <= MaxUint32 ->
     exists extra,
       EncodeHoloceneExtraData denom elasticity = Ret extra /\
       length extra = 9%nat /\
       DecodeHoloceneExtraData extra = (denom, elasticity) /\
       (ValidateHoloceneExtraData extra = None <-> (elasticity = 0 \/ denom <> 0))) /\
  (forall extra,
     ValidateHoloceneExtraData extra = None ->
     let '(denom, elasticity) := DecodeHoloceneExtraData extra in
     EncodeHoloceneExtraData denom elasticity = Ret extra /\
     (elasticity = 0 \/ denom <> 0)) /\
  (forall extra,
     length extra <> 9%nat ->
     DecodeHoloceneExtraData extra = (0, 0) /\
     ValidateHoloceneExtraData extra = Some (ErrExtraLength (length extra))).
Proof.
  split; [|split].
  - intros d e Hd He.
    destruct (params_encode_decode d e Hd He) as (params & Henc & Hlen & Hdec & Hval).
    exists (Byte.x00 :: params). rewrite EncodeExtra_Encode, Henc.
    split; [reflexivity|]. split; [cbn [length]; rewrite Hlen; reflexivity|].
    rewrite (DecodeExtra_cons _ _ Hlen), (ValidateExtra_cons _ _ Hlen).
    split; [exact Hdec | exact Hval].
  - intros extra Hv. unfold ValidateHoloceneExtraData in Hv.
    destruct (Z.of_nat (length extra) =? 9) eqn:El; [|discriminate]. cbn [negb] in Hv.
    apply Z.eqb_eq in El. destruct extra as [|v params]; [discriminate|].
    assert (Hlen : length params = 8%nat) by (cbn [length] in El; lia).
    destruct (to_Z v =? 0) eqn:Ev; [|discriminate]. cbn [negb] in Hv.
    apply Z.eqb_eq in Ev. apply to_Z_zero in Ev. subst v.
    rewrite (DecodeExtra_cons _ _ Hlen).
    pose proof (params_decode_encode params Hlen) as Hrt.
    unfold ValidateHolocene1559Params in Hv. rewrite Hlen in Hv.
    change (negb (Z.of_nat 8 =? 8)) with false in Hv. cbn iota in Hv.
    destruct (DecodeHolocene1559Params params) as [d e].
    destruct Hrt as (_ & _ & Henc). rewrite EncodeExtra_Encode, Henc.
    split; [reflexivity|].
    destruct (Z.eqb_spec e 0) as [Ee|Ee]; [left; exact Ee|].
    destruct (Z.eqb_spec d 0) as [Ed|Ed]; [discriminate | right; exact Ed].
  - intros extra Hlen.
    assert (El : (Z.of_nat (length extra) =? 9) = false) by (apply Z.eqb_neq; lia).
    unfold DecodeHoloceneExtraData, ValidateHoloceneExtraData. rewrite El.
    split; reflexivity.
Qed.

Lemma HoloceneExtraData_round_trip_witness :
  exists extra,
    EncodeHoloceneExtraData 10 2 = Ret extra /\
    length extra = 9%nat /\
    DecodeHoloceneExtraData extra = (10, 2) /\
    (ValidateHoloceneExtraData extra = None <-> (2 = 0 \/ 10 <> 0)).
Proof.
  apply (proj1 HoloceneExtraData_round_trip 10 2); unfold MaxUint32; lia.
Defined.

(** The denominator in effect for a parent header: the one decoded from the
    parent's extra data on an Optimism chain with Holocene active at the
    parent's time, the one of [getBaseFeeChangeDenominator] otherwise. *)
Definition denominatorInEffect (config : Config) (parent : Header) (time : Z) : Z :=
  if IsOptimism config && IsHolocene config (Time parent)
  then fst (DecodeHoloceneExtraData (Extra parent))
  else getBaseFeeChangeDenominator config (bigUint64 (Number parent)) time.

(** The gas target of a parent header. *)
Definition gasTarget (config : Config) (parent : Header) : Z :=
  GasLimit parent / elasticityInEffect config parent.

Definition holoceneActive (config : Config) (parent : Header) : bool :=
  IsOptimism config && IsHolocene config (Time parent).

(** [CalcBaseFee] after London, with the parameters in effect. *)
Lemma CalcBaseFee_in_effect config parent time :
  IsOptimismPreBedrock config (bigUint64 (Number parent)) = false ->
  IsLondon config (bigUint64 (Number parent)) = true ->
  CalcBaseFee config parent time =
    (if holoceneActive config parent && (denominatorInEffect config parent time =? 0)
     then Panic PanicInvalid1559Params
     else
       parentGasTarget ← udiv64 (GasLimit parent) (elasticityInEffect config parent);
       if GasUsed parent =? parentGasTarget then
         match BaseFee parent with
         | Some bf => Ret bf
         | None => Panic PanicNilDereference
         end
       else
         match BaseFee parent with
         | None => Panic PanicNilDereference
         | Some bf =>
             if parentGasTarget <? GasUsed parent then
               y ← bigDiv (bf * (GasUsed parent - parentGasTarget)) parentGasTarget;
               q ← bigDiv y (denominatorInEffect config parent time);
               Ret (bf + BigMax q 1)
             else
               y ← bigDiv (bf * (parentGasTarget - GasUsed parent)) parentGasTarget;
               baseFeeDelta ← bigDiv y (denominatorInEffect config parent time);
               Ret (BigMax (bf - baseFeeDelta) 0)
         end).
Proof.
  intros Hpre Hlon.
  unfold CalcBaseFee, elasticityInEffect, denominatorInEffect, holoceneActive.
  rewrite Hpre, Hlon. cbn [negb].
  destruct (IsOptimism config && IsHolocene config (Time parent)) eqn:Hh.
  - destruct (DecodeHoloceneExtraData (Extra parent)) as [d e] eqn:Hd.
    cbn [fst snd andb]. destruct (d =? 0); reflexivity.
  - cbn [andb]. reflexivity.
Qed.

(** Extra data that [ValidateHoloceneExtraData] accepts can still make
    [CalcBaseFee] panic.  For a parent after London on an Optimism chain
    with Holocene active: a decoded denominator of zero is the panic
    "invalid eip-1559 params in extradata", and with a non-zero denominator
    a decoded elasticity of zero is a division by zero; the extra data that
    encodes (denom, 0) passes the validation for every denominator. *)
Theorem CalcBaseFee_panics_on_validated_extra config parent time :
  IsOptimismPreBedrock config (bigUint64 (Number parent)) = false ->
  IsLondon config (bigUint64 (Number parent)) = true ->
  IsOptimism config && IsHolocene config (Time parent) = true ->
  (forall denom,
     0 <= denom <= MaxUint32 ->
     EncodeHoloceneExtraData denom 0 = Ret (Extra parent) ->
     ValidateHoloceneExtraData (Extra parent) = None /\
     CalcBaseFee config parent time
     = Panic (if denom =? 0 then PanicInvalid1559Params else PanicDivideByZero)) /\
  (fst (DecodeHoloceneExtraData (Extra parent)) = 0 ->
   CalcBaseFee config parent time = Panic PanicInvalid1559Params) /\
  (fst (DecodeHoloceneExtraData (Extra parent)) <> 0 ->
   snd (DecodeHoloceneExtraData (Extra parent)) = 0 ->
   CalcBaseFee config parent time = Panic PanicDivideByZero).
Proof.
  intros Hpre Hlon Hh.
  assert (H0 : fst (DecodeHoloceneExtraData (Extra parent)) = 0 ->
               CalcBaseFee config parent time = Panic PanicInvalid1559Params).
  { intros Hd. rewrite (CalcBaseFee_in_effect _ _ _ Hpre Hlon).
    unfold holoceneActive, denominatorInEffect. rewrite Hh, Hd. reflexivity. }
  assert (H1 : fst (DecodeHoloceneExtraData (Extra parent)) <> 0 ->
               snd (DecodeHoloceneExtraData (Extra parent)) = 0 ->
               CalcBaseFee config parent time = Panic PanicDivideByZero).
  { intros Hd He. rewrite (CalcBaseFee_in_effect _ _ _ Hpre Hlon).
    unfold holoceneActive, denominatorInEffect, elasticityInEffect. rewrite Hh.
    apply Z.eqb_neq in Hd. rewrite Hd, He. reflexivity. }
  split; [|split; assumption].
  intros d Hd Henc.
  assert (Hz : 0 <= 0 <= MaxUint32) by (unfold MaxUint32; lia).
  destruct (params_encode_decode d 0 Hd Hz) as (params & Hp & Hlen & Hdec & Hval).
  rewrite EncodeExtra_Encode, Hp in Henc. cbn [mbind go_bind] in Henc.
  injection Henc as Hex.
  assert (Hdec' : DecodeHoloceneExtraData (Extra parent) = (d, 0)).
  { rewrite <- Hex, (DecodeExtra_cons _ _ Hlen). exact Hdec. }
  rewrite Hdec' in H0, H1. cbn [fst snd] in H0, H1.
  split.
  { rewrite <- Hex, (ValidateExtra_cons _ _ Hlen). cbn [to_Z Byte.to_N Z.of_N Z.eqb negb].
    apply Hval. left. reflexivity. }
  destruct (Z.eqb_spec d 0) as [Ed|Ed]; [exact (H0 Ed) | exact (H1 Ed eq_refl)].
Qed.

Lemma CalcBaseFee_panics_on_validated_extra_witness :
  ValidateHoloceneExtraData (holoceneExtra 10 0) = None /\
  CalcBaseFee opConfig (mkHeader 32 30000000 5000000 (Some 10000000) 12 (holoceneExtra 10 0)) 14
  = Panic PanicDivideByZero.
Proof.
  apply (proj1 (CalcBaseFee_panics_on_validated_extra opConfig
                  (mkHeader 32 30000000 5000000 (Some 10000000) 12 (holoceneExtra 10 0)) 14
                  eq_refl eq_refl eq_refl) 10);
    [unfold MaxUint32; lia | reflexivity].
Defined.

(** Above the target the base fee rises, by one at least: for a parent after
    London whose parameters in effect and gas target are not zero and whose
    base fee is set, gasUsed above the target gives the parent's base fee
    plus max(1, baseFee * (gasUsed - target) / target / denominator). *)
Theorem CalcBaseFee_above_target config parent time bf :
  IsOptimismPreBedrock config (bigUint64 (Number parent)) = false ->
  IsLondon config (bigUint64 (Number parent)) = true ->
  BaseFee parent = Some bf ->
  elasticityInEffect config parent <> 0 ->
  denominatorInEffect config parent time <> 0 ->
  gasTarget config parent <> 0 ->
  gasTarget config parent < GasUsed parent ->
  exists delta,
    CalcBaseFee config parent time = Ret (bf + delta) /\
    1 <= delta /\
    delta = Z.max 1 (bf * (GasUsed parent - gasTarget config parent)
                     / gasTarget config parent / denominatorInEffect config parent time).
Proof.
  intros Hpre Hlon Hbf Hel Hden Ht Hused. unfold gasTarget in *.
  rewrite (CalcBaseFee_in_effect _ _ _ Hpre Hlon).
  apply Z.eqb_neq in Hden. rewrite Hden, andb_false_r.
  unfold udiv64. apply Z.eqb_neq in Hel. rewrite Hel. cbn [mbind go_bind].
  rewrite (proj2 (Z.eqb_neq _ _)) by lia. rewrite Hbf.
  rewrite (proj2 (Z.ltb_lt _ _) Hused).
  unfold bigDiv. apply Z.eqb_neq in Ht. rewrite Ht. cbn [mbind go_bind]. rewrite Hden.
  cbn [mbind go_bind]. eexists. split; [reflexivity|].
  unfold BigMax. destruct (_ <? 1) eqn:E.
  - apply Z.ltb_lt in E. split; [lia|]. lia.
  - apply Z.ltb_ge in E. split; [lia|]. lia.
Qed.

Lemma CalcBaseFee_above_target_witness :
  exists delta,
    CalcBaseFee opConfig
      (mkHeader 32 30000000 20000000 (Some 10000000) 12 (holoceneExtra 10 2)) 14
    = Ret (10000000 + delta) /\ 1 <= delta /\ delta = Z.max 1 (10000000 * (20000000 - 15000000) / 15000000 / 10).
Proof.
  apply (CalcBaseFee_above_target opConfig
           (mkHeader 32 30000000 20000000 (Some 10000000) 12 (holoceneExtra 10 2)) 14
           10000000); try reflexivity; vm_compute; discriminate.
Defined.

(** Below the target the base fee falls, never below zero and by no more
    than its share 1/denominator: for a parent after London with a base fee
    that is not negative, a denominator and a gas target above zero and
    gasUsed below the target. *)
Theorem CalcBaseFee_below_target config parent time bf :
  IsOptimismPreBedrock config (bigUint64 (Number parent)) = false ->
  IsLondon config (bigUint64 (Number parent)) = true ->
  BaseFee parent = Some bf ->
  0 <= bf ->
  elasticityInEffect config parent <> 0 ->
  0 < denominatorInEffect config parent time ->
  0 <= GasUsed parent < gasTarget config parent ->
  exists r,
    CalcBaseFee config parent time = Ret r /\
    0 <= r <= bf /\
    bf - bf / denominatorInEffect config parent time <= r.
Proof.
  intros Hpre Hlon Hbf Hbf0 Hel Hden Hused. unfold gasTarget in *.
  rewrite (CalcBaseFee_in_effect _ _ _ Hpre Hlon).
  rewrite (proj2 (Z.eqb_neq _ _)) by lia. rewrite andb_false_r.
  unfold udiv64. apply Z.eqb_neq in Hel. rewrite Hel. cbn [mbind go_bind].
  set (t := GasLimit parent / elasticityInEffect config parent) in *.
  set (d := denominatorInEffect config parent time) in *.
  rewrite (proj2 (Z.eqb_neq _ _)) by lia. rewrite Hbf.
  rewrite (proj2 (Z.ltb_ge _ _)) by lia.
  unfold bigDiv. rewrite (proj2 (Z.eqb_neq t 0)) by lia. cbn [mbind go_bind].
  rewrite (proj2 (Z.eqb_neq d 0)) by lia. cbn [mbind go_bind].
  eexists. split; [reflexivity|].
  assert (Hy0 : 0 <= bf * (t - GasUsed parent) / t).
  { apply Z.div_pos; [apply Z.mul_nonneg_nonneg|]; lia. }
  assert (Hy1 : bf * (t - GasUsed parent) / t <= bf).
  { apply Z.div_le_upper_bound; [lia|]. rewrite (Z.mul_comm t bf).
    apply Z.mul_le_mono_nonneg_l; lia. }
  assert (Hq0 : 0 <= bf * (t - GasUsed parent) / t / d) by (apply Z.div_pos; lia).
  assert (Hq1 : bf * (t - GasUsed parent) / t / d <= bf / d)
    by (apply Z.div_le_mono; lia).
  unfold BigMax. destruct (_ <? 0) eqn:E.
  - apply Z.ltb_lt in E. assert (0 <= bf / d) by (apply Z.div_pos; lia). lia.
  - apply Z.ltb_ge in E. lia.
Qed.

Lemma CalcBaseFee_below_target_witness :
  exists r,
    CalcBaseFee opConfig
      (mkHeader 32 30000000 10000000 (Some 10000000) 12 (holoceneExtra 10 2)) 14 = Ret r /\
    0 <= r <= 10000000 /\ 10000000 - 10000000 / 10 <= r.
Proof.
  apply (CalcBaseFee_below_target opConfig
           (mkHeader 32 30000000 10000000 (Some 10000000) 12 (holoceneExtra 10 2)) 14
           10000000);
    first [reflexivity | vm_compute; discriminate
          | vm_compute; split; [discriminate | reflexivity]].
Defined.

End BaseFeeFacts.

(** ** Facts about the domain: reads after writes, deletion, the files *)

Module StateFacts.

Import Bytes State.

(** [DomainRoTx.Get]: the two parts of the key are copied into [keyBuf], an
    array of 60 bytes, and the slice of their length is taken of it. *)
Definition Get (d : Domain) (files : list ctxItem) (key1 key2 : list byte) (roTx : Tx)
  : go (Domain * (slice * option error)) :=
  if 60 <? Z.of_nat (length key1) + Z.of_nat (length key2) then Panic PanicIndexOutOfRange
  else
    (* keys larger than 52 bytes will panic *)
    '(d, (v, _, err)) ← get d files (key1 ++ key2) (txNum d) roTx;
    Ret (d, (v, err)).

Lemma SeekBothRange_vals t k v key x :
  SeekBothRange (PutVal t k v) key x = SeekBothRange t key x.
Proof. reflexivity. Qed.

Lemma SeekBothRange_DeleteVal t k key x :
  SeekBothRange (DeleteVal t k) key x = SeekBothRange t key x.
Proof. reflexivity. Qed.

Lemma GetOne_DeleteVal t k : GetOne (DeleteVal t k) k = None.
Proof. unfold GetOne, DeleteVal. cbn [valsTable]. apply lookup_delete_eq. Qed.

(** What [get] answers at the current step once the key has been written
    there: what the values table holds for the key and the step. *)
Lemma get_at_written_step D fs key t' :
  aggregationStep D <> 0 ->
  Z.of_nat (length key) <= 52 ->
  SeekBothRange t' key (inv64 (txNum D / aggregationStep D))
  = Some (inv64 (txNum D / aggregationStep D)) ->
  get D fs key (txNum D) t'
  = Ret (addTotalQueries D,
         (GetOne t' (key ++ be8 (inv64 (txNum D / aggregationStep D))), true, None)).
Proof.
  intros Hagg Hlen Hseek. unfold get.
  cbn [aggregationStep txNum addTotalQueries withStats].
  apply Z.eqb_neq in Hagg. rewrite Hagg, Hseek.
  rewrite (proj2 (Z.ltb_ge _ _) Hlen). reflexivity.
Qed.

(** After a [Put] that returned no error, [Get] of the key returns the value
    put (a nil value and an empty one being the same to [bytes.Equal]). *)
Theorem Put_then_Get key1 key2 val d fs d1 :
  defaultDc d = Some fs ->
  Z.of_nat (length (key1 ++ key2)) <= 52 ->
  Put key1 key2 val d = Ret (d1, None) ->
  exists d2 v,
    Get d1 fs key1 key2 (tx d1) = Ret (d2, (v, None)) /\
    bytesEqual v val = true.
Proof.
  intros Hdc Hlen HP. unfold Get.
  rewrite length_app in Hlen.
  rewrite (proj2 (Z.ltb_ge _ _)) by lia. rewrite <- length_app in Hlen.
  unfold Put in HP. rewrite Hdc in HP.
  apply go_bind_inv in HP. destruct HP as ([dA [[original found] err]] & Hget & HP).
  pose proof (get_sameButStats _ _ _ _ _ _ _ Hget) as (HsA & Hagg & Hcongr).
  destruct err as [e|]; [discriminate|].
  destruct (bytesEqual original val) eqn:Heq.
  - inversion HP. subst dA. destruct (Hcongr d1 HsA) as (d2 & Hget2 & _).
    destruct HsA as (A1 & A2 & A3 & A4 & A5 & A6).
    rewrite A2, A3, Hget2. cbn [mbind go_bind]. exists d2, original.
    split; [reflexivity | exact Heq].
  - unfold update in HP. cbn [aggregationStep AddPrevValue withHistory] in HP.
    destruct HsA as (A1 & A2 & A3 & A4 & A5 & A6).
    assert (E0 : (aggregationStep dA =? 0) = false) by (apply Z.eqb_neq; congruence).
    rewrite E0 in HP. cbn [mbind go_bind] in HP. inversion HP. subst d1. clear HP.
    rewrite get_at_written_step.
    + cbn [mbind go_bind]. eexists _, _. split; [reflexivity|].
      cbn [txNum tx withTx withHistory aggregationStep].
      rewrite GetOne_PutVal. apply bytesEqual_content.
    + cbn. apply Z.eqb_neq in E0. exact E0.
    + exact Hlen.
    + cbn [txNum tx withTx withHistory aggregationStep].
      rewrite SeekBothRange_vals. apply SeekBothRange_PutKey.
Qed.

Lemma Put_then_Get_witness :
  exists d1 d2 v,
    Put keyK [] (Some [Byte.x77]) collated = Ret (d1, None) /\
    Get d1 twoFiles keyK [] (tx d1) = Ret (d2, (v, None)) /\
    bytesEqual v (Some [Byte.x77]) = true.
Proof.
  assert (Hlen : Z.of_nat (length (keyK ++ [])) <= 52) by (cbn; lia).
  assert (HP : Put keyK [] (Some [Byte.x77]) collated
               = Ret (withTx (withHistory (addHistoryQueries (addTotalQueries collated))
                                [mkPrevValue 40 keyK [] None])
                        (PutVal (PutKey emptyTx keyK (inv64 2)) (keyK ++ be8 (inv64 2))
                           [Byte.x77]), None))
    by (vm_compute; reflexivity).
  destruct (Put_then_Get keyK [] (Some [Byte.x77]) collated twoFiles _ eq_refl Hlen HP)
    as (d2 & v & HG & Hv).
  eexists _, d2, v. split; [exact HP|]. split; [exact HG | exact Hv].
Defined.

(** What [Delete] does once [get] has found the key: the previous value goes
    to the history, the step is written for the key and the value of the
    key at the step is deleted. *)
Lemma Delete_found key1 key2 d fs d' original :
  defaultDc d = Some fs ->
  get d fs (key1 ++ key2) (txNum d) (tx d) = Ret (d', (original, true, None)) ->
  Delete key1 key2 d
  = Ret (withTx (AddPrevValue d' key1 key2 original)
           (DeleteVal (PutKey (tx d') (key1 ++ key2) (inv64 (txNum d' / aggregationStep d')))
              ((key1 ++ key2) ++ be8 (inv64 (txNum d' / aggregationStep d')))), None).
Proof.
  intros Hdc Hget. unfold Delete. rewrite Hdc, Hget. cbn [mbind go_bind negb].
  pose proof (get_sameButStats _ _ _ _ _ _ _ Hget) as ((A1 & _) & Hagg & _).
  unfold update. cbn [aggregationStep AddPrevValue withHistory].
  rewrite (proj2 (Z.eqb_neq _ _)) by congruence. reflexivity.
Qed.

(** [Delete] of a key that [get] does not find is a no-op.  When [get] finds
    the key, its previous value is handed to the history and the value is
    removed: [Get] then returns nil.  The key stays found, so a second
    [Delete] hands a further previous value, nil, to the history. *)
Theorem Delete_then_Get key1 key2 d fs :
  defaultDc d = Some fs ->
  Z.of_nat (length (key1 ++ key2)) <= 52 ->
  (forall d' original,
     get d fs (key1 ++ key2) (txNum d) (tx d) = Ret (d', (original, false, None)) ->
     Delete key1 key2 d = Ret (d', None) /\
     tx d' = tx d /\ history d' = history d) /\
  (forall d' original,
     get d fs (key1 ++ key2) (txNum d) (tx d) = Ret (d', (original, true, None)) ->
     exists d1 d2,
       Delete key1 key2 d = Ret (d1, None) /\
       history d1 = history d ++ [mkPrevValue (txNum d) key1 key2 original] /\
       Get d1 fs key1 key2 (tx d1) = Ret (addTotalQueries d1, (None, None)) /\
       Delete key1 key2 d1 = Ret (d2, None) /\
       history d2 = history d1 ++ [mkPrevValue (txNum d) key1 key2 None]).
Proof.
  intros Hdc Hlen. split.
  - intros d' original Hget.
    pose proof (get_sameButStats _ _ _ _ _ _ _ Hget) as ((A1 & A2 & A3 & A4 & A5 & A6) & _).
    unfold Delete. rewrite Hdc, Hget. cbn [mbind go_bind negb].
    repeat split; assumption.
  - intros d' original Hget.
    pose proof (get_sameButStats _ _ _ _ _ _ _ Hget)
      as ((A1 & A2 & A3 & A4 & A5 & A6) & Hagg & _).
    rewrite (Delete_found _ _ _ _ _ _ Hdc Hget).
    set (step := inv64 (txNum d' / aggregationStep d')).
    set (d1 := withTx (AddPrevValue d' key1 key2 original)
                 (DeleteVal (PutKey (tx d') (key1 ++ key2) step)
                    ((key1 ++ key2) ++ be8 step))).
    assert (Hget1 : get d1 fs (key1 ++ key2) (txNum d1) (tx d1)
                    = Ret (addTotalQueries d1, (None, true, None))).
    { rewrite get_at_written_step.
      - subst d1. cbn [txNum tx withTx AddPrevValue withHistory aggregationStep].
        fold step. rewrite GetOne_DeleteVal. reflexivity.
      - subst d1. cbn. congruence.
      - exact Hlen.
      - subst d1. cbn [txNum tx withTx AddPrevValue withHistory aggregationStep].
        fold step. rewrite SeekBothRange_DeleteVal. apply SeekBothRange_PutKey. }
    assert (Hdc1 : defaultDc d1 = Some fs) by (subst d1; cbn; congruence).
    eexists d1, _. split; [reflexivity|]. split.
    { subst d1. cbn [history withTx AddPrevValue withHistory]. rewrite A4, A2. reflexivity. }
    split.
    { unfold Get. rewrite length_app in Hlen. rewrite (proj2 (Z.ltb_ge _ _)) by lia.
      rewrite Hget1. reflexivity. }
    rewrite (Delete_found _ _ _ _ _ _ Hdc1 Hget1). split; [reflexivity|].
    subst d1. cbn [history withTx AddPrevValue withHistory txNum addTotalQueries withStats].
    rewrite A2. reflexivity.
Qed.

(** In the written domain "k" holds "v": deleting it records "v", and
    deleting it once more records nil. *)
Lemma Delete_then_Get_witness :
  exists d1 d2,
    Delete keyK [] written = Ret (d1, None) /\
    history d1 = [mkPrevValue 40 keyK [] valV] /\
    Get d1 twoFiles keyK [] (tx d1) = Ret (addTotalQueries d1, (None, None)) /\
    Delete keyK [] d1 = Ret (d2, None) /\
    history d2 = history d1 ++ [mkPrevValue 40 keyK [] None].
Proof.
  assert (Hlen : Z.of_nat (length (keyK ++ [])) <= 52) by (cbn; lia).
  assert (Hget : get written twoFiles (keyK ++ []) (txNum written) (tx written)
                 = Ret (addTotalQueries written, (valV, true, None)))
    by (vm_compute; reflexivity).
  exact (proj2 (Delete_then_Get keyK [] written twoFiles eq_refl Hlen) _ _ Hget).
Defined.

Lemma release_acquire f :
  frozen f = true \/
  (- 2 ^ 31 <= refcount f < 2 ^ 31 - 1 /\ (refcount f = 0 -> canDelete f = false)) ->
  release (acquire f) = f.
Proof.
  destruct f as [fr r cd bi rm]. unfold release, acquire.
  cbn [frozen refcount canDelete bindex removed]. intros H.
  destruct fr; cbn [negb frozen refcount canDelete bindex removed]; [reflexivity|].
  destruct H as [H|[Hr Hc]]; [discriminate|].
  rewrite (wrapInt32_small (r + 1)) by lia.
  replace (r + 1 - 1) with r by lia. rewrite (wrapInt32_small r) by lia.
  destruct (Z.eqb_spec r 0) as [E0|E0]; cbn [andb]; [|reflexivity].
  rewrite (Hc E0). reflexivity.
Qed.

Lemma release_acquire_garbage f :
  frozen f = false -> refcount f = 0 -> canDelete f = true ->
  release (acquire f) = closeFilesAndRemove f.
Proof.
  destruct f as [fr r cd bi rm]. unfold release, acquire, closeFilesAndRemove.
  cbn [frozen refcount canDelete bindex removed]. intros -> -> ->. reflexivity.
Qed.

(** A read transaction that begins and is closed leaves the files as they
    were: [Close] undoes [BeginFilesRo] on every file, frozen or with a
    count that fits the 32 bits, except for a file already marked canDelete
    whose count is zero, which this [Close] closes and removes. *)
Theorem Close_undoes_BeginFilesRo h vs :
  NoDup (src <$> vs) ->
  (forall item f,
     item ∈ vs -> h !! src item = Some f -> frozen f = false ->
     - 2 ^ 31 <= refcount f < 2 ^ 31 - 1) ->
  (BeginFilesRo h vs).2 = vs /\
  ((forall item f,
      item ∈ vs -> h !! src item = Some f -> frozen f = false ->
      refcount f = 0 -> canDelete f = false) ->
   Close (BeginFilesRo h vs).1 vs = h) /\
  (forall item f,
     item ∈ vs -> h !! src item = Some f -> frozen f = false ->
     refcount f = 0 -> canDelete f = true ->
     Close (BeginFilesRo h vs).1 vs !! src item = Some (closeFilesAndRemove f)).
Proof.
  intros Hnd Hrange. unfold Close, BeginFilesRo. cbn [fst snd].
  split; [reflexivity|]. split.
  - intros Hlive. apply map_eq. intros i.
    rewrite !(foldl_alter_lookup _ _ _ _ Hnd).
    destruct (holds i vs) eqn:Eh; [|reflexivity].
    destruct (h !! i) as [f|] eqn:Ef; [|reflexivity]. cbn. f_equal.
    apply holds_inv in Eh. destruct Eh as (item & Hin & <-).
    apply release_acquire. destruct (frozen f) eqn:Efr; [left; reflexivity|]. right.
    split; [exact (Hrange _ _ Hin Ef Efr) | exact (Hlive _ _ Hin Ef Efr)].
  - intros item f Hin Hf Efr Hr Hc.
    rewrite !(foldl_alter_lookup _ _ _ _ Hnd), (holds_elem _ _ Hin), Hf. cbn. f_equal.
    apply release_acquire_garbage; assumption.
Qed.

Lemma Close_undoes_BeginFilesRo_witness :
  Close (BeginFilesRo (heap collated) twoFiles).1 twoFiles = heap collated.
Proof.
  assert (Hin : forall item, item ∈ twoFiles ->
                  item = mkCtxItem 0 16 0 \/ item = mkCtxItem 16 32 1).
  { intros item H. unfold twoFiles in H. apply elem_of_cons in H.
    destruct H as [->|H]; [left; reflexivity|]. apply elem_of_cons in H.
    destruct H as [->|H]; [right; reflexivity | inversion H]. }
  refine (proj1 (proj2 (Close_undoes_BeginFilesRo (heap collated) twoFiles _ _)) _).
  - apply (bool_decide_unpack _). vm_compute. exact I.
  - intros item f H Hf _. destruct (Hin item H) as [->| ->];
      vm_compute in Hf; injection Hf as <-; cbn; lia.
  - intros item f H Hf _ _. destruct (Hin item H) as [->| ->];
      vm_compute in Hf; injection Hf as <-; reflexivity.
Defined.

Lemma readFromFilesLoop_stops h newer item older key n :
  endTxNum item < n ->
  readFromFilesLoop h (newer ++ item :: older) key n = readFromFilesLoop h newer key n.
Proof.
  intros Hend. induction newer as [|a newer IH]; cbn [app readFromFilesLoop].
  - rewrite (proj2 (Z.ltb_lt _ _) Hend). reflexivity.
  - destruct (endTxNum a <? n); [reflexivity|].
    destruct (statelessBtree h a) as [reader|p]; [|reflexivity]. cbn [mbind go_bind].
    destruct (Empty reader); [exact IH|].
    destruct (Seek reader key) as [[[k v]|]|err]; [|exact IH|reflexivity].
    destruct (Bytes.eqb k key); [reflexivity | exact IH].
Qed.

(** [readFromFiles] reads the files from the newest to the oldest and stops
    at the first one that ends before the transaction number asked for:
    that file and all the older ones are not read, whatever they hold. *)
Theorem readFromFiles_stops_at_old_file h older item newer key n :
  endTxNum item < n ->
  readFromFiles h (older ++ item :: newer) key n = readFromFiles h newer key n.
Proof.
  intros Hend. unfold readFromFiles.
  rewrite rev_app_distr. cbn [rev]. rewrite <- app_assoc. cbn [app].
  apply readFromFilesLoop_stops. exact Hend.
Qed.

Lemma readFromFiles_stops_at_old_file_witness :
  readFromFiles (heap collated) twoFiles keyK 19
  = readFromFiles (heap collated) [mkCtxItem 16 32 1] keyK 19.
Proof.
  apply (readFromFiles_stops_at_old_file (heap collated) [] (mkCtxItem 0 16 0)
           [mkCtxItem 16 32 1] keyK 19).
  cbn. lia.
Defined.

End StateFacts.

(** ** Facts about the transition: the checks before execution, the gas *)

Module CoreFacts.

Import Core.

Section Facts.

Context {Rest : Type}.
Variable env : Env Rest.
Variable msg : Message.

(** [preCheck] on the nonce of a message that is not a deposit and asks for
    the check: a state nonce below the message's is [ErrNonceTooHigh], one
    above it is [ErrNonceTooLow], and the last nonce of 64 bits is
    [ErrNonceMax]; in each case the transition is returned as it was, before
    any fee is looked at or gas is bought. *)
Theorem preCheck_nonce gasBailout (st : StateTransition Rest) :
  IsDepositTx msg = false ->
  CheckNonce msg = true ->
  (GetNonce (theWorld st) (From msg) < Nonce msg ->
   preCheck env msg gasBailout st = Ret (st, Some (Wrap ErrNonceTooHigh))) /\
  (Nonce msg < GetNonce (theWorld st) (From msg) ->
   preCheck env msg gasBailout st = Ret (st, Some (Wrap ErrNonceTooLow))) /\
  (Nonce msg = GetNonce (theWorld st) (From msg) ->
   GetNonce (theWorld st) (From msg) = U.two64 - 1 ->
   preCheck env msg gasBailout st = Ret (st, Some (Wrap ErrNonceMax))).
Proof.
  intros Hdep Hcheck. unfold preCheck. rewrite Hdep, Hcheck.
  split; [|split].
  - intros H. rewrite (proj2 (Z.ltb_lt _ _) H). reflexivity.
  - intros H. rewrite (proj2 (Z.ltb_ge _ _)) by lia.
    rewrite (proj2 (Z.ltb_lt _ _) H). reflexivity.
  - intros H Hmax. rewrite <- H. rewrite Z.ltb_irrefl.
    rewrite H, Hmax. reflexivity.
Qed.

(** [preCheck] of a deposit returns (it does not panic) and leaves the world
    state as it was: no nonce is checked and no gas is bought.  It fails
    only for a value the balance does not cover (unless bailing out), for a
    system transaction under Regolith, or at the gas pool, which a system
    transaction does not touch; on success the gas limit is the initial gas
    and is added to the gas that remains. *)
Theorem preCheck_deposit gasBailout (st : StateTransition Rest) :
  IsDepositTx msg = true ->
  exists st' err,
    preCheck env msg gasBailout st = Ret (st', err) /\
    state st' = state st /\
    (IsSystemTx msg = true -> gp st' = gp st) /\
    (GetBalance (theWorld st) (From msg) < Value msg -> gasBailout = false ->
     st' = st /\ err = Some (Wrap ErrInsufficientFunds)) /\
    (err = None ->
     initialGas st' = Gas msg /\
     gasRemaining st' = U.wrap64 (gasRemaining st + Gas msg)).
Proof.
  intros Hdep. unfold preCheck. rewrite Hdep.
  unfold withGp, withGasRemaining, withInitialGas.
  cbn [gp gasRemaining initialGas state BlobFee sharedBuyGas sharedBuyGasBalance].
  destruct (GetBalance (theWorld st) (From msg) <? Value msg) eqn:Eb;
    destruct gasBailout; cbn [negb andb].
  all: try (apply Z.ltb_ge in Eb).
  all: try (apply Z.ltb_lt in Eb).
  2: { eexists _, _. split; [reflexivity|]. split; [reflexivity|].
       split; [reflexivity|]. split; [auto | discriminate]. }
  all: destruct (IsSystemTx msg) eqn:Esys.
  all: try destruct (IsOptimismRegolith env).
  all: try destruct (SubGas (gp st) (Gas msg)) as [gp'|e] eqn:Eg.
  all: eexists _, _; (split; [reflexivity|]); (split; [reflexivity|]).
  all: (split; [first [reflexivity | discriminate]|]).
  all: split; [intros; first [discriminate | lia]|].
  all: try discriminate.
  all: intros _; split; reflexivity.
Qed.

(** With [gasBailout] set, [buyGas] returns (it does not panic) and leaves
    the world state as it was: no balance is checked and none is debited. *)
Theorem buyGas_bailout (st : StateTransition Rest) :
  exists st' err,
    buyGas env msg true st = Ret (st', err) /\
    state st' = state st /\
    (err = None ->
     initialGas st' = Gas msg /\
     gasRemaining st' = U.wrap64 (gasRemaining st + Gas msg)).
Proof.
  destruct (buyGas env msg true st) as [[st' err]|p] eqn:H.
  - exists st', err. split; [reflexivity|]. unfold buyGas in H. cbn [negb] in H.
    repeat (break_hyp H; try discriminate H).
    all: inversion H; subst; split; [reflexivity|].
    all: first [discriminate | intros _; split; reflexivity].
  - exfalso. unfold buyGas in H. cbn [negb] in H.
    repeat (break_hyp H; try discriminate H).
Qed.

(** The value of [gasVal] when [buyGas] debits it.  Without a fee cap
    [balanceCheck] and [gasVal] are one integer, so that the second addition
    of the L1 cost lands in [gasVal] too. *)
Definition debited : Z :=
  let gasVal := U.wrap256 (Gas msg * GasPrice msg) in
  match l1CostOf env msg, FeeCap msg with
  | Some c, Some _ => U.add gasVal c
  | Some c, None => U.wrap256 (U.add gasVal c + c)
  | None, _ => gasVal
  end.

(** What a successful [buyGas] debits when not bailing out: the gas limit
    times the gas price, which fits 256 bits, plus the L1 cost when there is
    one, and the blob fee, from the sender and from nobody else.  Without a
    fee cap the balance that is checked and the amount that is debited are
    one integer, and the L1 cost is added to it a second time. *)
Theorem buyGas_debits (st st' : StateTransition Rest) :
  buyGas env msg false st = Ret (st', None) ->
  exists blobGasVal,
    BlobFee st' = Some blobGasVal /\
    (IsCancun env = false -> blobGasVal = 0) /\
    Gas msg * GasPrice msg < U.two256 /\
    theWorld st' = SubBalance (SubBalance (theWorld st) (From msg) debited) (From msg) blobGasVal /\
    validRevisions (state st') = validRevisions (state st) /\
    initialGas st' = Gas msg /\
    gasRemaining st' = U.wrap64 (gasRemaining st + Gas msg).
Proof.
  unfold buyGas, debited, U.MulOverflow, U.AddOverflow, gasPrice, gasFeeCap, value. intros H.
  cbn [negb] in H.
  destruct (U.two256 <=? Gas msg * GasPrice msg) eqn:Eov; [discriminate|].
  apply Z.leb_gt in Eov.
  destruct (l1CostOf env msg) as [c|]; destruct (FeeCap msg) as [feeCap|];
    destruct (IsCancun env).
  all: repeat (break_hyp H; try discriminate H).
  all: inversion H; subst; clear H.
  all: eexists; split; [reflexivity|].
  all: split; [intros; first [discriminate | reflexivity]|].
  all: split; [exact Eov|].
  all: repeat split.
Qed.

(** [refundGas] gives back the refund counter of the state, capped at the
    quotient's share of the gas used, and pays the sender the gas that
    remains at the gas price.  With gas figures of 64 bits, the gas used
    falls by the refund and by no more than its share 1/refundQuotient. *)
Theorem refundGas_cap refundQuotient (st : StateTransition Rest) :
  0 < refundQuotient ->
  0 <= gasRemaining st <= initialGas st ->
  initialGas st < U.two64 ->
  0 <= GetRefund (theWorld st) ->
  exists st',
    refundGas msg refundQuotient st = Ret st' /\
    gasUsed st' = gasUsed st - Z.min (GetRefund (theWorld st)) (gasUsed st / refundQuotient) /\
    gasUsed st - gasUsed st / refundQuotient <= gasUsed st' <= gasUsed st /\
    initialGas st' = initialGas st /\
    GetBalance (theWorld st') (From msg)
    = U.add (GetBalance (theWorld st) (From msg)) (U.mul (gasRemaining st') (GasPrice msg)) /\
    (forall a, a <> From msg -> GetBalance (theWorld st') a = GetBalance (theWorld st) a).
Proof.
  intros Hq Hrem Hinit Href. unfold refundGas.
  rewrite (proj2 (Z.eqb_neq _ _)) by lia.
  eexists. split; [reflexivity|].
  unfold gasUsed, withGp, withWorld, withState, withGasRemaining, onWorld, theWorld, gasPrice.
  cbn [gp gasRemaining initialGas state BlobFee sharedBuyGas sharedBuyGasBalance world
       validRevisions].
  assert (Hu : U.wrap64 (initialGas st - gasRemaining st) = initialGas st - gasRemaining st)
    by (apply U.wrap64_small; lia).
  rewrite Hu.
  set (used := initialGas st - gasRemaining st) in *.
  assert (Hdiv0 : 0 <= used / refundQuotient) by (apply Z.div_pos; lia).
  assert (Hdiv1 : used / refundQuotient <= used).
  { apply Z.div_le_upper_bound; [lia|]. nia. }
  set (r := if refund (world (state st)) <? used / refundQuotient
            then refund (world (state st)) else used / refundQuotient).
  unfold GetRefund, theWorld in Href.
  assert (Hr : r = Z.min (refund (world (state st))) (used / refundQuotient)).
  { subst r. destruct (_ <? _) eqn:E; [apply Z.ltb_lt in E | apply Z.ltb_ge in E]; lia. }
  assert (Hr0 : 0 <= r <= used / refundQuotient) by lia.
  unfold GetRefund. fold r.
  rewrite (U.wrap64_small (gasRemaining st + r)) by (subst used; lia).
  rewrite (U.wrap64_small (initialGas st - (gasRemaining st + r))) by (subst used; lia).
  split; [subst used; lia|]. split; [subst used; lia|]. split; [reflexivity|].
  unfold GetBalance, AddBalance. cbn [balance]. split.
  - rewrite upd_same. reflexivity.
  - intros a Ha. rewrite upd_other by exact Ha. reflexivity.
Qed.

End Facts.

Lemma preCheck_nonce_witness :
  preCheck (demoEnv true false) (transferFrom 5) false
    (withWorld demoState (fun w => SetNonce w 5 3))
  = Ret (withWorld demoState (fun w => SetNonce w 5 3), Some (Wrap ErrNonceTooLow)).
Proof.
  apply (preCheck_nonce (demoEnv true false) (transferFrom 5) false
           (withWorld demoState (fun w => SetNonce w 5 3)) eq_refl eq_refl).
  vm_compute. reflexivity.
Defined.

Lemma preCheck_deposit_witness :
  exists st' err,
    preCheck (demoEnv true true) (depositOf 9 false) false demoState = Ret (st', err) /\
    state st' = state demoState.
Proof.
  destruct (preCheck_deposit (demoEnv true true) (depositOf 9 false) false demoState eq_refl)
    as (st' & err & H1 & H2 & _).
  exists st', err. split; assumption.
Defined.

Lemma buyGas_debits_witness :
  exists st' blobGasVal,
    buyGas (demoEnv true false) (transferFrom 5) false demoState = Ret (st', None) /\
    BlobFee st' = Some blobGasVal /\
    GetBalance (theWorld st') 5 = 1000000 - 21000 * 12.
Proof.
  destruct (buyGas (demoEnv true false) (transferFrom 5) false demoState)
    as [[st' [e|]]|p] eqn:H; try (vm_compute in H; discriminate).
  destruct (buyGas_debits (demoEnv true false) (transferFrom 5) demoState st' H)
    as (b & Hb & Hc & _ & Hw & _).
  exists st', b. split; [reflexivity|]. split; [exact Hb|].
  rewrite Hw, (Hc eq_refl). vm_compute. reflexivity.
Defined.

Definition refundState : StateTransition unit :=
  mkStateTransition (mkGasPool 0 0) 40000 100000
    (mkIntraBlockState (AddRefund demoWorld 30000) []) None 0 0.

Lemma refundGas_cap_witness :
  exists st',
    refundGas (transferFrom 5) 5 refundState = Ret st' /\
    gasUsed st' = 60000 - 12000.
Proof.
  assert (H1 : 0 < 5) by lia.
  assert (H2 : 0 <= gasRemaining refundState <= initialGas refundState) by (cbn; lia).
  assert (H3 : initialGas refundState < U.two64) by (cbn; unfold U.two64; lia).
  assert (H4 : 0 <= GetRefund (theWorld refundState)) by (vm_compute; discriminate).
  destruct (refundGas_cap (transferFrom 5) 5 refundState H1 H2 H3 H4) as (st' & H & Hu & _).
  exists st'. split; [exact H|]. rewrite Hu. vm_compute. reflexivity.
Defined.

End CoreFacts.

(** ** Facts about transaction parsing *)

Module TxnFacts.

Import Bytes TxParse ParseTx.

(** The signature of a typed transaction: [v] is the y-parity as it stands,
    any value below 256 and nothing above; the chain ID of the signature is
    not written and the configured chain ID is not read, so a nil one (as
    the authorization list passes it) is no panic. *)
Theorem parseSignature_typed rd payload pos cfgChainId sig p v :
  rlp.U256 rd payload pos = inl (p, v) -> U.is_u256 v ->
  (256 <= v ->
   parseSignature rd payload pos false cfgChainId sig
   = Ret (setV sig v, inr (SigErrVTooBig v))) /\
  (v < 256 ->
   (forall e,
      rlp.U256 rd payload p = inr e ->
      parseSignature rd payload pos false cfgChainId sig
      = Ret (setV sig v, inr (SigErrR e))) /\
   (forall p1 r e,
      rlp.U256 rd payload p = inl (p1, r) -> rlp.U256 rd payload p1 = inr e ->
      parseSignature rd payload pos false cfgChainId sig
      = Ret (mkSignature (ChainID sig) v r (S sig), inr (SigErrS e))) /\
   (forall p1 r p2 s,
      rlp.U256 rd payload p = inl (p1, r) -> rlp.U256 rd payload p1 = inl (p2, s) ->
      parseSignature rd payload pos false cfgChainId sig
      = Ret (mkSignature (ChainID sig) v r s, inl (p2, v)))).
Proof.
  intros HV [Hv0 Hv1]. unfold parseSignature. rewrite HV. cbn [V setV].
  change (2 ^ 8) with 256. split.
  - intros Hbig. rewrite (proj2 (Z.ltb_ge _ _) Hbig). reflexivity.
  - intros Hsmall. rewrite (proj2 (Z.ltb_lt _ _) Hsmall). cbn [negb mbind go_bind].
    assert (Hb : toByte (U.wrap64 v) = v).
    { unfold toByte. rewrite U.wrap64_small by (unfold U.two64; lia).
      apply Z.mod_small. lia. }
    rewrite Hb. split; [|split].
    + intros e He. rewrite He. reflexivity.
    + intros p1 r e Hr He. rewrite Hr, He. reflexivity.
    + intros p1 r p2 s Hr Hs. rewrite Hr, Hs. reflexivity.
Qed.

(** The bytes of v = 1, r = 5 and s = 7, parsed as the signature of a typed
    transaction with no configured chain ID. *)
Lemma parseSignature_typed_witness :
  parseSignature Ref.reader [Byte.x01; Byte.x05; Byte.x07] 0 false None (mkSignature 0 0 0 0)
  = Ret (mkSignature 0 1 5 7, inl (3, 1)).
Proof.
  refine (proj2 (proj2 (proj2 (parseSignature_typed Ref.reader [Byte.x01; Byte.x05; Byte.x07]
                                 0 None (mkSignature 0 0 0 0) 1 1 _ _) _)) 2 5 3 7 _ _).
  - vm_compute. reflexivity.
  - unfold U.is_u256, U.two256. lia.
  - lia.
  - vm_compute. reflexivity.
  - vm_compute. reflexivity.
Defined.

Section Rejections.

Variable rd : rlp.Reader.
Variable keccak256 : list byte -> list byte.
Variable signedBody :
  list byte -> Z -> Z -> bool -> Z -> TxSlot -> list byte ->
  option (list byte -> option Z) -> TxParseContext -> go outcome.
Variable blobWrapper :
  list byte -> Z -> Z -> Z -> Z -> Z -> TxSlot -> go (Z * option parse_error * TxSlot).

(** [ParseTransaction] rejects a typed transaction of an unknown type, one
    above 4 that is not 0x7e, as soon as it has read the type byte: nothing
    of the body is parsed, and the type byte is what it has written to the
    slot. *)
Theorem ParseTransaction_unknown_type payload pos slot sender hasEnvelope wrappedWithBlobs
    validateHash ctx dataPos dataLen t :
  payload <> [] ->
  (withSender ctx = true -> length sender = 20%nat) ->
  rlp.Prefix rd payload pos = inl (dataPos, dataLen, false) ->
  dataLen <> 0 ->
  (dataLen = 1 -> hasEnvelope = false) ->
  0 <= dataPos ->
  payload !! Z.to_nat dataPos = Some t ->
  4 < to_Z t -> to_Z t <> 126 ->
  ParseTransaction rd keccak256 signedBody blobWrapper payload pos slot sender hasEnvelope
    wrappedWithBlobs validateHash ctx
  = Ret (mkOutcome 0 (Some (ErrUnknownTxType (to_Z t))) (setType slot (to_Z t)) ctx sender).
Proof.
  intros Hne Hsender Hprefix Hlen Henv Hpos Ht H4 H126. unfold ParseTransaction.
  assert (E1 : (len payload =? 0) = false).
  { apply Z.eqb_neq. unfold len. destruct payload; [congruence | cbn [length]; lia]. }
  rewrite E1.
  assert (E2 : withSender ctx && negb (len sender =? 20) = false).
  { destruct (withSender ctx); [|reflexivity]. unfold len. rewrite (Hsender eq_refl).
    reflexivity. }
  rewrite E2, Hprefix. rewrite (proj2 (Z.eqb_neq _ _) Hlen).
  assert (E3 : (dataLen =? 1) && negb false && hasEnvelope = false).
  { destruct (Z.eqb_spec dataLen 1) as [E|E]; [|reflexivity].
    rewrite (Henv E). reflexivity. }
  rewrite E3. cbn [negb]. unfold goIndex. rewrite (proj2 (Z.ltb_ge _ _) Hpos), Ht.
  cbn [mbind go_bind]. unfold SetCodeTxType, DepositTxType.
  assert (E4 : Type_ (setType slot (to_Z t)) = to_Z t) by (destruct slot; reflexivity).
  rewrite E4. rewrite (proj2 (Z.ltb_lt _ _) H4), (proj2 (Z.eqb_neq _ _) H126).
  reflexivity.
Qed.

End Rejections.

(** A typed transaction of type 5. *)
Lemma ParseTransaction_unknown_type_witness :
  ParseTransaction Ref.reader toyKeccak noSignedBody noBlobWrapper
    [Byte.x05; Byte.xc0] 0 emptySlot (repeat Byte.x00 20) false false None freshContext
  = Ret (mkOutcome 0 (Some (ErrUnknownTxType 5)) (setType emptySlot 5) freshContext
           (repeat Byte.x00 20)).
Proof.
  apply (ParseTransaction_unknown_type Ref.reader toyKeccak noSignedBody noBlobWrapper
           [Byte.x05; Byte.xc0] 0 emptySlot (repeat Byte.x00 20) false false None freshContext
           0 1 Byte.x05);
    first [discriminate | reflexivity | (intros; reflexivity) | (vm_compute; discriminate)
          | (cbn; lia)].
Defined.

End TxnFacts.

(** ** The stored form of a sender (erigon-lib/types/txn.go) *)

Module SenderCodec.

Import Bytes ByteFacts ParseTx.

(** [bits.Len64] of Go's standard library and [BitLen] of holiman/uint256:
    the number of bits of [x], 0 for 0. *)
Definition bitLen (x : Z) : Z := if x =? 0 then 0 else Z.log2 x + 1.

(** holiman/uint256: [ByteLen] is the number of bytes of [z]. *)
Definition ByteLen (z : Z) : Z := (bitLen z + 7) / 8.

(** The [n] low bytes of [z], high first. *)
Fixpoint beBytes (n : nat) (z : Z) : list byte :=
  match n with
  | O => []
  | S n => beBytes n (z / 256) ++ [of_Z z]
  end.

(** holiman/uint256: [WriteToSlice] fills [dest], or its first 32 bytes, with
    the low bytes of [z], high first. *)
Definition WriteToSlice (z : Z) (dest : list byte) : list byte :=
  let n := Nat.min (length dest) 32 in
  beBytes n z ++ skipn n dest.

(** holiman/uint256: [SetBytes] reads a big-endian number, of a longer slice
    the last 32 bytes. *)
Definition SetBytes (buf : list byte) : Z :=
  be_value (skipn (length buf - 32) buf).

(** [buffer[i] = b]. *)
Definition setAt (buffer : list byte) (i : Z) (b : byte) : go (list byte) :=
  if (0 <=? i) && (i <? len buffer)
  then Ret (<[Z.to_nat i := b]> buffer)
  else Panic PanicIndexOutOfRange.

(** [bytesToUint64]: the loop over the bytes, which returns after the eighth. *)
Fixpoint bytesToUint64_from (i : nat) (x : Z) (buf : list byte) : Z :=
  match buf with
  | [] => x
  | b :: buf =>
      let x := U.wrap64 (U.wrap64 (x * 2 ^ 8) + to_Z b) in
      if Nat.eqb i 7 then x else bytesToUint64_from (S i) x buf
  end.

Definition bytesToUint64 (buf : list byte) : Z := bytesToUint64_from 0 0 buf.

Inductive decode_error : Set :=
  | ErrMalformed (rest : list byte) (decodeLength : Z).
    (* "malformed CBOR for Account.Nonce: %s, Length %d" *)

(** [DecodeSender] decodes the sender's balance and nonce from the encoded
    byte-slice. *)
Definition DecodeSender (enc : list byte) : go (Z * Z * option decode_error) :=
  if len enc =? 0 then Ret (0, 0, None)
  else
  fieldSet ← goIndex enc 0;
  let pos := 1 in
  r ← (if 0 <? Z.land (to_Z fieldSet) 1 then
         b ← goIndex enc pos;
         let decodeLength := to_Z b in
         if len enc <? pos + decodeLength + 1 then
           rest ← goSlice enc (pos + 1) (len enc);
           Ret (inr (ErrMalformed rest decodeLength))
         else
           s ← goSlice enc (pos + 1) (pos + decodeLength + 1);
           Ret (inl (bytesToUint64 s, pos + decodeLength + 1))
       else Ret (inl (0, pos)));
  match r with
  | inr e => Ret (0, 0, Some e)
  | inl (nonce, pos) =>
      if 0 <? Z.land (to_Z fieldSet) 2 then
        b ← goIndex enc pos;
        let decodeLength := to_Z b in
        if len enc <? pos + decodeLength + 1 then
          rest ← goSlice enc (pos + 1) (len enc);
          Ret (nonce, 0, Some (ErrMalformed rest decodeLength))
        else
          s ← goSlice enc (pos + 1) (pos + decodeLength + 1);
          Ret (nonce, SetBytes s, None)
      else Ret (nonce, 0, None)
  end.

Section Encode.

(** [common.BitLenToByteLen] is declared in erigon-lib/common, outside the
    embedded files. *)
Variable BitLenToByteLen : Z -> Z.

Definition EncodeSenderLengthForStorage (nonce balance : Z) : Z :=
  let structLength := 1 in (* 1 byte for fieldset *)
  let structLength :=
    if negb (balance =? 0) then structLength + (ByteLen balance + 1) else structLength in
  if 0 <? nonce then structLength + (BitLenToByteLen (bitLen nonce) + 1) else structLength.

(** The loop [for i := nonceBytes; i > 0; i--] of [EncodeSender]. *)
Fixpoint writeNonce (i : nat) (pos : Z) (nonce : Z) (buffer : list byte) : go (list byte) :=
  match i with
  | O => Ret buffer
  | S i' =>
      buffer ← setAt buffer (pos + Z.of_nat i) (of_Z nonce);
      writeNonce i' pos (Z.shiftr nonce 8) buffer
  end.

(** [EncodeSender] encodes the details of txn sender into the given buffer,
    "that should be big enough": a write past its end panics.  The buffer is
    taken with no capacity beyond its length. *)
Definition EncodeSender (nonce balance : Z) (buffer : list byte) : go (list byte) :=
  let fieldSet := 0 in (* start with first bit set to 0 *)
  let pos := 1 in
  '(fieldSet, pos, buffer) ←
    (if 0 <? nonce then
       let fieldSet := 1 in
       let nonceBytes := BitLenToByteLen (bitLen nonce) in
       buffer ← setAt buffer pos (of_Z nonceBytes);
       buffer ← writeNonce (Z.to_nat nonceBytes) pos nonce buffer;
       Ret (fieldSet, pos + (nonceBytes + 1), buffer)
     else Ret (fieldSet, pos, buffer));
  (* Encoding balance *)
  buffer ←
    (if negb (balance =? 0) then
       let balanceBytes := ByteLen balance in
       buffer ← setAt buffer pos (of_Z balanceBytes);
       let pos := pos + 1 in
       dest ← goSlice buffer pos (pos + balanceBytes);
       Ret (firstn (Z.to_nat pos) buffer ++ WriteToSlice balance dest
            ++ skipn (Z.to_nat (pos + balanceBytes)) buffer)
     else Ret buffer);
  let fieldSet := if negb (balance =? 0) then Z.lor fieldSet 2 else fieldSet in
  setAt buffer 0 (of_Z fieldSet).

End Encode.

Lemma length_beBytes n z : length (beBytes n z) = n.
Proof.
  revert z. induction n as [|n IH]; intros z; cbn [beBytes]; [reflexivity|].
  rewrite length_app, IH. cbn. lia.
Qed.

Lemma be_value_beBytes n z : 0 <= z < 256 ^ Z.of_nat n -> be_value (beBytes n z) = z.
Proof.
  revert z. induction n as [|n IH]; intros z Hz.
  - cbn in *. lia.
  - cbn [beBytes]. rewrite be_value_app, to_Z_of_Z.
    rewrite Nat2Z.inj_succ, Z.pow_succ_r in Hz by lia.
    rewrite IH.
    + pose proof (Z.div_mod z 256). lia.
    + split; [apply Z.div_pos; lia|]. apply Z.div_lt_upper_bound; lia.
Qed.

Lemma bitLen_bound z : 0 <= z -> z < 2 ^ bitLen z.
Proof.
  intros Hz. unfold bitLen. destruct (Z.eqb_spec z 0) as [->|Hne]; [reflexivity|].
  apply Z.log2_spec. lia.
Qed.

Lemma bitLen_nonneg z : 0 <= bitLen z.
Proof.
  unfold bitLen. destruct (z =? 0); [lia|]. pose proof (Z.log2_nonneg z). lia.
Qed.

Lemma bitLen_le z b : 0 <= b -> 0 <= z < 2 ^ b -> bitLen z <= b.
Proof.
  intros Hb Hz. unfold bitLen. destruct (Z.eqb_spec z 0) as [->|Hne]; [lia|].
  assert (Z.log2 z < b) by (apply Z.log2_lt_pow2; lia). lia.
Qed.

Lemma bitLen_pos z : 0 < z -> 0 < bitLen z.
Proof.
  intros Hz. unfold bitLen. rewrite (proj2 (Z.eqb_neq _ _)) by lia.
  pose proof (Z.log2_nonneg z). lia.
Qed.

(** The bytes that hold [n] bits. *)
Definition bytesOf (n : Z) : Z := (n + 7) / 8.

Lemma bytesOf_bitLen z :
  0 <= z -> 0 <= bytesOf (bitLen z) /\ z < 256 ^ bytesOf (bitLen z).
Proof.
  intros Hz. pose proof (bitLen_nonneg z) as Hn. pose proof (bitLen_bound z Hz) as Hb.
  unfold bytesOf. split; [apply Z.div_pos; lia|].
  change 256 with (2 ^ 8). rewrite <- Z.pow_mul_r by (try apply Z.div_pos; lia).
  eapply Z.lt_le_trans; [exact Hb|]. apply Z.pow_le_mono_r; [lia|].
  pose proof (Z.div_mod (bitLen z + 7) 8). pose proof (Z.mod_pos_bound (bitLen z + 7) 8). lia.
Qed.

Lemma bytesOf_le z b : 0 <= b -> 0 <= z < 2 ^ (8 * b) -> bytesOf (bitLen z) <= b.
Proof.
  intros Hb Hz. pose proof (bitLen_le z (8 * b)) as H. unfold bytesOf.
  assert ((bitLen z + 7) / 8 < b + 1) by (apply Z.div_lt_upper_bound; lia). lia.
Qed.

Lemma bytesOf_pos z : 0 < z -> 0 < bytesOf (bitLen z).
Proof.
  intros Hz. pose proof (bitLen_pos z Hz). unfold bytesOf.
  apply Z.div_str_pos. lia.
Qed.

Lemma bytesToUint64_from_be i x buf :
  (i + length buf <= 8)%nat -> 0 <= x < 256 ^ Z.of_nat i ->
  bytesToUint64_from i x buf = fold_left (fun acc b => acc * 256 + to_Z b) buf x.
Proof.
  revert i x. induction buf as [|b buf IH]; intros i x Hlen Hx; [reflexivity|].
  cbn [bytesToUint64_from fold_left length] in *.
  pose proof (to_Z_range b) as Hb.
  assert (Hpow : 256 ^ Z.of_nat (S i) <= 256 ^ 8) by (apply Z.pow_le_mono_r; lia).
  assert (Hs : 256 ^ Z.of_nat (S i) = 256 * 256 ^ Z.of_nat i)
    by (rewrite Nat2Z.inj_succ, Z.pow_succ_r; lia).
  change (2 ^ 8) with 256.
  assert (Hw : U.wrap64 (U.wrap64 (x * 256) + to_Z b) = x * 256 + to_Z b).
  { change (256 ^ 8) with U.two64 in Hpow.
    rewrite (U.wrap64_small (x * 256)) by lia. apply U.wrap64_small. lia. }
  rewrite Hw. destruct (Nat.eqb_spec i 7) as [E|E].
  - destruct buf; [reflexivity | cbn in Hlen; lia].
  - apply IH; [lia|]. lia.
Qed.

Lemma bytesToUint64_be buf : (length buf <= 8)%nat -> bytesToUint64 buf = be_value buf.
Proof.
  intros H. unfold bytesToUint64, be_value. apply bytesToUint64_from_be; [lia | cbn; lia].
Qed.

Lemma setAt_middle (A R : list byte) c b i :
  i = Z.of_nat (length A) -> setAt (A ++ c :: R) i b = Ret (A ++ b :: R).
Proof.
  intros ->. unfold setAt, len. rewrite length_app. cbn [length].
  rewrite (proj2 (Z.leb_le _ _)) by lia. rewrite (proj2 (Z.ltb_lt _ _)) by lia.
  cbn [andb]. rewrite Nat2Z.id. f_equal.
  rewrite insert_app_r_alt by lia. rewrite Nat.sub_diag. reflexivity.
Qed.

Lemma setAt_head (R : list byte) c b : setAt (c :: R) 0 b = Ret (b :: R).
Proof. exact (setAt_middle [] R c b 0 eq_refl). Qed.

Section EncodeFacts.

Variable BitLenToByteLen : Z -> Z.

Lemma writeNonce_middle n (A N R : list byte) pos z :
  Z.of_nat (length A) = pos + 1 -> length N = n ->
  writeNonce n pos z (A ++ N ++ R) = Ret (A ++ beBytes n z ++ R).
Proof.
  revert N R z. induction n as [|n IH]; intros N R z HA HN.
  - destruct N; [reflexivity | discriminate].
  - destruct (split_at n N ltac:(lia)) as (N' & L & -> & HN').
    rewrite length_app in HN. destruct L as [|c [|c' L]]; cbn [length] in HN; try lia.
    cbn [writeNonce]. rewrite <- !app_assoc. cbn [app]. rewrite (app_assoc A N').
    rewrite (setAt_middle (A ++ N') R c (of_Z z)) by (rewrite length_app; lia).
    cbn [mbind go_bind]. rewrite <- app_assoc.
    rewrite (IH N' (of_Z z :: R) (Z.shiftr z 8) HA HN').
    rewrite Z.shiftr_div_pow2 by lia. change (2 ^ 8) with 256.
    cbn [beBytes]. rewrite <- !app_assoc. reflexivity.
Qed.

Hypothesis BitLenToByteLen_bytes : forall n, 0 <= n -> BitLenToByteLen n = bytesOf n.

(** The bytes of a number with their count in front, nothing for zero. *)
Definition field (z : Z) : list byte :=
  if 0 <? z
  then of_Z (bytesOf (bitLen z)) :: beBytes (Z.to_nat (bytesOf (bitLen z))) z
  else [].

(** The stored form: the byte of the fields that are present, the nonce and
    the balance. *)
Definition encoded (nonce balance : Z) : list byte :=
  of_Z (Z.lor (if 0 <? nonce then 1 else 0) (if 0 <? balance then 2 else 0))
  :: field nonce ++ field balance.

Lemma length_field z :
  0 <= z -> Z.of_nat (length (field z)) = if 0 <? z then bytesOf (bitLen z) + 1 else 0.
Proof.
  intros Hz. unfold field. destruct (0 <? z); [|reflexivity].
  cbn [length]. rewrite length_beBytes.
  pose proof (bytesOf_bitLen z Hz). lia.
Qed.

Lemma length_encoded nonce balance :
  0 <= nonce -> 0 <= balance ->
  Z.of_nat (length (encoded nonce balance))
  = EncodeSenderLengthForStorage BitLenToByteLen nonce balance.
Proof.
  intros Hn Hb. unfold encoded, EncodeSenderLengthForStorage, ByteLen. cbn [length].
  rewrite length_app, Nat2Z.inj_succ, Nat2Z.inj_add, !length_field by assumption.
  rewrite (BitLenToByteLen_bytes _ (bitLen_nonneg nonce)).
  fold (bytesOf (bitLen balance)).
  destruct (Z.eqb_spec balance 0) as [->|Hne]; cbn [negb].
  - cbn. destruct (0 <? nonce); lia.
  - rewrite (proj2 (Z.ltb_lt 0 balance)) by lia. destruct (0 <? nonce); lia.
Qed.

(** The two blocks of [EncodeSender]. *)
Definition nonceBlock (nonce : Z) (buffer : list byte) : go (Z * Z * list byte) :=
  if 0 <? nonce then
    let nonceBytes := BitLenToByteLen (bitLen nonce) in
    buffer ← setAt buffer 1 (of_Z nonceBytes);
    buffer ← writeNonce (Z.to_nat nonceBytes) 1 nonce buffer;
    Ret (1, 1 + (nonceBytes + 1), buffer)
  else Ret (0, 1, buffer).

Definition balanceBlock (balance pos : Z) (buffer : list byte) : go (list byte) :=
  if negb (balance =? 0) then
    let balanceBytes := ByteLen balance in
    buffer ← setAt buffer pos (of_Z balanceBytes);
    let pos := pos + 1 in
    dest ← goSlice buffer pos (pos + balanceBytes);
    Ret (firstn (Z.to_nat pos) buffer ++ WriteToSlice balance dest
         ++ skipn (Z.to_nat (pos + balanceBytes)) buffer)
  else Ret buffer.

Lemma EncodeSender_blocks nonce balance buffer :
  EncodeSender BitLenToByteLen nonce balance buffer
  = ('(fieldSet, pos, buffer) ← nonceBlock nonce buffer;
     buffer ← balanceBlock balance pos buffer;
     setAt buffer 0 (of_Z (if negb (balance =? 0) then Z.lor fieldSet 2 else fieldSet))).
Proof. reflexivity. Qed.

Lemma nonceBlock_field nonce c0 NF R :
  0 <= nonce ->
  length NF = length (field nonce) ->
  nonceBlock nonce (c0 :: NF ++ R)
  = Ret (if 0 <? nonce then 1 else 0, 1 + Z.of_nat (length (field nonce)),
         c0 :: field nonce ++ R).
Proof.
  intros Hn HNF. unfold nonceBlock, field in *.
  destruct (0 <? nonce) eqn:E; [|destruct NF; [reflexivity | discriminate]].
  rewrite (BitLenToByteLen_bytes _ (bitLen_nonneg nonce)).
  pose proof (bytesOf_bitLen nonce Hn) as [Hb0 _].
  destruct NF as [|c1 N]; [discriminate|]. cbn [length] in HNF.
  rewrite length_beBytes in HNF. injection HNF as HN.
  cbn [app]. rewrite (setAt_middle [c0] (N ++ R) c1 _ 1 eq_refl). cbn [mbind go_bind app].
  change (c0 :: of_Z (bytesOf (bitLen nonce)) :: N ++ R)
    with ([c0; of_Z (bytesOf (bitLen nonce))] ++ N ++ R).
  rewrite (writeNonce_middle _ [c0; of_Z (bytesOf (bitLen nonce))] N R 1 nonce eq_refl HN).
  cbn [mbind go_bind app length]. rewrite length_beBytes.
  do 2 f_equal. f_equal. lia.
Qed.

Lemma WriteToSlice_all z dest :
  (length dest <= 32)%nat -> WriteToSlice z dest = beBytes (length dest) z.
Proof.
  intros H. unfold WriteToSlice. rewrite Nat.min_l by exact H.
  rewrite skipn_all. apply app_nil_r.
Qed.

Lemma balanceBlock_field balance pos A BF R :
  0 <= balance < U.two256 ->
  pos = Z.of_nat (length A) ->
  length BF = length (field balance) ->
  balanceBlock balance pos (A ++ BF ++ R) = Ret (A ++ field balance ++ R).
Proof.
  intros Hb Hpos HBF. unfold balanceBlock, field, ByteLen in *.
  fold (bytesOf (bitLen balance)).
  destruct (Z.eqb_spec balance 0) as [->|Hne]; cbn [negb].
  - cbn in HBF. destruct BF; [reflexivity | discriminate].
  - rewrite (proj2 (Z.ltb_lt 0 balance)) in * by lia.
    pose proof (bytesOf_bitLen balance (proj1 Hb)) as [Hb0 _].
    assert (Hb32 : bytesOf (bitLen balance) <= 32).
    { apply bytesOf_le; [lia|]. exact Hb. }
    destruct BF as [|c2 Bal]; [discriminate|]. cbn [length] in HBF.
    rewrite length_beBytes in HBF. injection HBF as HBal.
    cbn [app]. rewrite (setAt_middle A (Bal ++ R) c2 _ pos Hpos). cbn [mbind go_bind].
    set (b := of_Z (bytesOf (bitLen balance))).
    change (A ++ b :: Bal ++ R) with (A ++ [b] ++ Bal ++ R).
    rewrite (app_assoc A [b]).
    rewrite (goSlice_middle (A ++ [b]) Bal R)
      by (rewrite ?length_app; cbn [length]; lia).
    cbn [mbind go_bind]. rewrite WriteToSlice_all by lia. rewrite HBal.
    replace (Z.to_nat (pos + 1)) with (length (A ++ [b]))
      by (rewrite length_app; cbn [length]; lia).
    rewrite take_app_length.
    replace (Z.to_nat (pos + 1 + bytesOf (bitLen balance)))
      with (length (A ++ [b]) + length Bal)%nat
      by (rewrite length_app; cbn [length]; lia).
    rewrite (app_assoc (A ++ [b]) Bal R).
    replace (length (A ++ [b]) + length Bal)%nat with (length ((A ++ [b]) ++ Bal))
      by (rewrite !length_app; reflexivity).
    rewrite drop_app_length. rewrite <- !app_assoc. reflexivity.
Qed.

(** [EncodeSender] on a buffer that is long enough writes the stored form to
    its front. *)
Lemma EncodeSender_encoded nonce balance B R :
  0 <= nonce -> 0 <= balance < U.two256 ->
  length B = length (encoded nonce balance) ->
  EncodeSender BitLenToByteLen nonce balance (B ++ R) = Ret (encoded nonce balance ++ R).
Proof.
  intros Hn Hb HB. rewrite EncodeSender_blocks. unfold encoded in *.
  destruct B as [|c0 B]; [discriminate|]. cbn [length] in HB. injection HB as HB.
  rewrite length_app in HB.
  destruct (split_at (length (field nonce)) B ltac:(lia)) as (NF & BF & -> & HNF).
  rewrite length_app in HB. assert (HBF : length BF = length (field balance)) by lia.
  cbn [app]. rewrite <- app_assoc.
  rewrite (nonceBlock_field nonce c0 NF (BF ++ R) Hn HNF). cbn [mbind go_bind].
  change (c0 :: field nonce ++ BF ++ R) with ((c0 :: field nonce) ++ BF ++ R).
  rewrite (balanceBlock_field balance _ (c0 :: field nonce) BF R Hb)
    by (cbn [length]; lia || exact HBF).
  cbn [mbind go_bind app].
  rewrite setAt_head. do 2 f_equal.
  - destruct (Z.eqb_spec balance 0) as [->|Hne]; cbn [negb].
    + cbn. destruct (0 <? nonce); reflexivity.
    + rewrite (proj2 (Z.ltb_lt 0 balance)) by lia. reflexivity.
  - rewrite <- app_assoc. reflexivity.
Qed.

Lemma read_field A z R pos :
  pos = Z.of_nat (length A) -> 0 < z -> bytesOf (bitLen z) <= 32 ->
  goIndex (A ++ field z ++ R) pos = Ret (of_Z (bytesOf (bitLen z))) /\
  to_Z (of_Z (bytesOf (bitLen z))) = bytesOf (bitLen z) /\
  (len (A ++ field z ++ R) <? pos + bytesOf (bitLen z) + 1) = false /\
  goSlice (A ++ field z ++ R) (pos + 1) (pos + bytesOf (bitLen z) + 1)
  = Ret (beBytes (Z.to_nat (bytesOf (bitLen z))) z).
Proof.
  intros Hpos Hz H32. unfold field. rewrite (proj2 (Z.ltb_lt 0 z) Hz).
  pose proof (bytesOf_bitLen z ltac:(lia)) as [Hb0 _].
  set (nb := bytesOf (bitLen z)) in *. cbn [app].
  split; [apply goIndex_middle; exact Hpos|].
  split; [rewrite to_Z_of_Z; apply Z.mod_small; lia|].
  split.
  - apply Z.ltb_ge. unfold len. rewrite length_app. cbn [length].
    rewrite length_app, length_beBytes. lia.
  - change (A ++ of_Z nb :: beBytes (Z.to_nat nb) z ++ R)
      with (A ++ [of_Z nb] ++ beBytes (Z.to_nat nb) z ++ R).
    rewrite (app_assoc A [of_Z nb]).
    apply goSlice_middle; rewrite ?length_app, ?length_beBytes; cbn [length]; lia.
Qed.

(** [DecodeSender] reads the stored form back, whatever follows it. *)
Lemma DecodeSender_encoded nonce balance R :
  0 <= nonce < U.two64 -> 0 <= balance < U.two256 ->
  DecodeSender (encoded nonce balance ++ R) = Ret (nonce, balance, None).
Proof.
  intros Hn Hb. unfold DecodeSender, encoded.
  set (fb := of_Z (Z.lor (if 0 <? nonce then 1 else 0) (if 0 <? balance then 2 else 0))).
  cbn [app]. rewrite <- app_assoc.
  assert (Hlen : (len (fb :: field nonce ++ field balance ++ R) =? 0) = false).
  { apply Z.eqb_neq. unfold len. cbn [length]. lia. }
  rewrite Hlen, goIndex_head. cbn [mbind go_bind].
  assert (Hfb : to_Z fb = Z.lor (if 0 <? nonce then 1 else 0) (if 0 <? balance then 2 else 0)).
  { subst fb. rewrite to_Z_of_Z. destruct (0 <? nonce), (0 <? balance); reflexivity. }
  rewrite Hfb.
  assert (Hnonce :
            (if 0 <? Z.land (Z.lor (if 0 <? nonce then 1 else 0)
                               (if 0 <? balance then 2 else 0)) 1
             then
               b ← goIndex (fb :: field nonce ++ field balance ++ R) 1;
               (if len (fb :: field nonce ++ field balance ++ R) <? 1 + to_Z b + 1
                then
                  rest ← goSlice (fb :: field nonce ++ field balance ++ R) (1 + 1)
                           (len (fb :: field nonce ++ field balance ++ R));
                  Ret (inr (ErrMalformed rest (to_Z b)))
                else
                  s ← goSlice (fb :: field nonce ++ field balance ++ R) (1 + 1)
                        (1 + to_Z b + 1);
                  Ret (inl (bytesToUint64 s, 1 + to_Z b + 1)))
             else Ret (inl (0, 1)))
            = Ret (inl (nonce, 1 + Z.of_nat (length (field nonce))))).
  { destruct (Z.ltb_spec 0 nonce) as [Hpos|Hz].
    - assert (H8 : bytesOf (bitLen nonce) <= 8).
      { apply bytesOf_le; [lia|]. exact Hn. }
      destruct (read_field [fb] nonce (field balance ++ R) 1 eq_refl Hpos ltac:(lia))
        as (H1 & H2 & H3 & H4).
      pose proof (bytesOf_bitLen nonce (proj1 Hn)) as [Hb0 Hb1].
      cbn [app] in H1, H3, H4.
      replace (Z.land (Z.lor 1 (if 0 <? balance then 2 else 0)) 1) with 1
        by (destruct (0 <? balance); reflexivity).
      cbn [Z.ltb Z.compare]. rewrite H1. cbn [mbind go_bind]. rewrite H2, H3, H4.
      cbn [mbind go_bind].
      rewrite bytesToUint64_be by (rewrite length_beBytes; lia).
      rewrite be_value_beBytes by (rewrite Z2Nat.id by lia; lia).
      rewrite (length_field nonce (proj1 Hn)), (proj2 (Z.ltb_lt 0 nonce) Hpos).
      do 3 f_equal. lia.
    - assert (nonce = 0) by lia. subst nonce. cbn [Z.ltb Z.compare].
      replace (Z.land (Z.lor 0 (if 0 <? balance then 2 else 0)) 1) with 0
        by (destruct (0 <? balance); reflexivity).
      reflexivity. }
  rewrite Hnonce. cbn [mbind go_bind].
  change (fb :: field nonce ++ field balance ++ R)
    with ((fb :: field nonce) ++ field balance ++ R).
  destruct (Z.ltb_spec 0 balance) as [Hpos|Hz].
  - replace (Z.land (Z.lor (if 0 <? nonce then 1 else 0) 2) 2) with 2
      by (destruct (0 <? nonce); reflexivity).
    cbn [Z.ltb Z.compare].
    assert (H32 : bytesOf (bitLen balance) <= 32).
    { apply bytesOf_le; [lia|]. exact Hb. }
    destruct (read_field (fb :: field nonce) balance R
                (1 + Z.of_nat (length (field nonce)))
                ltac:(cbn [length]; lia) Hpos H32) as (H1 & H2 & H3 & H4).
    pose proof (bytesOf_bitLen balance (proj1 Hb)) as [Hb0 Hb1].
    rewrite H1. cbn [mbind go_bind]. rewrite H2, H3, H4. cbn [mbind go_bind].
    unfold SetBytes. rewrite length_beBytes.
    replace (Z.to_nat (bytesOf (bitLen balance)) - 32)%nat with 0%nat by lia.
    rewrite drop_0, be_value_beBytes by (rewrite Z2Nat.id by lia; lia).
    reflexivity.
  - assert (balance = 0) by lia. subst balance.
    replace (Z.land (Z.lor (if 0 <? nonce then 1 else 0) 0) 2) with 0
      by (destruct (0 <? nonce); reflexivity).
    reflexivity.
Qed.

(** A sender written by [EncodeSender] is read back by [DecodeSender]: for a
    nonce of 64 bits, a balance of 256 bits and a buffer of at least
    [EncodeSenderLengthForStorage] bytes, the encoding succeeds, writes that
    many bytes and leaves the rest of the buffer as it was, and decoding the
    buffer, or its written front alone, gives the nonce and the balance
    back. *)
Theorem EncodeSender_DecodeSender nonce balance buffer :
  0 <= nonce < U.two64 -> 0 <= balance < U.two256 ->
  EncodeSenderLengthForStorage BitLenToByteLen nonce balance <= len buffer ->
  exists enc,
    EncodeSender BitLenToByteLen nonce balance buffer = Ret enc /\
    length enc = length buffer /\
    (let n := Z.to_nat (EncodeSenderLengthForStorage BitLenToByteLen nonce balance) in
     skipn n enc = skipn n buffer /\
     DecodeSender (firstn n enc) = Ret (nonce, balance, None)) /\
    DecodeSender enc = Ret (nonce, balance, None).
Proof.
  intros Hn Hb Hlen.
  rewrite <- (length_encoded nonce balance (proj1 Hn) (proj1 Hb)) in *.
  unfold len in Hlen.
  destruct (split_at (length (encoded nonce balance)) buffer ltac:(lia)) as (B & R & -> & HB).
  exists (encoded nonce balance ++ R).
  split; [exact (EncodeSender_encoded nonce balance B R (proj1 Hn) Hb HB)|].
  split; [rewrite !length_app; lia|].
  split; [|exact (DecodeSender_encoded nonce balance R Hn Hb)].
  cbv zeta. rewrite Nat2Z.id. split.
  - rewrite drop_app_length. rewrite <- HB. rewrite drop_app_length. reflexivity.
  - rewrite take_app_length. rewrite <- (app_nil_r (encoded nonce balance)).
    exact (DecodeSender_encoded nonce balance [] Hn Hb).
Qed.

End EncodeFacts.

(** Nonce 258 and balance 1000000 in a buffer of 10 zero bytes: 8 bytes are
    written. *)
Lemma EncodeSender_DecodeSender_witness :
  exists enc,
    EncodeSender bytesOf 258 1000000 (repeat Byte.x00 10) = Ret enc /\
    firstn 8 enc = [Byte.x03; Byte.x02; Byte.x01; Byte.x02; Byte.x03; Byte.x0f; Byte.x42;
                    Byte.x40] /\
    DecodeSender enc = Ret (258, 1000000, None).
Proof.
  destruct (EncodeSender_DecodeSender bytesOf (fun n _ => eq_refl) 258 1000000
              (repeat Byte.x00 10)) as (enc & He & _ & _ & Hd).
  - unfold U.two64. lia.
  - unfold U.two256. lia.
  - vm_compute. discriminate.
  - exists enc. split; [exact He|]. split; [|exact Hd].
    assert (E : EncodeSender bytesOf 258 1000000 (repeat Byte.x00 10)
                = Ret [Byte.x03; Byte.x02; Byte.x01; Byte.x02; Byte.x03; Byte.x0f; Byte.x42;
                       Byte.x40; Byte.x00; Byte.x00]) by (vm_compute; reflexivity).
    rewrite E in He. injection He as <-. reflexivity.
Defined.

End SenderCodec.

(** ** The L1 cost function and its cache (core/types/rollup_l1_cost.go) *)

Module L1Func.

Import L1.

(** [RollupMessage]: what its two methods return. *)
Record RollupMessage := mkRollupMessage {
  RollupDataGas : Z;
  IsDepositTx : bool
}.

Definition L1BaseFeeSlot : Z := 1.
Definition OverheadSlot : Z := 5.
Definition ScalarSlot : Z := 6.
Definition L1BlockAddr : Z := 0x4200000000000000000000000000000000000015.

(** [StateGetter]: the value [GetState] writes for an address and a slot. *)
Definition StateGetter : Type := Z -> Z -> Z.

(** The variables the function returned by [NewL1CostFunc] closes over: the
    block number of the cache and three pointers, nil at first. *)
Record Cache := mkCache {
  cacheBlockNum : Z;
  l1BaseFee : option Z;
  overhead : option Z;
  scalar : option Z
}.

(** [cacheBlockNum := ^uint64(0)]. *)
Definition newCache : Cache := mkCache (U.two64 - 1) None None None.

(** A call of the function [NewL1CostFunc] returns, on an Optimism chain or
    not, with the state as it is at the call: the cache it leaves and the
    cost, nil if there is none.  [L1Cost] dereferences the three pointers. *)
Definition L1CostFunc (optimism : bool) (statedb : StateGetter) (c : Cache)
    (blockNum : Z) (msg : RollupMessage) (extra : Z) : go (Cache * option Z) :=
  let rollupDataGas := RollupDataGas msg in (* Only fake txs for RPC view-calls are 0. *)
  if negb optimism || IsDepositTx msg || (rollupDataGas =? 0) then Ret (c, None)
  else
    let c :=
      if negb (blockNum =? cacheBlockNum c) then
        mkCache blockNum
          (Some (statedb L1BlockAddr L1BaseFeeSlot))
          (Some (statedb L1BlockAddr OverheadSlot))
          (Some (statedb L1BlockAddr ScalarSlot))
      else c in
    match l1BaseFee c, overhead c, scalar c with
    | Some b, Some o, Some s => Ret (c, Some (L1Cost (U.wrap64 (rollupDataGas + extra)) b o s))
    | _, _, _ => Panic PanicNilDereference
    end.

(** A message that has an L1 cost on an Optimism chain. *)
Definition costed (msg : RollupMessage) : Prop :=
  IsDepositTx msg = false /\ RollupDataGas msg <> 0.

(** The state is read once for a block number.  A call for a costed message
    at a block number other than the cached one reads the three slots of the
    L1 block contract; after a call that returned a cost, every further call
    at the same block number computes the cost from the values in the cache
    and leaves the cache alone, whatever the state holds by then.  The one
    block number a new function takes for cached is 2^64 - 1, where the
    first call dereferences a nil pointer. *)
Theorem L1CostFunc_reads_once statedb c blockNum msg extra :
  costed msg ->
  (blockNum <> cacheBlockNum c ->
   L1CostFunc true statedb c blockNum msg extra
   = Ret (mkCache blockNum (Some (statedb L1BlockAddr L1BaseFeeSlot))
            (Some (statedb L1BlockAddr OverheadSlot))
            (Some (statedb L1BlockAddr ScalarSlot)),
          Some (L1Cost (U.wrap64 (RollupDataGas msg + extra))
                  (statedb L1BlockAddr L1BaseFeeSlot)
                  (statedb L1BlockAddr OverheadSlot)
                  (statedb L1BlockAddr ScalarSlot)))) /\
  (forall c1 cost,
     L1CostFunc true statedb c blockNum msg extra = Ret (c1, Some cost) ->
     cacheBlockNum c1 = blockNum /\
     exists b o s,
       l1BaseFee c1 = Some b /\ overhead c1 = Some o /\ scalar c1 = Some s /\
       forall statedb' msg' extra',
         costed msg' ->
         L1CostFunc true statedb' c1 blockNum msg' extra'
         = Ret (c1, Some (L1Cost (U.wrap64 (RollupDataGas msg' + extra')) b o s))) /\
  L1CostFunc true statedb newCache (U.two64 - 1) msg extra = Panic PanicNilDereference.
Proof.
  intros [Hdep Hgas]. unfold L1CostFunc. rewrite Hdep.
  rewrite (proj2 (Z.eqb_neq _ _) Hgas). cbn [negb orb].
  split; [|split].
  - intros Hne. rewrite (proj2 (Z.eqb_neq _ _) Hne). reflexivity.
  - intros c1 cost H.
    assert (Hc1 : cacheBlockNum c1 = blockNum /\
                  exists b o s, l1BaseFee c1 = Some b /\ overhead c1 = Some o /\
                                scalar c1 = Some s).
    { destruct (Z.eqb_spec blockNum (cacheBlockNum c)) as [E|E]; cbn [negb] in H.
      - destruct (l1BaseFee c) as [b|] eqn:Eb; [|discriminate].
        destruct (overhead c) as [o|] eqn:Eo; [|discriminate].
        destruct (scalar c) as [s|] eqn:Es; [|discriminate].
        injection H as <- _. split; [congruence|]. exists b, o, s. auto.
      - cbn in H. injection H as <- _. split; [reflexivity|]. eexists _, _, _. cbn. auto. }
    destruct Hc1 as (Hn & b & o & s & Hb & Ho & Hs). split; [exact Hn|].
    exists b, o, s. split; [exact Hb|]. split; [exact Ho|]. split; [exact Hs|].
    intros statedb' msg' extra' [Hdep' Hgas'].
    rewrite Hdep', (proj2 (Z.eqb_neq _ _) Hgas'), Hn, Z.eqb_refl. cbn [negb orb].
    rewrite Hb, Ho, Hs. reflexivity.
  - reflexivity.
Qed.

(** Two calls at block 7, the state having changed in between. *)
Lemma L1CostFunc_reads_once_witness :
  exists c1,
    L1CostFunc true (fun _ slot => slot * 1000000) newCache 7 (mkRollupMessage 480 false) 0
    = Ret (c1, Some (L1Cost 480 1000000 5000000 6000000)) /\
    L1CostFunc true (fun _ _ => 0) c1 7 (mkRollupMessage 960 false) 0
    = Ret (c1, Some (L1Cost 960 1000000 5000000 6000000)).
Proof.
  assert (Hc : costed (mkRollupMessage 480 false)) by (split; [reflexivity | discriminate]).
  destruct (L1CostFunc_reads_once (fun _ slot => slot * 1000000) newCache 7
              (mkRollupMessage 480 false) 0 Hc) as (H1 & H2 & _).
  eexists. split; [apply H1; discriminate|].
  destruct (H2 _ _ (H1 ltac:(discriminate))) as (_ & b & o & s & Hb & Ho & Hs & Hread).
  cbn in Hb, Ho, Hs. injection Hb as <-. injection Ho as <-. injection Hs as <-.
  apply (Hread (fun _ _ => 0) (mkRollupMessage 960 false) 0).
  split; [reflexivity | discriminate].
Defined.

End L1Func.

(** ** The slots of a batch of transactions (erigon-lib/types/txn.go) *)

Module Slots.

Import Bytes ByteFacts ParseTx.

(** [Addresses]: a flattened list of 20-byte addresses. *)
Definition AddrLen : nat := 20.

Definition Addresses_Len (h : list byte) : nat := length h / AddrLen.

(** [h[i*length.Addr : (i+1)*length.Addr]], within the length of [h]. *)
Definition Addresses_At (h : list byte) (i : nat) : go (list byte) :=
  goSlice h (Z.of_nat (i * AddrLen)) (Z.of_nat ((i + 1) * AddrLen)).

(** [TxSlots]; an entry of [Txs] is a pointer and may be nil. *)
Record TxSlots := mkTxSlots {
  Txs : list (option TxSlot);
  Senders : list byte;
  IsLocal : list bool
}.

Inductive slots_error : Set :=
  | ErrIsLocalLen (isLocal txs : nat)  (* "expect equal len of isLocal=%d and txs=%d" *)
  | ErrSendersLen (senders txs : nat). (* "expect equal len of senders=%d and txs=%d" *)

Definition Valid (s : TxSlots) : option slots_error :=
  if negb (length (Txs s) =? length (IsLocal s))%nat
  then Some (ErrIsLocalLen (length (IsLocal s)) (length (Txs s)))
  else if negb (length (Txs s) =? Addresses_Len (Senders s))%nat
  then Some (ErrSendersLen (Addresses_Len (Senders s)) (length (Txs s)))
  else None.

Definition zeroAddr : list byte := repeat Byte.x00 20.
Definition addressesGrowth : list byte := repeat Byte.x00 AddrLen.

(** The loops [for cond(l) { l = append(l, chunk...) }] of [Resize], which
    run [targetSize] rounds at most. *)
Fixpoint appendWhile {A} (rounds : nat) (cond : list A -> bool) (chunk l : list A) : list A :=
  match rounds with
  | O => l
  | S rounds => if cond l then appendWhile rounds cond chunk (l ++ chunk) else l
  end.

(** The loops [for i := oldLen; i < targetSize; i++]. *)
Definition forRange {S} (from to : nat) (body : nat -> S -> go S) (s : S) : go S :=
  foldl (fun acc i => s ← acc; body i s) (Ret s) (seq from (to - from)).

(** [l[i] = x]. *)
Definition setIndex {A} (l : list A) (i : nat) (x : A) : go (list A) :=
  if (i <? length l)%nat then Ret (<[i := x]> l) else Panic PanicIndexOutOfRange.

(** [copy(h.At(i), src)]. *)
Definition copyAt (h : list byte) (i : nat) (src : list byte) : go (list byte) :=
  dst ← Addresses_At h i;
  Ret (firstn (i * AddrLen) h ++ goCopy dst src ++ skipn ((i + 1) * AddrLen) h).

(** [Resize] internal arrays to len=targetSize, shrinks if need. *)
Definition Resize (s : TxSlots) (targetSize : nat) : go TxSlots :=
  let txs := appendWhile targetSize (fun l => (length l <? targetSize)%nat) [None] (Txs s) in
  let senders :=
    appendWhile targetSize (fun h => (Addresses_Len h <? targetSize)%nat) addressesGrowth
      (Senders s) in
  let isLocal :=
    appendWhile targetSize (fun l => (length l <? targetSize)%nat) [false] (IsLocal s) in
  (* todo: set nil to overflow txs *)
  let oldLen := length txs in
  let txs := firstn targetSize txs in
  txs ← forRange oldLen targetSize (fun i l => setIndex l i None) txs;
  let senders := firstn (AddrLen * targetSize) senders in
  senders ← forRange oldLen targetSize (fun i h => copyAt h i zeroAddr) senders;
  let isLocal := firstn targetSize isLocal in
  isLocal ← forRange oldLen targetSize (fun i l => setIndex l i false) isLocal;
  Ret (mkTxSlots txs senders isLocal).

Definition Append (s : TxSlots) (slot : option TxSlot) (sender : list byte) (isLocal : bool)
  : go TxSlots :=
  let n := length (Txs s) in
  s ← Resize s (length (Txs s) + 1);
  txs ← setIndex (Txs s) n slot;
  isLocals ← setIndex (IsLocal s) n isLocal;
  senders ← copyAt (Senders s) n sender;
  Ret (mkTxSlots txs senders isLocals).

Lemma appendWhile_length {A} (x : A) target rounds l :
  (target - length l <= rounds)%nat ->
  appendWhile rounds (fun l => (length l <? target)%nat) [x] l
  = l ++ repeat x (target - length l).
Proof.
  revert l. induction rounds as [|rounds IH]; intros l H; cbn [appendWhile].
  - replace (target - length l)%nat with 0%nat by lia. cbn. symmetry. apply app_nil_r.
  - destruct (Nat.ltb_spec (length l) target) as [Hlt|Hge].
    + rewrite IH by (rewrite length_app; cbn; lia). rewrite length_app. cbn [length].
      rewrite <- app_assoc. f_equal.
      replace (target - length l)%nat with (S (target - (length l + 1))) by lia.
      reflexivity.
    + replace (target - length l)%nat with 0%nat by lia. cbn. symmetry. apply app_nil_r.
Qed.

Lemma Addresses_Len_grow h : Addresses_Len (h ++ addressesGrowth) = S (Addresses_Len h).
Proof.
  unfold Addresses_Len, addressesGrowth, AddrLen. rewrite length_app, repeat_length.
  replace (length h + 20)%nat with (length h + 1 * 20)%nat by lia.
  rewrite Nat.div_add by lia. lia.
Qed.

Lemma appendWhile_senders target rounds h :
  (target - Addresses_Len h <= rounds)%nat ->
  appendWhile rounds (fun h => (Addresses_Len h <? target)%nat) addressesGrowth h
  = h ++ repeat Byte.x00 (AddrLen * (target - Addresses_Len h)).
Proof.
  revert h. induction rounds as [|rounds IH]; intros h H; cbn [appendWhile].
  - replace (target - Addresses_Len h)%nat with 0%nat by lia.
    rewrite Nat.mul_0_r. cbn. symmetry. apply app_nil_r.
  - destruct (Nat.ltb_spec (Addresses_Len h) target) as [Hlt|Hge].
    + rewrite IH by (rewrite Addresses_Len_grow; lia). rewrite Addresses_Len_grow.
      rewrite <- app_assoc. f_equal. unfold addressesGrowth.
      rewrite <- repeat_app. f_equal. unfold AddrLen. lia.
    + replace (target - Addresses_Len h)%nat with 0%nat by lia.
      rewrite Nat.mul_0_r. cbn. symmetry. apply app_nil_r.
Qed.

Lemma forRange_empty {S} from to (body : nat -> S -> go S) s :
  (to <= from)%nat -> forRange from to body s = Ret s.
Proof.
  intros H. unfold forRange. replace (to - from)%nat with 0%nat by lia. reflexivity.
Qed.

(** What [Resize] leaves: of each list the first [targetSize] entries, with
    nil, zero addresses and false for those that were not there. *)
Lemma Resize_result s target :
  Resize s target
  = Ret (mkTxSlots
           (firstn target (Txs s ++ repeat None (target - length (Txs s))))
           (firstn (AddrLen * target)
              (Senders s
               ++ repeat Byte.x00 (AddrLen * (target - Addresses_Len (Senders s)))))
           (firstn target (IsLocal s ++ repeat false (target - length (IsLocal s))))).
Proof.
  unfold Resize.
  rewrite !(appendWhile_length _ target target) by lia.
  rewrite (appendWhile_senders target target) by lia.
  rewrite !forRange_empty; [reflexivity | | |];
    rewrite length_app, repeat_length; lia.
Qed.

Lemma take_grown {A} (x : A) target (l : list A) :
  firstn target (l ++ repeat x (target - length l))
  = firstn target l ++ repeat x (target - length l).
Proof.
  rewrite take_app. f_equal. apply firstn_all2. rewrite repeat_length. lia.
Qed.

Lemma take_repeat_le {A} (x : A) k m :
  (k <= m)%nat -> firstn k (repeat x m) = repeat x k.
Proof.
  revert m. induction k as [|k IH]; intros m H; [reflexivity|].
  destruct m as [|m]; [lia|]. cbn [repeat firstn]. rewrite IH by lia. reflexivity.
Qed.

(** [Resize] makes the slots valid, whatever they were: each of the three
    lists gets [targetSize] entries (20 bytes each for the senders), the
    first of them those it had, the others nil, zero bytes and false. *)
Theorem Resize_valid s target :
  exists s',
    Resize s target = Ret s' /\
    Valid s' = None /\
    Txs s' = firstn target (Txs s) ++ repeat None (target - length (Txs s)) /\
    IsLocal s' = firstn target (IsLocal s) ++ repeat false (target - length (IsLocal s)) /\
    Senders s' = firstn (AddrLen * target) (Senders s)
                 ++ repeat Byte.x00 (AddrLen * target - length (Senders s)) /\
    length (Senders s') = (AddrLen * target)%nat /\
    firstn (Nat.min (length (Senders s)) (AddrLen * target)) (Senders s')
    = firstn (AddrLen * target) (Senders s).
Proof.
  eexists. split; [apply Resize_result|]. cbn [Txs Senders IsLocal].
  rewrite !take_grown.
  set (sd := firstn (AddrLen * target)
               (Senders s ++ repeat Byte.x00
                  (AddrLen * (target - Addresses_Len (Senders s))))).
  assert (Hlen : length sd = (AddrLen * target)%nat).
  { subst sd. apply firstn_length_le. rewrite length_app, repeat_length.
    unfold Addresses_Len, AddrLen.
    pose proof (Nat.div_mod_eq (length (Senders s)) 20).
    pose proof (Nat.mod_upper_bound (length (Senders s)) 20). nia. }
  split; [|split; [reflexivity|split; [reflexivity|split; [|split; [exact Hlen|]]]]].
  - unfold Valid. cbn [Txs Senders IsLocal]. unfold Addresses_Len. rewrite Hlen.
    rewrite !length_app, !length_firstn, !repeat_length.
    replace (AddrLen * target / AddrLen)%nat with target
      by (unfold AddrLen; rewrite Nat.mul_comm, Nat.div_mul; lia).
    rewrite (proj2 (Nat.eqb_eq _ _)) by lia. cbn [negb].
    rewrite (proj2 (Nat.eqb_eq _ _)) by lia. reflexivity.
  - subst sd. rewrite take_app. f_equal. apply take_repeat_le.
    unfold Addresses_Len, AddrLen.
    pose proof (Nat.div_mod_eq (length (Senders s)) 20).
    pose proof (Nat.mod_upper_bound (length (Senders s)) 20). nia.
  - subst sd. rewrite take_take.
    replace (Nat.min (Nat.min (length (Senders s)) (AddrLen * target)) (AddrLen * target))
      with (Nat.min (length (Senders s)) (AddrLen * target)) by lia.
    rewrite take_app_le by lia.
    destruct (Nat.le_ge_cases (length (Senders s)) (AddrLen * target)) as [Hle|Hge].
    + rewrite Nat.min_l by lia. rewrite firstn_all, firstn_all2 by lia. reflexivity.
    + rewrite Nat.min_r by lia. reflexivity.
Qed.

Lemma setIndex_last {A} (l : list A) c x n :
  n = length l -> setIndex (l ++ [c]) n x = Ret (l ++ [x]).
Proof.
  intros ->. unfold setIndex. rewrite length_app. cbn [length].
  rewrite (proj2 (Nat.ltb_lt _ _)) by lia.
  rewrite insert_app_r_alt by lia. rewrite Nat.sub_diag. reflexivity.
Qed.

(** [Append] to valid slots with a sender of 20 bytes: the slots stay valid,
    the transaction, the sender and the flag are the last entries of the
    three lists, and the entries before them are as they were. *)
Theorem Append_valid s slot sender isLocal :
  length sender = AddrLen ->
  Valid s = None ->
  exists s',
    Append s slot sender isLocal = Ret s' /\
    Valid s' = None /\
    Txs s' = Txs s ++ [slot] /\
    IsLocal s' = IsLocal s ++ [isLocal] /\
    Addresses_At (Senders s') (length (Txs s)) = Ret sender /\
    (forall i, (i < length (Txs s))%nat ->
       Addresses_At (Senders s') i = Addresses_At (Senders s) i).
Proof.
  intros Hsender Hvalid. unfold Valid in Hvalid.
  destruct (Nat.eqb_spec (length (Txs s)) (length (IsLocal s))) as [Hl|]; [|discriminate].
  destruct (Nat.eqb_spec (length (Txs s)) (Addresses_Len (Senders s))) as [Ha|];
    [|discriminate]. clear Hvalid.
  set (n := length (Txs s)) in *.
  unfold Append. rewrite Resize_result. cbn [mbind go_bind Txs Senders IsLocal]. fold n.
  rewrite <- Hl, <- Ha. replace (n + 1 - n)%nat with 1%nat by lia.
  cbn [repeat]. rewrite Nat.mul_1_r.
  rewrite (firstn_all2 (Txs s ++ [None])) by (rewrite length_app; cbn; lia).
  rewrite (firstn_all2 (IsLocal s ++ [false])) by (rewrite length_app; cbn; lia).
  rewrite (setIndex_last (Txs s) None slot n eq_refl). cbn [mbind go_bind].
  rewrite (setIndex_last (IsLocal s) false isLocal n Hl). cbn [mbind go_bind].
  (* the senders *)
  assert (Hlo : (AddrLen * n <= length (Senders s))%nat).
  { rewrite Ha. unfold Addresses_Len, AddrLen.
    pose proof (Nat.div_mod_eq (length (Senders s)) 20). lia. }
  assert (Hhi : (length (Senders s) < AddrLen * (n + 1))%nat).
  { rewrite Ha. unfold Addresses_Len, AddrLen.
    pose proof (Nat.div_mod_eq (length (Senders s)) 20).
    pose proof (Nat.mod_upper_bound (length (Senders s)) 20). lia. }
  destruct (split_at (AddrLen * n) (Senders s) Hlo) as (P & T & HS & HP).
  rewrite HS in *. rewrite length_app in Hhi.
  set (h := firstn (AddrLen * (n + 1)) ((P ++ T) ++ repeat Byte.x00 AddrLen)).
  assert (Hh : exists D, h = P ++ D ++ [] /\ length D = AddrLen).
  { exists (firstn AddrLen (T ++ repeat Byte.x00 AddrLen)). split.
    - subst h. rewrite <- app_assoc, take_app, HP, app_nil_r.
      rewrite firstn_all2 by lia. f_equal. f_equal. lia.
    - apply firstn_length_le. rewrite length_app, repeat_length. lia. }
  destruct Hh as (D & Hh & HD). clearbody h. subst h.
  assert (Hat : Addresses_At (P ++ D ++ []) n = Ret D).
  { unfold Addresses_At. apply goSlice_middle; unfold AddrLen in *; lia. }
  unfold copyAt. rewrite Hat. cbn [mbind go_bind].
  replace (n * AddrLen)%nat with (length P) by lia.
  rewrite take_app_length.
  replace ((n + 1) * AddrLen)%nat with (length (P ++ D)) by (rewrite length_app; lia).
  rewrite (app_assoc P D []), drop_app_length.
  assert (Hcopy : goCopy D sender = sender).
  { unfold goCopy. rewrite HD, Hsender, Nat.min_id. rewrite <- Hsender at 1.
    rewrite firstn_all. rewrite <- HD. rewrite skipn_all. apply app_nil_r. }
  rewrite Hcopy.
  eexists. split; [reflexivity|]. cbn [Txs Senders IsLocal].
  split; [|split; [reflexivity|split; [reflexivity|split]]].
  - unfold Valid. cbn [Txs Senders IsLocal]. unfold Addresses_Len.
    rewrite !length_app. cbn [length]. rewrite HP, Hsender, <- Hl. fold n.
    rewrite (proj2 (Nat.eqb_eq _ _)) by lia. cbn [negb].
    replace ((AddrLen * n + (AddrLen + 0)) / AddrLen)%nat with (n + 1)%nat.
    + rewrite (proj2 (Nat.eqb_eq _ _)) by lia. reflexivity.
    + unfold AddrLen. replace (20 * n + (20 + 0))%nat with ((n + 1) * 20)%nat by lia.
      rewrite Nat.div_mul; lia.
  - unfold Addresses_At. rewrite <- (app_nil_r sender) at 1. rewrite <- app_assoc.
    apply goSlice_middle; unfold AddrLen in *; lia.
  - intros i Hi. unfold Addresses_At.
    destruct (split_at (i * AddrLen) P ltac:(unfold AddrLen in *; nia)) as (P1 & P2 & -> & HP1).
    rewrite length_app in HP.
    destruct (split_at AddrLen P2 ltac:(unfold AddrLen in *; nia)) as (M & P3 & -> & HM).
    rewrite <- !app_assoc.
    rewrite (goSlice_middle P1 M (P3 ++ sender ++ [])) by (unfold AddrLen in *; lia).
    rewrite (goSlice_middle P1 M (P3 ++ T)) by (unfold AddrLen in *; lia).
    reflexivity.
Qed.

(** A first transaction appended to no slots at all. *)
Lemma Append_valid_witness :
  exists s',
    Append (mkTxSlots [] [] []) (Some emptySlot) (repeat Byte.x11 20) true = Ret s' /\
    Valid s' = None /\
    Txs s' = [Some emptySlot] /\
    Addresses_At (Senders s') 0 = Ret (repeat Byte.x11 20).
Proof.
  destruct (Append_valid (mkTxSlots [] [] []) (Some emptySlot) (repeat Byte.x11 20) true
              eq_refl eq_refl) as (s' & H1 & H2 & H3 & _ & H5 & _).
  exists s'. repeat split; assumption.
Defined.

End Slots.

(** ** The order of the cursor heap (erigon-lib/state/domain.go) *)

Module Cursors.

Import Bytes ByteFacts.

(** [bytes.Compare] of Go's standard library: the lexicographic order of
    byte strings. *)
Fixpoint Compare (a b : list byte) : comparison :=
  match a, b with
  | [], [] => Eq
  | [], _ :: _ => Lt
  | _ :: _, [] => Gt
  | x :: a, y :: b =>
      match to_Z x ?= to_Z y with
      | Eq => Compare a b
      | c => c
      end
  end.

(** [CursorItem], the fields [Less] reads. *)
Record CursorItem := mkCursorItem {
  key : list byte;
  endTxNum : Z;
  reverse : bool
}.

(** The body of [CursorHeap.Less] on the two items. *)
Definition less (a b : CursorItem) : bool :=
  match Compare (key a) (key b) with
  | Eq =>
      (* when keys match, the items with later blocks are preferred *)
      if reverse a then endTxNum b <? endTxNum a else endTxNum a <? endTxNum b
  | Lt => true
  | Gt => false
  end.

(** [CursorHeap.Less]; the heap holds pointers, nil ones among them. *)
Definition Less (ch : list (option CursorItem)) (i j : Z) : go bool :=
  let item k :=
    if k <? 0 then Panic PanicIndexOutOfRange
    else match ch !! Z.to_nat k with
         | Some (Some x) => Ret x
         | Some None => Panic PanicNilDereference
         | None => Panic PanicIndexOutOfRange
         end in
  a ← item i;
  b ← item j;
  Ret (less a b).

Lemma to_Z_inj x y : to_Z x = to_Z y -> x = y.
Proof.
  unfold to_Z. intros H. apply N2Z.inj in H.
  pose proof (Byte.of_to_N x) as Hx. rewrite H, Byte.of_to_N in Hx. congruence.
Qed.

Lemma Compare_eq a b : Compare a b = Eq <-> a = b.
Proof.
  revert b. induction a as [|x a IH]; intros [|y b]; cbn; try (split; congruence).
  destruct (Z.compare_spec (to_Z x) (to_Z y)) as [E|E|E].
  - apply to_Z_inj in E. subst y. rewrite IH. split; congruence.
  - split; [discriminate|]. intros H. inversion H. subst. lia.
  - split; [discriminate|]. intros H. inversion H. subst. lia.
Qed.

Lemma Compare_antisym a b : Compare b a = CompOpp (Compare a b).
Proof.
  revert b. induction a as [|x a IH]; intros [|y b]; cbn; try reflexivity.
  rewrite (Z.compare_antisym (to_Z x) (to_Z y)).
  destruct (to_Z x ?= to_Z y); cbn; [apply IH | reflexivity | reflexivity].
Qed.

Lemma Compare_trans a b c : Compare a b = Lt -> Compare b c = Lt -> Compare a c = Lt.
Proof.
  revert b c. induction a as [|x a IH]; intros [|y b] [|z c]; cbn; try congruence.
  destruct (Z.compare_spec (to_Z x) (to_Z y)) as [E1|E1|E1];
    destruct (Z.compare_spec (to_Z y) (to_Z z)) as [E2|E2|E2]; try discriminate.
  - intros H1 H2. rewrite E1, E2, Z.compare_refl. exact (IH _ _ H1 H2).
  - intros _ _. rewrite (proj2 (Z.compare_lt_iff _ _)) by lia. reflexivity.
  - intros _ _. rewrite (proj2 (Z.compare_lt_iff _ _)) by lia. reflexivity.
  - intros _ _. rewrite (proj2 (Z.compare_lt_iff _ _)) by lia. reflexivity.
Qed.

(** [Less] is a strict total order on the items of one direction: no item
    is before itself, of two items that differ in key or end one and only
    one is before the other, and the order is transitive.  Equal keys are
    ordered by their end, the later end first when reverse is set. *)
Theorem Less_strict_order r a b c :
  reverse a = r -> reverse b = r ->
  less a a = false /\
  (less a b = true -> less b a = false) /\
  (less a b = true -> less b c = true -> less a c = true) /\
  (key a <> key b \/ endTxNum a <> endTxNum b -> less a b = true \/ less b a = true) /\
  (key a = key b ->
   less a b = if r then endTxNum b <? endTxNum a else endTxNum a <? endTxNum b).
Proof.
  intros Ha Hb. unfold less. rewrite Ha, Hb.
  split; [|split; [|split; [|split]]].
  - rewrite (proj2 (Compare_eq _ _) eq_refl). destruct r; apply Z.ltb_irrefl.
  - rewrite (Compare_antisym (key a) (key b)).
    destruct (Compare (key a) (key b)); cbn [CompOpp]; try congruence.
    destruct r; intros H; apply Z.ltb_lt in H; apply Z.ltb_ge; lia.
  - destruct (Compare (key a) (key b)) eqn:Eab; try discriminate;
      destruct (Compare (key b) (key c)) eqn:Ebc; try discriminate.
    + apply Compare_eq in Eab, Ebc. rewrite Eab, Ebc, (proj2 (Compare_eq _ _) eq_refl).
      destruct r; intros H1 H2; apply Z.ltb_lt in H1, H2; apply Z.ltb_lt; lia.
    + apply Compare_eq in Eab. rewrite Eab, Ebc. reflexivity.
    + apply Compare_eq in Ebc. rewrite <- Ebc, Eab. reflexivity.
    + rewrite (Compare_trans _ _ _ Eab Ebc). reflexivity.
  - intros Hne. rewrite (Compare_antisym (key a) (key b)).
    destruct (Compare (key a) (key b)) eqn:Eab; cbn [CompOpp]; [|left|right]; try reflexivity.
    apply Compare_eq in Eab. destruct Hne as [Hne|Hne]; [contradiction|].
    destruct r; destruct (Z.ltb_spec (endTxNum a) (endTxNum b));
      destruct (Z.ltb_spec (endTxNum b) (endTxNum a)); auto; lia.
  - intros Hk. rewrite (proj2 (Compare_eq _ _) Hk). reflexivity.
Qed.

(** Between a file cursor and a db cursor of the same key, both reverse:
    the one that ends later is first. *)
Lemma Less_strict_order_witness :
  less (mkCursorItem [Byte.x6b] 32 true) (mkCursorItem [Byte.x6b] 16 true) = true /\
  less (mkCursorItem [Byte.x6b] 16 true) (mkCursorItem [Byte.x6b] 32 true) = false.
Proof.
  destruct (Less_strict_order true (mkCursorItem [Byte.x6b] 32 true)
              (mkCursorItem [Byte.x6b] 16 true) (mkCursorItem [Byte.x6b] 16 true)
              eq_refl eq_refl) as (_ & H2 & _ & _ & H5).
  split; [rewrite (H5 eq_refl); reflexivity | apply H2; rewrite (H5 eq_refl); reflexivity].
Defined.

(** Items of the two directions are not ordered by [Less]: of a forward and
    a reverse item of one key, each is before the other. *)
Example Less_of_two_directions :
  less (mkCursorItem [Byte.x6b] 32 true) (mkCursorItem [Byte.x6b] 16 false) = true /\
  less (mkCursorItem [Byte.x6b] 16 false) (mkCursorItem [Byte.x6b] 32 true) = true.
Proof. split; reflexivity. Qed.

End Cursors.

(** ** Announcements of transactions (erigon-lib/types/txn.go) *)

Module Announce.

Import Bytes ByteFacts ParseTx.

Definition HashLen : Z := 32.

(** [Announcements]: the types, the sizes and the flattened 32-byte hashes. *)
Record Announcements := mkAnnouncements {
  ts : list byte;
  sizes : list Z;
  hashes : list byte
}.

Definition Append (a : Announcements) (t : byte) (size : Z) (hash : list byte)
  : Announcements :=
  mkAnnouncements (ts a ++ [t]) (sizes a ++ [size]) (hashes a ++ hash).

Definition AppendOther (a other : Announcements) : Announcements :=
  mkAnnouncements (ts a ++ ts other) (sizes a ++ sizes other) (hashes a ++ hashes other).

(** [l[i]]. *)
Definition index {A} (l : list A) (i : Z) : go A :=
  if i <? 0 then Panic PanicIndexOutOfRange
  else match l !! Z.to_nat i with
       | Some x => Ret x
       | None => Panic PanicIndexOutOfRange
       end.

(** [At]: the three results are evaluated from left to right, so the
    slice of the hashes is only reached for an index that [ts] and [sizes]
    have. *)
Definition At (a : Announcements) (i : Z) : go (byte * Z * list byte) :=
  t ← index (ts a) i;
  size ← index (sizes a) i;
  hash ← goSlice (hashes a) (i * HashLen) ((i + 1) * HashLen);
  Ret (t, size, hash).

Definition Len (a : Announcements) : Z := Z.of_nat (length (ts a)).

(** The three lists hold the same number of entries. *)
Definition wellFormed (a : Announcements) : Prop :=
  length (sizes a) = length (ts a) /\
  Z.of_nat (length (hashes a)) = HashLen * Z.of_nat (length (ts a)).

Lemma index_app_l {A} (l1 l2 : list A) i :
  i < Z.of_nat (length l1) -> index (l1 ++ l2) i = index l1 i.
Proof.
  intros H. unfold index. destruct (i <? 0) eqn:E; [reflexivity|].
  apply Z.ltb_ge in E. rewrite lookup_app_l by lia. reflexivity.
Qed.

Lemma index_app_r {A} (l1 l2 : list A) j :
  0 <= j -> index (l1 ++ l2) (Z.of_nat (length l1) + j) = index l2 j.
Proof.
  intros H. unfold index. rewrite (proj2 (Z.ltb_ge _ _)) by lia.
  rewrite (proj2 (Z.ltb_ge j 0)) by lia.
  rewrite lookup_app_r by lia.
  replace (Z.to_nat (Z.of_nat (length l1) + j) - length l1)%nat with (Z.to_nat j) by lia.
  reflexivity.
Qed.

(** [AppendOther] joins two well-formed lists of announcements into a
    well-formed one: its length is the sum, its first entries are those of
    the first list and the entries after them those of the second.  [Append]
    of an announcement with a hash of 32 bytes is [AppendOther] of the list
    of that one announcement. *)
Theorem AppendOther_At a other :
  wellFormed a -> wellFormed other ->
  wellFormed (AppendOther a other) /\
  Len (AppendOther a other) = Len a + Len other /\
  (forall i, i < Len a -> At (AppendOther a other) i = At a i) /\
  (forall j, 0 <= j -> At (AppendOther a other) (Len a + j) = At other j) /\
  (forall t size hash,
     Z.of_nat (length hash) = HashLen ->
     Append a t size hash = AppendOther a (mkAnnouncements [t] [size] hash) /\
     wellFormed (mkAnnouncements [t] [size] hash) /\
     At (Append a t size hash) (Len a) = Ret (t, size, hash)).
Proof.
  intros [Ha1 Ha2] [Hb1 Hb2]. unfold HashLen in *.
  assert (Hr : forall b j, 0 <= j ->
                 At (AppendOther a b) (Len a + j) = At b j).
  { intros b j Hj. unfold At, AppendOther, Len, HashLen. cbn [ts sizes hashes].
    rewrite (index_app_r (ts a)) by exact Hj.
    rewrite <- Ha1. rewrite (index_app_r (sizes a)) by exact Hj. rewrite Ha1.
    replace ((Z.of_nat (length (ts a)) + j) * 32)
      with (Z.of_nat (length (hashes a)) + j * 32) by lia.
    replace ((Z.of_nat (length (ts a)) + j + 1) * 32)
      with (Z.of_nat (length (hashes a)) + (j + 1) * 32) by lia.
    rewrite goSlice_app_r by lia. reflexivity. }
  split; [|split; [|split; [|split]]].
  - split; cbn [AppendOther ts sizes hashes]; unfold HashLen; rewrite !length_app; lia.
  - unfold Len. cbn [AppendOther ts]. rewrite length_app. lia.
  - intros i Hi. unfold At, AppendOther, Len, HashLen in Hi |- *. cbn [ts sizes hashes].
    rewrite (index_app_l (ts a)) by exact Hi. rewrite (index_app_l (sizes a)) by lia.
    destruct (Z.ltb_spec i 0) as [Hneg|Hpos].
    + unfold index. rewrite (proj2 (Z.ltb_lt i 0)) by lia. reflexivity.
    + rewrite goSlice_app_l by lia. reflexivity.
  - intros j Hj. apply Hr. exact Hj.
  - intros t size hash Hh. split; [reflexivity|]. split; [split; unfold HashLen; cbn; lia|].
    change (Append a t size hash) with (AppendOther a (mkAnnouncements [t] [size] hash)).
    rewrite <- (Z.add_0_r (Len a)). rewrite (Hr _ 0) by lia.
    unfold At, HashLen. cbn [ts sizes hashes index Z.ltb Z.compare Z.to_nat lookup mbind go_bind].
    unfold goSlice, subslice, len. rewrite Hh.
    replace (Z.to_nat ((0 + 1) * 32 - 0 * 32)) with (length hash) by lia.
    change (Z.to_nat (0 * 32)) with 0%nat. rewrite drop_0, firstn_all. reflexivity.
Qed.

Lemma AppendOther_At_witness :
  At (Append (Append (mkAnnouncements [] [] []) Byte.x02 100 (repeat Byte.xaa 32))
        Byte.x03 200 (repeat Byte.xbb 32)) 1
  = Ret (Byte.x03, 200, repeat Byte.xbb 32).
Proof.
  assert (W : wellFormed (Append (mkAnnouncements [] [] []) Byte.x02 100 (repeat Byte.xaa 32)))
    by (split; reflexivity).
  destruct (AppendOther_At _ (mkAnnouncements [] [] []) W ltac:(split; reflexivity))
    as (_ & _ & _ & _ & H).
  destruct (H Byte.x03 200 (repeat Byte.xbb 32) eq_refl) as (_ & _ & H3).
  exact H3.
Defined.

End Announce.
